(** * Multi-document RAG with source attribution: loader, chunker,
      retrieval adapter and answer validator

    A shallow embedding of [rag/document_loader.py] (the pages built from
    parsed files), [rag/chunker.py], [rag/retriever.py],
    [rag/vector_store.py] (searching and listing) and
    [rag/answer_generator.py], with the properties of the retrieval-grounding
    pipeline stated and proved over it.

    Conventions of the embedding.
    - A Python [str] is a [string]; a character is a code point below 256.
    - A Python [int] is a [Z]; indices and lengths are [Z], so that negative
      indices behave as in Python.
    - A value whose type is only known at run time (a decoded JSON payload)
      is a [pyval].
    - A call that can raise returns a [result]; an uncaught exception is
      [Raise e].
    - A loop that may not terminate takes fuel and returns [None] when the
      fuel is used up. *)

From Stdlib Require Import ZArith List Bool Ascii String Lia.
From Stdlib Require Import Floats.PrimFloat.
From stdpp Require Import base option list strings gmap pretty sorting.

Local Open Scope string_scope.
Local Open Scope Z_scope.

(** ** Exceptions *)

Inductive exn : Type :=
  | AttributeError
  | TypeError
  | IndexError
  | RuntimeError
  | UpstreamError (msg : string).

Inductive result (A : Type) : Type :=
  | Ok (a : A)
  | Raise (e : exn).

Arguments Ok {A} a.
Arguments Raise {A} e.

Global Instance result_ret : MRet result := fun A a => Ok a.
Global Instance result_bind : MBind result := fun A B f m =>
  match m with
  | Ok a => f a
  | Raise e => Raise e
  end.

(** [for x in xs: ...] where the body can raise and appends to a list. *)
Fixpoint mapM_filter {A B : Type} (f : A -> result (option B)) (xs : list A)
  : result (list B) :=
  match xs with
  | [] => Ok []
  | x :: xs' =>
      match f x with
      | Raise e => Raise e
      | Ok o =>
          match mapM_filter f xs' with
          | Raise e => Raise e
          | Ok ys => Ok (match o with Some y => y :: ys | None => ys end)
          end
      end
  end.

(** ** Python strings *)

Module PyStr.

Definition len (s : string) : Z := Z.of_nat (String.length s).

Definition code (c : ascii) : N := N_of_ascii c.

(** [str.isspace] on one character: the whitespace code points below 256.
    It is also the class [\s] of [re] on [str] patterns. *)
Definition isspace (c : ascii) : bool :=
  let n := code c in
  ((9 <=? n) && (n <=? 13) || (28 <=? n) && (n <=? 32)
   || (n =? 133) || (n =? 160))%N.

Fixpoint lstrip (s : string) : string :=
  match s with
  | EmptyString => EmptyString
  | String c s' => if isspace c then lstrip s' else s
  end.

Fixpoint rstrip (s : string) : string :=
  match s with
  | EmptyString => EmptyString
  | String c s' =>
      match rstrip s' with
      | EmptyString => if isspace c then EmptyString else String c EmptyString
      | r => String c r
      end
  end.

(** [s.strip()] *)
Definition strip (s : string) : string := rstrip (lstrip s).

(** How Python turns a slice bound into a position of [0..n]. *)
Definition clamp (n i : Z) : Z :=
  if i <? 0 then Z.max 0 (i + n) else Z.min i n.

(** [s[i:j]] *)
Definition slice (s : string) (i j : Z) : string :=
  let lo := clamp (len s) i in
  let hi := clamp (len s) j in
  String.substring (Z.to_nat lo) (Z.to_nat (hi - lo)) s.

(** [s[i:]] *)
Definition slice_from (s : string) (i : Z) : string := slice s i (len s).

(** [s[:j]] *)
Definition slice_to (s : string) (j : Z) : string := slice s 0 j.

(** [s[i]], which raises [IndexError] outside [-n..n-1]. *)
Definition item (s : string) (i : Z) : result ascii :=
  let k := if i <? 0 then i + len s else i in
  if (k <? 0) || (len s <=? k) then Raise IndexError
  else match String.get (Z.to_nat k) s with
       | Some c => Ok c
       | None => Raise IndexError
       end.

(** First position at or after [i] where [sub] starts, counted from [i]. *)
Fixpoint find_go (sub s : string) (i : nat) : option nat :=
  if String.prefix sub s then Some i
  else match s with
       | EmptyString => None
       | String _ s' => find_go sub s' (S i)
       end.

(** Last position where [sub] starts, counted from [i]. *)
Fixpoint rfind_go (sub s : string) (i : nat) : option nat :=
  match s with
  | EmptyString => if String.prefix sub s then Some i else None
  | String _ s' =>
      match rfind_go sub s' (S i) with
      | Some k => Some k
      | None => if String.prefix sub s then Some i else None
      end
  end.

(** [s.find(sub, start)] as an option. *)
Definition find_from (s sub : string) (start : Z) : option Z :=
  let lo := clamp (len s) start in
  if len s <? start then None
  else match find_go sub (substring (Z.to_nat lo) (String.length s) s) 0 with
       | Some k => Some (lo + Z.of_nat k)
       | None => None
       end.

(** [sub in s] *)
Definition contains (sub s : string) : bool :=
  match find_go sub s 0 with Some _ => true | None => false end.

(** [s.rfind(sub, start, end)], [-1] when there is no occurrence. *)
Definition rfind (s sub : string) (start stop : Z) : Z :=
  let lo := clamp (len s) start in
  let hi := clamp (len s) stop in
  if len s <? start then -1
  else match rfind_go sub (substring (Z.to_nat lo) (Z.to_nat (hi - lo)) s) 0 with
       | Some k => lo + Z.of_nat k
       | None => -1
       end.

(** [c in chars] for a character [c]. *)
Fixpoint char_in (c : ascii) (chars : string) : bool :=
  match chars with
  | EmptyString => false
  | String d chars' => Ascii.eqb c d || char_in c chars'
  end.

(** [str(n)] for an [int]. *)
Definition of_int (n : Z) : string := pretty n.

End PyStr.

(** ** [hashlib.md5]

    The digest of RFC 1321 over bytes held as [Z] in [0..255], 32-bit words
    held as [Z] with the wrap-around written out. *)

Module MD5.

Definition mask32 : Z := 4294967295.

Definition add32 (x y : Z) : Z := Z.land (x + y) mask32.

Definition not32 (x : Z) : Z := Z.lxor x mask32.

Definition rotl32 (x n : Z) : Z :=
  Z.land (Z.lor (Z.shiftl x n) (Z.shiftr x (32 - n))) mask32.

Definition K : list Z :=
  [ 3614090360; 3905402710; 606105819; 3250441966;
    4118548399; 1200080426; 2821735955; 4249261313;
    1770035416; 2336552879; 4294925233; 2304563134;
    1804603682; 4254626195; 2792965006; 1236535329;
    4129170786; 3225465664; 643717713; 3921069994;
    3593408605; 38016083; 3634488961; 3889429448;
    568446438; 3275163606; 4107603335; 1163531501;
    2850285829; 4243563512; 1735328473; 2368359562;
    4294588738; 2272392833; 1839030562; 4259657740;
    2763975236; 1272893353; 4139469664; 3200236656;
    681279174; 3936430074; 3572445317; 76029189;
    3654602809; 3873151461; 530742520; 3299628645;
    4096336452; 1126891415; 2878612391; 4237533241;
    1700485571; 2399980690; 4293915773; 2240044497;
    1873313359; 4264355552; 2734768916; 1309151649;
    4149444226; 3174756917; 718787259; 3951481745 ].

Definition R : list Z :=
  [ 7; 12; 17; 22; 7; 12; 17; 22; 7; 12; 17; 22; 7; 12; 17; 22;
    5; 9; 14; 20; 5; 9; 14; 20; 5; 9; 14; 20; 5; 9; 14; 20;
    4; 11; 16; 23; 4; 11; 16; 23; 4; 11; 16; 23; 4; 11; 16; 23;
    6; 10; 15; 21; 6; 10; 15; 21; 6; 10; 15; 21; 6; 10; 15; 21 ].

Record state : Type := { sa : Z; sb : Z; sc : Z; sd : Z }.

Definition init : state :=
  {| sa := 1732584193; sb := 4023233417; sc := 2562383102; sd := 271733878 |}.

(** One of the 64 operations on a block whose 16 words are [M]. *)
Definition op (M : list Z) (st : state) (i : nat) : state :=
  let '(Build_state a b c d) := st in
  let iz := Z.of_nat i in
  let '(f, g) :=
    if iz <? 16 then (Z.lor (Z.land b c) (Z.land (not32 b) d), iz)
    else if iz <? 32 then
      (Z.lor (Z.land d b) (Z.land (not32 d) c), (5 * iz + 1) mod 16)
    else if iz <? 48 then (Z.lxor (Z.lxor b c) d, (3 * iz + 5) mod 16)
    else (Z.lxor c (Z.lor b (not32 d)), (7 * iz) mod 16) in
  let f' := add32 (add32 (add32 f a) (nth i K 0)) (nth (Z.to_nat g) M 0) in
  {| sa := d; sb := add32 b (rotl32 f' (nth i R 0)); sc := b; sd := c |}.

(** Four bytes, least significant first, as one word. *)
Definition word_of_bytes (bs : list Z) : Z :=
  nth 0 bs 0 + 256 * nth 1 bs 0 + 65536 * nth 2 bs 0 + 16777216 * nth 3 bs 0.

Definition bytes_of_word (w : Z) : list Z :=
  [ Z.land w 255; Z.land (Z.shiftr w 8) 255;
    Z.land (Z.shiftr w 16) 255; Z.land (Z.shiftr w 24) 255 ].

(** The list cut into pieces of [k] elements. *)
Fixpoint pieces {A : Type} (fuel k : nat) (l : list A) : list (list A) :=
  match fuel, l with
  | O, _ | _, [] => []
  | S fuel', _ => firstn k l :: pieces fuel' k (skipn k l)
  end.

Definition words_of_block (block : list Z) : list Z :=
  map word_of_bytes (pieces 16 4 block).

Definition process (st : state) (block : list Z) : state :=
  let st' := fold_left (op (words_of_block block)) (seq 0 64) st in
  {| sa := add32 (sa st) (sa st'); sb := add32 (sb st) (sb st');
     sc := add32 (sc st) (sc st'); sd := add32 (sd st) (sd st') |}.

Definition pad (msg : list Z) : list Z :=
  let n := Z.of_nat (length msg) in
  let bits := 8 * n in
  msg ++ [128] ++ repeat 0 (Z.to_nat ((55 - n) mod 64))
      ++ bytes_of_word (Z.land bits mask32)
      ++ bytes_of_word (Z.land (Z.shiftr bits 32) mask32).

Definition digest (msg : list Z) : list Z :=
  let padded := pad msg in
  let st := fold_left process (pieces (length padded) 64 padded) init in
  bytes_of_word (sa st) ++ bytes_of_word (sb st)
    ++ bytes_of_word (sc st) ++ bytes_of_word (sd st).

Definition hex_digit (n : Z) : ascii :=
  match String.get (Z.to_nat n) "0123456789abcdef" with
  | Some c => c
  | None => "0"%char
  end.

Definition hex (bytes : list Z) : string :=
  fold_right
    (fun b acc => String (hex_digit (b / 16)) (String (hex_digit (b mod 16)) acc))
    EmptyString bytes.

(** [s.encode()]: UTF-8 of code points below 256. *)
Definition encode (s : string) : list Z :=
  flat_map
    (fun c =>
       let n := Z.of_N (N_of_ascii c) in
       if n <? 128 then [n] else [192 + n / 64; 128 + n mod 64])
    (list_ascii_of_string s).

(** [hashlib.md5(s.encode()).hexdigest()] *)
Definition hexdigest (s : string) : string := hex (digest (encode s)).

End MD5.

Example md5_empty : MD5.hexdigest "" = "d41d8cd98f00b204e9800998ecf8427e".
Proof. vm_compute. reflexivity. Qed.

Example md5_abc : MD5.hexdigest "abc" = "900150983cd24fb0d6963f7d28e17f72".
Proof. vm_compute. reflexivity. Qed.

Example md5_two_blocks :
  MD5.hexdigest
    "xxxxxxxxxxxxxxxxxxxxxxxxxxxxxxxxxxxxxxxxxxxxxxxxxxxxxxxxxxxxxxxxxxxxxxxxxxxxxxxxxxxxxxxxxxxxxxxxxxxxxxxxxxxxxxxxxxxxxxxx"
  = "fb98667f98096de92620b64f46e1c5b5".
Proof. vm_compute. reflexivity. Qed.

(** ** Data model *)

(** [config/settings.py]: the fields the pipeline reads. *)
Module Settings.
Record t : Type := mk {
  groq_api_key : string;
  llm_model : string;
  chunk_size : Z;
  chunk_overlap : Z;
  top_k_results : Z
}.

Definition default : t :=
  {| groq_api_key := ""; llm_model := "llama-3.1-70b-versatile";
     chunk_size := 500; chunk_overlap := 50; top_k_results := 5 |}.
End Settings.

(** [rag/document_loader.py], class [DocumentPage]. *)
Module DocumentPage.
Record t : Type := mk {
  document_name : string;
  page_number : Z;
  text : string;
  is_section : bool
}.
End DocumentPage.

(** [rag/chunker.py], class [TextChunk]. *)
Module TextChunk.
Record t : Type := mk {
  document_name : string;
  page_number : Z;
  chunk_id : string;
  text : string;
  is_section : bool
}.
End TextChunk.

(** [x or default] on an optional [int]: [None] and [0] are falsy. *)
Definition int_or (x : option Z) (default : Z) : Z :=
  match x with
  | Some v => if v =? 0 then default else v
  | None => default
  end.

(** ** The chunker, [rag/chunker.py] *)

Module TextChunker.

Record t : Type := mk { chunk_size : Z; chunk_overlap : Z }.

(** [TextChunker.__init__] *)
Definition __init__ (settings : Settings.t) (chunk_size chunk_overlap : option Z)
  : result t :=
  Ok {| chunk_size := int_or chunk_size (Settings.chunk_size settings);
        chunk_overlap := int_or chunk_overlap (Settings.chunk_overlap settings) |}.

Definition newline : string := String "010"%char EmptyString.

Definition sentence_ends : list string :=
  [ ". "; "! "; "? "; "." +:+ newline; "!" +:+ newline; "?" +:+ newline ].

(** The characters of [" \n\t"]. *)
Definition word_separators : string :=
  String " "%char (String "010"%char (String "009"%char EmptyString)).

(** The [for end_marker in sentence_ends] loop of [_find_boundary]. *)
Definition best_break (search_text : string) (search_start stop : Z) : option Z :=
  fold_left
    (fun best end_marker =>
       let idx := PyStr.rfind search_text end_marker 0 stop in
       if idx =? -1 then best
       else
         let actual_pos := search_start + idx + PyStr.len end_marker in
         match best with
         | None => Some actual_pos
         | Some b => if actual_pos >? b then Some actual_pos else best
         end)
    sentence_ends None.

(** The [while word_end < len(text) and text[word_end] not in " \n\t"] loop.
    [Z.to_nat (len text - word_end)] rounds are enough, see
    [word_end_loop_exit]. *)
Fixpoint word_end_loop (fuel : nat) (text : string) (word_end : Z) : result Z :=
  if PyStr.len text <=? word_end then Ok word_end
  else
    match PyStr.item text word_end with
    | Raise e => Raise e
    | Ok c =>
        if PyStr.char_in c word_separators then Ok word_end
        else match fuel with
             | O => Ok word_end
             | S fuel' => word_end_loop fuel' text (word_end + 1)
             end
    end.

(** [TextChunker._find_boundary] *)
Definition _find_boundary (text : string) (position : Z) : result Z :=
  let search_start := Z.max 0 (position - 50) in
  let search_end := Z.min (PyStr.len text) (position + 50) in
  let search_text := PyStr.slice text search_start search_end in
  match best_break search_text search_start (position - search_start + 50) with
  | Some b => if b =? 0 then
                word_end_loop (Z.to_nat (PyStr.len text - position)) text position
              else Ok b
  | None => word_end_loop (Z.to_nat (PyStr.len text - position)) text position
  end.

(** [TextChunker._generate_chunk_id] *)
Definition _generate_chunk_id (document_name : string) (page_number chunk_index : Z)
  : string :=
  let base := document_name +:+ "_page" +:+ PyStr.of_int page_number
                +:+ "_chunk" +:+ PyStr.of_int chunk_index in
  let hash_suffix := PyStr.slice_to (MD5.hexdigest base) 8 in
  document_name +:+ "_p" +:+ PyStr.of_int page_number
    +:+ "_c" +:+ PyStr.of_int chunk_index +:+ "_" +:+ hash_suffix.

(** The state of the [while start < len(text)] loop of [_chunk_text]. *)
Record loop_state : Type := mk_state {
  start : Z;
  chunk_index : Z;
  chunks : list TextChunk.t
}.

Inductive outcome : Type :=
  | Next (st : loop_state)
  | Break (chunks : list TextChunk.t).

Section ChunkText.
Variable self : t.
Variables (text document_name : string) (page_number : Z) (is_section : bool).

(** The end of the window that starts at [start]. *)
Definition window_end (start : Z) : result Z :=
  let end_ := start + chunk_size self in
  if end_ <? PyStr.len text then
    match _find_boundary text end_ with
    | Raise e => Raise e
    | Ok boundary => Ok (if boundary >? start then boundary else end_)
    end
  else Ok end_.

(** One round of the loop, entered with [start < len(text)]. *)
Definition loop_body (st : loop_state) : result outcome :=
  match window_end (start st) with
  | Raise e => Raise e
  | Ok end_ =>
      let chunk_text := PyStr.strip (PyStr.slice text (start st) end_) in
      let st1 :=
        if String.eqb chunk_text EmptyString then st
        else
          let chunk_id :=
            _generate_chunk_id document_name page_number (chunk_index st) in
          {| start := start st;
             chunk_index := chunk_index st + 1;
             chunks := (chunks st ++
               [ {| TextChunk.document_name := document_name;
                    TextChunk.page_number := page_number;
                    TextChunk.chunk_id := chunk_id;
                    TextChunk.text := chunk_text;
                    TextChunk.is_section := is_section |} ])%list |} in
      let start' := end_ - chunk_overlap self in
      if PyStr.len text - 1 <=? start' then Ok (Break (chunks st1))
      else Ok (Next {| start := start'; chunk_index := chunk_index st1;
                       chunks := chunks st1 |})
  end.

(** The loop; [None] when [fuel] rounds did not reach its end. *)
Fixpoint chunk_loop (fuel : nat) (st : loop_state)
  : option (result (list TextChunk.t)) :=
  match fuel with
  | O => None
  | S fuel' =>
      if start st <? PyStr.len text then
        match loop_body st with
        | Raise e => Some (Raise e)
        | Ok (Break cs) => Some (Ok cs)
        | Ok (Next st') => chunk_loop fuel' st'
        end
      else Some (Ok (chunks st))
  end.
End ChunkText.

(** [TextChunker._chunk_text] *)
Definition _chunk_text (fuel : nat) (self : t) (text document_name : string)
    (page_number : Z) (is_section : bool) : option (result (list TextChunk.t)) :=
  if String.eqb text EmptyString || String.eqb (PyStr.strip text) EmptyString
  then Some (Ok [])
  else
    let text := PyStr.strip text in
    if PyStr.len text <=? chunk_size self then
      let chunk_id := _generate_chunk_id document_name page_number 0 in
      Some (Ok [ {| TextChunk.document_name := document_name;
                    TextChunk.page_number := page_number;
                    TextChunk.chunk_id := chunk_id;
                    TextChunk.text := text;
                    TextChunk.is_section := is_section |} ])
    else
      chunk_loop self text document_name page_number is_section fuel
        {| start := 0; chunk_index := 0; chunks := [] |}.

(** [TextChunker.chunk_pages]; every page gets [fuel] rounds. *)
Fixpoint chunk_pages (fuel : nat) (self : t) (pages : list DocumentPage.t)
  : option (result (list TextChunk.t)) :=
  match pages with
  | [] => Some (Ok [])
  | page :: pages' =>
      match _chunk_text fuel self (DocumentPage.text page)
              (DocumentPage.document_name page) (DocumentPage.page_number page)
              (DocumentPage.is_section page) with
      | None => None
      | Some (Raise e) => Some (Raise e)
      | Some (Ok cs) =>
          match chunk_pages fuel self pages' with
          | None => None
          | Some (Raise e) => Some (Raise e)
          | Some (Ok rest) => Some (Ok (cs ++ rest)%list)
          end
      end
  end.

End TextChunker.

(** ** Values decoded from JSON *)

(** What [json.loads] returns: [None], [bool], [int], [float], [str], [list]
    or a [dict] with [str] keys. *)
#[local] Set Warnings "-register-all".
Inductive pyval : Type :=
  | PNone
  | PBool (b : bool)
  | PInt (n : Z)
  | PFloat (x : float)
  | PStr (s : string)
  | PList (xs : list pyval)
  | PDict (items : gmap string pyval).

Module Py.

(** [obj.get(key, default)]: only a [dict] has the method. *)
Definition get (obj : pyval) (key : string) (default : pyval) : result pyval :=
  match obj with
  | PDict items => Ok (match items !! key with Some v => v | None => default end)
  | _ => Raise AttributeError
  end.

(** The elements [for x in obj] runs over. *)
Definition iter (obj : pyval) : result (list pyval) :=
  match obj with
  | PList xs => Ok xs
  | PDict items => Ok (map (fun kv => PStr (fst kv)) (map_to_list items))
  | PStr s => Ok (map (fun c => PStr (String c EmptyString)) (list_ascii_of_string s))
  | PNone | PBool _ | PInt _ | PFloat _ => Raise TypeError
  end.

(** [x in ids] for a set of [str]: a [str] is looked up, a [list] or a
    [dict] is unhashable, any other value is hashable and equal to no
    [str]. On success the key is returned when it is a member. *)
Definition member (x : pyval) (ids : gset string) : result (option string) :=
  match x with
  | PStr s => Ok (if decide (s ∈ ids) then Some s else None)
  | PList _ | PDict _ => Raise TypeError
  | PNone | PBool _ | PInt _ | PFloat _ => Ok None
  end.

End Py.

(** ** The retrieval adapter, [rag/retriever.py] and [rag/vector_store.py] *)

(** [rag/retriever.py], class [RetrievedChunk]. [score] is [None] when the
    store had no distance to give. *)
Module RetrievedChunk.
Record t : Type := mk {
  document_name : string;
  page_number : Z;
  chunk_id : string;
  text : string;
  score : option float;
  is_section : bool
}.
End RetrievedChunk.

(** The metadata [dict] of a stored chunk, as [TextChunk.to_metadata] writes
    it; a key that is missing is [None]. *)
Module Metadata.
Record t : Type := mk {
  document_name : option string;
  page_number : option Z;
  is_section : option bool
}.

(** The empty [dict]. *)
Definition empty : t :=
  {| document_name := None; page_number := None; is_section := None |}.
End Metadata.

(** One result record, a [dict] of which any key may be missing ([None]).
    The values under ["metadata"] and ["distance"] can themselves be
    Python's [None]: the collection returns [None] as the metadata of a
    record that was stored without metadata, and [search] writes [None] as
    the distance when the collection returned no distances. *)
Module Hit.
Record t : Type := mk {
  chunk_id : option string;
  text : option string;
  metadata : option (option Metadata.t);
  distance : option (option float)
}.
End Hit.

(** [d.get(key, default)] on a key that may be missing. *)
Definition get_or {A : Type} (field : option A) (default : A) : A :=
  match field with
  | Some v => v
  | None => default
  end.

Module VectorStore.

(** What the collection answers to one query: the first row of each
    column of [collection.query]. The metadata of a record that was stored
    without metadata is [None]. *)
Record query_result : Type := mk_query_result {
  ids : list string;
  documents : list string;
  metadatas : list (option Metadata.t);
  distances : option (list float)
}.

(** [xs[i]] on a list. *)
Definition item {A : Type} (xs : list A) (i : nat) : result A :=
  match nth_error xs i with
  | Some x => Ok x
  | None => Raise IndexError
  end.

(** The record of row [i] in [VectorStore.search]. *)
Definition format_row (results : query_result) (i : nat) : result Hit.t :=
  id ← item (ids results) i;
  doc ← item (documents results) i;
  md ← item (metadatas results) i;
  dist ← match distances results with
         | Some ds => d ← item ds i; Ok (Some d)
         | None => Ok None
         end;
  Ok {| Hit.chunk_id := Some id; Hit.text := Some doc;
        Hit.metadata := Some md; Hit.distance := Some dist |}.

Fixpoint format_rows (results : query_result) (rows : list nat)
  : result (list Hit.t) :=
  match rows with
  | [] => Ok []
  | i :: rows' =>
      h ← format_row results i;
      hs ← format_rows results rows';
      Ok (h :: hs)
  end.

(** The [# Format results] part of [VectorStore.search]. *)
Definition format_results (results : option query_result) : result (list Hit.t) :=
  match results with
  | Some r => format_rows r (seq 0 (length (ids r)))
  | None => Ok []
  end.

End VectorStore.

Module Retriever.

Record t : Type := mk { top_k : Z }.

(** [Retriever.__init__] *)
Definition __init__ (settings : Settings.t) (top_k : option Z) : t :=
  {| top_k := int_or top_k (Settings.top_k_results settings) |}.

(** The body of the [for result in results] loop of [Retriever.retrieve].
    [result.get("metadata", {})] is the empty [dict] only when the key is
    missing; when the value is [None], the first [metadata.get] raises
    [AttributeError]. *)
Definition to_chunk (hit : Hit.t) : result RetrievedChunk.t :=
  match get_or (Hit.metadata hit) (Some Metadata.empty) with
  | None => Raise AttributeError
  | Some metadata =>
      Ok {| RetrievedChunk.document_name :=
              get_or (Metadata.document_name metadata) "unknown";
            RetrievedChunk.page_number := get_or (Metadata.page_number metadata) 0;
            RetrievedChunk.chunk_id := get_or (Hit.chunk_id hit) "unknown";
            RetrievedChunk.text := get_or (Hit.text hit) "";
            RetrievedChunk.score := get_or (Hit.distance hit) (Some 1%float);
            RetrievedChunk.is_section :=
              get_or (Metadata.is_section metadata) false |}
  end.

(** The [# Convert to RetrievedChunk objects] loop, [retrieved] being the
    list built so far. *)
Fixpoint convert (results : list Hit.t) (retrieved : list RetrievedChunk.t)
  : result (list RetrievedChunk.t) :=
  match results with
  | [] => Ok retrieved
  | hit :: results' =>
      chunk ← to_chunk hit;
      convert results' (retrieved ++ [chunk])%list
  end.

(** [Retriever.retrieve]; [search] is [self.vector_store.search]. *)
Definition retrieve
    (search : string -> Z -> option string -> result (list Hit.t))
    (self : t) (query : string) (top_k : option Z)
    (filter_document : option string) : result (list RetrievedChunk.t) :=
  let k := int_or top_k (Retriever.top_k self) in
  results ← search query k filter_document;
  convert results [].

End Retriever.

(** ** The answer validator, [rag/answer_generator.py] *)

Module SourceReference.
(** [document_name] and [page] hold whatever the payload carried. *)
Record t : Type := mk {
  document_name : pyval;
  page : pyval;
  chunk_id : string;
  is_section : bool
}.
End SourceReference.

Module AnswerResponse.
Record t : Type := mk {
  answer : pyval;
  sources : list SourceReference.t
}.
End AnswerResponse.

Module AnswerGenerator.

Definition NO_INFO_RESPONSE : string :=
  "The provided documents do not contain this information.".

Definition newline : string := String "010"%char EmptyString.
Definition dquote : string := String "034"%char EmptyString.

(** The arguments of [client.chat.completions.create] that vary. *)
Record request : Type := mk_request {
  req_model : string;
  req_system : string;
  req_user : string
}.

(** The generation service: the text of the first choice, or the error
    the call raised. *)
Definition Groq : Type := request -> result string.

Record t : Type := mk { client : option Groq; model : string }.

(** [AnswerGenerator.__init__]; [connect] is the constructor [Groq]. *)
Definition __init__ (settings : Settings.t) (connect : string -> Groq) : t :=
  let key := Settings.groq_api_key settings in
  {| client :=
       if String.eqb key "" || String.eqb key "your_groq_api_key_here"
       then None else Some (connect key);
     model := Settings.llm_model settings |}.

(** The response of the [# Handle empty context] and of the
    [except json.JSONDecodeError] branches. *)
Definition refusal : AnswerResponse.t :=
  {| AnswerResponse.answer := PStr NO_INFO_RESPONSE;
     AnswerResponse.sources := [] |}.

(** [AnswerGenerator._format_context] *)
Definition _format_context (chunks : list RetrievedChunk.t) : string :=
  String.concat newline
    (imap
       (fun i chunk =>
          "--- Retrieved Chunk " +:+ PyStr.of_int (Z.of_nat i + 1) +:+ " ---"
            +:+ newline
            +:+ "document_name: " +:+ RetrievedChunk.document_name chunk +:+ newline
            +:+ "page_number: " +:+ PyStr.of_int (RetrievedChunk.page_number chunk)
            +:+ newline
            +:+ "chunk_id: " +:+ RetrievedChunk.chunk_id chunk +:+ newline
            +:+ "text: " +:+ RetrievedChunk.text chunk +:+ newline)
       chunks).

(** [AnswerGenerator._build_user_message] *)
Definition _build_user_message (question context : string) : string :=
  "### User Question" +:+ newline +:+ question +:+ newline +:+ newline
    +:+ "### Retrieved Document Chunks" +:+ newline +:+ context +:+ newline
    +:+ newline +:+ "### Instructions" +:+ newline
    +:+ "Based ONLY on the retrieved document chunks above, answer the user's question."
    +:+ newline
    +:+ "Return your response as a JSON object with " +:+ dquote +:+ "answer"
    +:+ dquote +:+ " and " +:+ dquote +:+ "sources" +:+ dquote +:+ " fields."
    +:+ newline
    +:+ "If the answer is not in the chunks, respond with the no-information message.".

(** [re.search(marker + r'\s*(.*?)\s*```', text, re.DOTALL)] and its
    [group(1)], for a [marker] without special characters. An occurrence
    of [marker] that is followed by a closing fence is followed by one
    after any later occurrence too, so the match, if there is one, starts
    at the first occurrence. The greedy [\s*] takes all the whitespace
    after it; the lazy group then stops at the first closing fence, and
    the [\s*] before the fence takes the whitespace before it. *)
Definition search_fence (marker text : string) : option string :=
  match PyStr.find_go marker text 0 with
  | None => None
  | Some i =>
      let after :=
        PyStr.slice_from text (Z.of_nat i + PyStr.len marker) in
      let body := PyStr.lstrip after in
      match PyStr.find_go "```" body 0 with
      | None => None
      | Some q => Some (PyStr.rstrip (String.substring 0 q body))
      end
  end.

(** The [# Remove markdown code blocks if present] part. *)
Definition extract_json_text (response_text : string) : string :=
  if PyStr.contains "```json" response_text then
    match search_fence "```json" response_text with
    | Some group1 => group1
    | None => response_text
    end
  else if PyStr.contains "```" response_text then
    match search_fence "```" response_text with
    | Some group1 => group1
    | None => response_text
    end
  else response_text.

(** [{chunk.chunk_id: chunk.is_section for chunk in retrieved_chunks}]:
    a later chunk with the same id replaces an earlier one. *)
Definition chunk_section_map (retrieved_chunks : list RetrievedChunk.t)
  : gmap string bool :=
  fold_left
    (fun m chunk =>
       <[RetrievedChunk.chunk_id chunk := RetrievedChunk.is_section chunk]> m)
    retrieved_chunks ∅.

(** The body of [for source in raw_sources]: [Some] reference to append,
    or [None] when the source is filtered out. *)
Definition validate_source (section_map : gmap string bool)
    (valid_chunk_ids : gset string) (source : pyval)
  : result (option SourceReference.t) :=
  chunk_id ← Py.get source "chunk_id" (PStr "");
  found ← Py.member chunk_id valid_chunk_ids;
  match found with
  | Some id =>
      document_name ← Py.get source "document_name" (PStr "unknown");
      page ← Py.get source "page" (PInt 0);
      Ok (Some {| SourceReference.document_name := document_name;
                  SourceReference.page := page;
                  SourceReference.chunk_id := id;
                  SourceReference.is_section :=
                    match section_map !! id with
                    | Some b => b
                    | None => false
                    end |})
  | None => Ok None
  end.

Section WithServices.
(** [json.loads]; [None] is [json.JSONDecodeError]. *)
Variable json_loads : string -> option pyval.
Variable RAG_SYSTEM_PROMPT : string.

(** [AnswerGenerator._parse_response] *)
Definition _parse_response (response_text : string)
    (retrieved_chunks : list RetrievedChunk.t) : result AnswerResponse.t :=
  let json_text := extract_json_text response_text in
  match json_loads (PyStr.strip json_text) with
  | None => Ok refusal
  | Some parsed =>
      answer ← Py.get parsed "answer" (PStr NO_INFO_RESPONSE);
      raw_sources ← Py.get parsed "sources" (PList []);
      let section_map := chunk_section_map retrieved_chunks in
      let valid_chunk_ids : gset string := dom section_map in
      items ← Py.iter raw_sources;
      sources ← mapM_filter (validate_source section_map valid_chunk_ids) items;
      Ok {| AnswerResponse.answer := answer;
            AnswerResponse.sources := sources |}
  end.

(** [AnswerGenerator.generate]: the requests sent to the generation
    service, and the response or the exception. *)
Definition generate (self : t) (question : string)
    (retrieved_chunks : list RetrievedChunk.t)
  : list request * result AnswerResponse.t :=
  match client self with
  | None => ([], Raise RuntimeError)
  | Some complete =>
      match retrieved_chunks with
      | [] => ([], Ok refusal)
      | _ :: _ =>
          let context := _format_context retrieved_chunks in
          let user_message := _build_user_message question context in
          let req := {| req_model := model self;
                        req_system := RAG_SYSTEM_PROMPT;
                        req_user := user_message |} in
          ([req],
           content ← complete req;
           _parse_response (PyStr.strip content) retrieved_chunks)
      end
  end.
End WithServices.

End AnswerGenerator.

(** ** A JSON decoder for running the validator

    [Json.loads] decodes the documents made of objects, arrays, strings
    without [\u] escapes, integers, [true], [false] and [null], as
    [json.loads] does, a later duplicate key replacing an earlier one. It
    stands for [json.loads] in the examples, all of which stay inside this
    fragment; the theorems hold for every decoder. *)

Module Json.

Definition is_ws (c : ascii) : bool :=
  let n := N_of_ascii c in ((n =? 32) || (n =? 9) || (n =? 10) || (n =? 13))%N.

Fixpoint skip_ws (s : string) : string :=
  match s with
  | String c s' => if is_ws c then skip_ws s' else s
  | EmptyString => s
  end.

Definition digit (c : ascii) : option Z :=
  let n := Z.of_N (N_of_ascii c) in
  if (48 <=? n) && (n <=? 57) then Some (n - 48) else None.

Fixpoint digits (s : string) (acc : Z) : Z * string :=
  match s with
  | String c s' =>
      match digit c with
      | Some d => digits s' (10 * acc + d)
      | None => (acc, s)
      end
  | EmptyString => (acc, s)
  end.

(** [0] or a run of digits that does not start with [0]. *)
Definition natural (s : string) : option (Z * string) :=
  match s with
  | String c s' =>
      match digit c with
      | Some 0 => Some (0, s')
      | Some d => Some (digits s' d)
      | None => None
      end
  | EmptyString => None
  end.

Definition number (s : string) : option (Z * string) :=
  match s with
  | String "-"%char s' =>
      match natural s' with
      | Some (n, rest) => Some (- n, rest)
      | None => None
      end
  | _ => natural s
  end.

Definition escape (c : ascii) : option ascii :=
  let n := N_of_ascii c in
  if (n =? 34)%N then Some "034"%char
  else if (n =? 92)%N then Some "092"%char
  else if (n =? 47)%N then Some "/"%char
  else if (n =? 98)%N then Some "008"%char
  else if (n =? 102)%N then Some "012"%char
  else if (n =? 110)%N then Some "010"%char
  else if (n =? 114)%N then Some "013"%char
  else if (n =? 116)%N then Some "009"%char
  else None.

(** The characters of a string after its opening quote. *)
Fixpoint chars (s : string) : option (string * string) :=
  match s with
  | EmptyString => None
  | String c s' =>
      let n := N_of_ascii c in
      if (n =? 34)%N then Some (EmptyString, s')
      else if (n <? 32)%N then None
      else if (n =? 92)%N then
        match s' with
        | String e s'' =>
            match escape e, chars s'' with
            | Some c', Some (str, rest) => Some (String c' str, rest)
            | _, _ => None
            end
        | EmptyString => None
        end
      else
        match chars s' with
        | Some (str, rest) => Some (String c str, rest)
        | None => None
        end
  end.

Definition starts (c : ascii) (s : string) : option string :=
  match s with
  | String d s' => if Ascii.eqb c d then Some s' else None
  | EmptyString => None
  end.

Definition literal (word : string) (v : pyval) (s : string)
  : option (pyval * string) :=
  if String.prefix word s
  then Some (v, String.substring (String.length word)
                                 (String.length s - String.length word) s)
  else None.

(** A value at the head of [s], and what follows it. *)
Fixpoint value (fuel : nat) (s : string) : option (pyval * string) :=
  match fuel with
  | O => None
  | S fuel' =>
      match s with
      | EmptyString => None
      | String c s' =>
          let n := N_of_ascii c in
          if (n =? 34)%N then
            match chars s' with
            | Some (str, rest) => Some (PStr str, rest)
            | None => None
            end
          else if (n =? 91)%N then
            match starts "]" (skip_ws s') with
            | Some rest => Some (PList [], rest)
            | None =>
                match elements fuel' (skip_ws s') with
                | Some (xs, rest) => Some (PList xs, rest)
                | None => None
                end
            end
          else if (n =? 123)%N then
            match starts "}" (skip_ws s') with
            | Some rest => Some (PDict ∅, rest)
            | None =>
                match members fuel' (skip_ws s') ∅ with
                | Some (items, rest) => Some (PDict items, rest)
                | None => None
                end
            end
          else if (n =? 110)%N then literal "null" PNone s
          else if (n =? 116)%N then literal "true" (PBool true) s
          else if (n =? 102)%N then literal "false" (PBool false) s
          else
            match number s with
            | Some (z, rest) => Some (PInt z, rest)
            | None => None
            end
      end
  end
(** [value (, value)* ]] *)
with elements (fuel : nat) (s : string) : option (list pyval * string) :=
  match fuel with
  | O => None
  | S fuel' =>
      match value fuel' s with
      | None => None
      | Some (v, rest) =>
          match skip_ws rest with
          | String c rest' =>
              if Ascii.eqb c "]" then Some ([v], rest')
              else if Ascii.eqb c "," then
                match elements fuel' (skip_ws rest') with
                | Some (vs, rest'') => Some (v :: vs, rest'')
                | None => None
                end
              else None
          | EmptyString => None
          end
      end
  end
(** [string : value (, string : value)* }] added to [acc]. *)
with members (fuel : nat) (s : string) (acc : gmap string pyval)
  : option (gmap string pyval * string) :=
  match fuel with
  | O => None
  | S fuel' =>
      match starts "034" s with
      | None => None
      | Some s1 =>
          match chars s1 with
          | None => None
          | Some (key, s2) =>
              match starts ":" (skip_ws s2) with
              | None => None
              | Some s3 =>
                  match value fuel' (skip_ws s3) with
                  | None => None
                  | Some (v, rest) =>
                      match skip_ws rest with
                      | String c rest' =>
                          if Ascii.eqb c "}" then Some (<[key := v]> acc, rest')
                          else if Ascii.eqb c "," then
                            members fuel' (skip_ws rest') (<[key := v]> acc)
                          else None
                      | EmptyString => None
                      end
                  end
              end
          end
      end
  end.

Definition loads (s : string) : option pyval :=
  match value (S (String.length s)) (skip_ws s) with
  | Some (v, rest) =>
      match skip_ws rest with
      | EmptyString => Some v
      | String _ _ => None
      end
  | None => None
  end.

(** A literal written with ['] for the double quote. *)
Fixpoint q (s : string) : string :=
  match s with
  | EmptyString => EmptyString
  | String c s' => String (if Ascii.eqb c "'" then "034"%char else c) (q s')
  end.

End Json.

(** * Properties *)

(** ** The answer validator *)


(** The chunk ids retrieved this turn. *)
Definition retrieved_ids (chunks : list RetrievedChunk.t) : list string :=
  map RetrievedChunk.chunk_id chunks.

(** The retrieved chunk that owns [id] in the lookup table: the last one
    carrying it. *)
Definition owner (id : string) (chunks : list RetrievedChunk.t)
  : option RetrievedChunk.t :=
  last (filter (fun c => RetrievedChunk.chunk_id c = id) chunks).

(** The text handed to the decoder. *)
Definition payload_text (response_text : string) : string :=
  PyStr.strip (AnswerGenerator.extract_json_text response_text).

(** The source objects of a decoded payload. *)
Definition payload_sources (parsed : pyval) : list pyval :=
  match Py.get parsed "sources" (PList []) with
  | Ok raw => match Py.iter raw with Ok items => items | Raise _ => [] end
  | Raise _ => []
  end.

(** The chunk id a source object cites, when it is a [str]. *)
Definition cited_id (source : pyval) : option string :=
  match source with
  | PDict fields =>
      match fields !! "chunk_id" with
      | Some (PStr id) => Some id
      | Some _ => None
      | None => Some ""
      end
  | _ => None
  end.

(** What the validator reports for a source object. *)
Definition reference_of (chunks : list RetrievedChunk.t) (source : pyval)
  : option SourceReference.t :=
  match source, cited_id source with
  | PDict fields, Some id =>
      match owner id chunks with
      | Some c =>
          Some {| SourceReference.document_name :=
                    default (PStr "unknown") (fields !! "document_name");
                  SourceReference.page := default (PInt 0) (fields !! "page");
                  SourceReference.chunk_id := id;
                  SourceReference.is_section := RetrievedChunk.is_section c |}
      | None => None
      end
  | _, _ => None
  end.

Lemma section_map_fold_dom chunks (m : gmap string bool) id :
  id ∈ dom (fold_left
              (fun m chunk =>
                 <[RetrievedChunk.chunk_id chunk := RetrievedChunk.is_section chunk]> m)
              chunks m)
  <-> id ∈ dom m \/ id ∈ retrieved_ids chunks.
Proof.
  revert m. induction chunks as [|c chunks IH]; intros m; simpl.
  - unfold retrieved_ids; simpl. rewrite elem_of_nil. tauto.
  - unfold retrieved_ids in *; simpl.
    rewrite IH, dom_insert, elem_of_union, elem_of_singleton, elem_of_cons.
    tauto.
Qed.

Lemma section_map_dom chunks id :
  id ∈ dom (AnswerGenerator.chunk_section_map chunks) <-> id ∈ retrieved_ids chunks.
Proof.
  unfold AnswerGenerator.chunk_section_map.
  rewrite section_map_fold_dom, dom_empty, elem_of_empty. tauto.
Qed.

Lemma owner_cons c chunks id :
  owner id (c :: chunks) =
    match owner id chunks with
    | Some c' => Some c'
    | None => if decide (RetrievedChunk.chunk_id c = id) then Some c else None
    end.
Proof.
  unfold owner. rewrite filter_cons.
  destruct (decide (RetrievedChunk.chunk_id c = id)) as [Heq | Hne];
    [|destruct (last _); reflexivity].
  destruct (filter _ chunks) as [|c' l] eqn:Hf; [reflexivity|].
  rewrite last_cons. destruct (last (c' :: l)) eqn:Hl; [reflexivity|].
  apply last_None in Hl. discriminate.
Qed.

Lemma section_map_fold_lookup chunks (m : gmap string bool) id :
  fold_left
    (fun m chunk =>
       <[RetrievedChunk.chunk_id chunk := RetrievedChunk.is_section chunk]> m)
    chunks m !! id
  = match owner id chunks with
    | Some c => Some (RetrievedChunk.is_section c)
    | None => m !! id
    end.
Proof.
  revert m. induction chunks as [|c chunks IH]; intros m; simpl; [reflexivity|].
  rewrite IH, owner_cons. destruct (owner id chunks); [reflexivity|].
  destruct (decide (RetrievedChunk.chunk_id c = id)) as [<- | Hne].
  - apply lookup_insert_eq.
  - apply lookup_insert_ne, Hne.
Qed.

Lemma section_map_lookup chunks id :
  AnswerGenerator.chunk_section_map chunks !! id
  = RetrievedChunk.is_section <$> owner id chunks.
Proof.
  unfold AnswerGenerator.chunk_section_map.
  rewrite section_map_fold_lookup. destruct (owner id chunks); reflexivity.
Qed.

Lemma owner_Some id chunks c :
  owner id chunks = Some c -> c ∈ chunks /\ RetrievedChunk.chunk_id c = id.
Proof.
  unfold owner. intros H. apply last_Some_elem_of in H.
  apply list_elem_of_filter in H. tauto.
Qed.

Lemma owner_is_Some id chunks :
  id ∈ retrieved_ids chunks <-> is_Some (owner id chunks).
Proof.
  rewrite <- section_map_dom, elem_of_dom, section_map_lookup.
  apply fmap_is_Some.
Qed.

Lemma validate_source_reference chunks source o :
  AnswerGenerator.validate_source (AnswerGenerator.chunk_section_map chunks)
    (dom (AnswerGenerator.chunk_section_map chunks)) source = Ok o ->
  o = reference_of chunks source.
Proof.
  unfold AnswerGenerator.validate_source, reference_of, cited_id.
  destruct source as [| | | | |xs|fields]; simpl; try discriminate.
  destruct (fields !! "chunk_id") as [v|] eqn:Hid; simpl.
  - destruct v as [| | | |id| |]; simpl; try discriminate;
      try (intros [= <-]; reflexivity).
    destruct (decide (id ∈ dom (AnswerGenerator.chunk_section_map chunks)))
      as [Hin | Hout]; simpl.
    + rewrite section_map_lookup. apply section_map_dom, owner_is_Some in Hin.
      destruct Hin as [c ->]. simpl. intros [= <-]. reflexivity.
    + rewrite section_map_dom, owner_is_Some, <- eq_None_not_Some in Hout.
      rewrite Hout. intros [= <-]. reflexivity.
  - destruct (decide ("" ∈ dom (AnswerGenerator.chunk_section_map chunks)))
      as [Hin | Hout]; simpl.
    + rewrite section_map_lookup. apply section_map_dom, owner_is_Some in Hin.
      destruct Hin as [c ->]. simpl. intros [= <-]. reflexivity.
    + rewrite section_map_dom, owner_is_Some, <- eq_None_not_Some in Hout.
      rewrite Hout. intros [= <-]. reflexivity.
Qed.

Lemma mapM_filter_Ok {A B : Type} (f : A -> result (option B)) (g : A -> option B)
    xs ys :
  (forall x o, f x = Ok o -> o = g x) ->
  mapM_filter f xs = Ok ys -> ys = omap g xs.
Proof.
  intros Hfg. revert ys. induction xs as [|x xs IH]; simpl; intros ys.
  - intros [= <-]. reflexivity.
  - destruct (f x) as [o|e] eqn:Hfx; [|discriminate].
    destruct (mapM_filter f xs) as [ys'|e]; [|discriminate].
    intros [= <-]. rewrite <- (Hfg x o Hfx), (IH ys' eq_refl).
    destruct o; reflexivity.
Qed.

(** A decoded payload: the answer is its [answer] field, the sources are
    its source objects rebuilt one by one. *)
Lemma parse_decoded json_loads text chunks parsed r :
  json_loads (payload_text text) = Some parsed ->
  AnswerGenerator._parse_response json_loads text chunks = Ok r ->
  Py.get parsed "answer" (PStr AnswerGenerator.NO_INFO_RESPONSE)
    = Ok (AnswerResponse.answer r)
  /\ AnswerResponse.sources r = omap (reference_of chunks) (payload_sources parsed).
Proof.
  unfold AnswerGenerator._parse_response, payload_text, payload_sources.
  intros ->. simpl.
  destruct (Py.get parsed "answer" _) as [answer|e]; simpl; [|discriminate].
  destruct (Py.get parsed "sources" _) as [raw|e]; simpl; [|discriminate].
  destruct (Py.iter raw) as [items|e]; simpl; [|discriminate].
  destruct (mapM_filter _ items) as [sources|e] eqn:Hm; simpl; [|discriminate].
  intros [= <-]. simpl. split; [reflexivity|].
  eapply mapM_filter_Ok; [|exact Hm].
  intros x o. apply validate_source_reference.
Qed.

(** A payload that does not decode: the refusal. *)
Lemma parse_decode_error json_loads text chunks :
  json_loads (payload_text text) = None ->
  AnswerGenerator._parse_response json_loads text chunks
  = Ok AnswerGenerator.refusal.
Proof.
  unfold AnswerGenerator._parse_response, payload_text. intros ->. reflexivity.
Qed.

Lemma reference_of_Some chunks source s :
  reference_of chunks source = Some s ->
  exists fields c,
    source = PDict fields
    /\ cited_id source = Some (SourceReference.chunk_id s)
    /\ owner (SourceReference.chunk_id s) chunks = Some c
    /\ SourceReference.document_name s
       = default (PStr "unknown") (fields !! "document_name")
    /\ SourceReference.page s = default (PInt 0) (fields !! "page")
    /\ SourceReference.is_section s = RetrievedChunk.is_section c.
Proof.
  unfold reference_of. destruct source as [| | | | |xs|fields]; try discriminate.
  destruct (cited_id (PDict fields)) as [id|] eqn:Hc; [|discriminate].
  destruct (owner id chunks) as [c|] eqn:Ho; [|discriminate].
  intros [= <-]. simpl. exists fields, c. auto 10.
Qed.

Lemma reference_of_None chunks source :
  reference_of chunks source = None ->
  forall id, cited_id source = Some id -> id ∉ retrieved_ids chunks.
Proof.
  intros H id Hc.
  destruct source as [| | | | |xs|fields]; try discriminate Hc.
  unfold reference_of in H. rewrite Hc in H.
  rewrite owner_is_Some. destruct (owner id chunks); [discriminate|].
  intros [c Hc']. discriminate.
Qed.

Lemma reference_ids chunks items :
  map SourceReference.chunk_id (omap (reference_of chunks) items)
  = filter (fun id => id ∈ retrieved_ids chunks) (omap cited_id items).
Proof.
  induction items as [|source items IH]; [reflexivity|]. simpl.
  destruct (reference_of chunks source) as [s|] eqn:Hr; simpl.
  - destruct (reference_of_Some _ _ _ Hr) as (fields & c & _ & -> & Ho & _).
    rewrite filter_cons_True by (apply owner_is_Some; eauto).
    f_equal. exact IH.
  - destruct (cited_id source) as [id|] eqn:Hc; [|exact IH].
    rewrite filter_cons_False by (eapply reference_of_None; eauto).
    exact IH.
Qed.

Lemma reference_of_is_Some chunks source :
  is_Some (reference_of chunks source)
  <-> exists id, cited_id source = Some id /\ id ∈ retrieved_ids chunks.
Proof.
  split.
  - intros [s Hs]. destruct (reference_of_Some _ _ _ Hs) as (? & c & _ & Hc & Ho & _).
    exists (SourceReference.chunk_id s). split; [exact Hc|].
    apply owner_is_Some. eauto.
  - intros (id & Hc & Hin). apply owner_is_Some in Hin as [c Hc'].
    destruct source as [| | | | |xs|fields]; try discriminate Hc.
    unfold reference_of. rewrite Hc, Hc'. eauto.
Qed.

Lemma omap_not_nil {A B : Type} (f : A -> option B) (xs : list A) :
  omap f xs <> [] <-> exists x, x ∈ xs /\ is_Some (f x).
Proof.
  induction xs as [|x xs IH]; simpl.
  - split; [congruence|]. intros (x & Hx & _). inversion Hx.
  - destruct (f x) as [y|] eqn:Hfx.
    + split; [|discriminate]. intros _. exists x. rewrite Hfx.
      split; [left | eauto].
    + rewrite IH. split; intros (x' & Hin & Hs).
      * exists x'. split; [right; exact Hin | exact Hs].
      * apply elem_of_cons in Hin as [-> | Hin].
        -- rewrite Hfx in Hs. destruct Hs; discriminate.
        -- eauto.
Qed.

(** The source objects of the payload of a completion, in order. *)
Definition completion_sources (json_loads : string -> option pyval)
    (response_text : string) : list pyval :=
  match json_loads (payload_text response_text) with
  | Some parsed => payload_sources parsed
  | None => []
  end.

(** The ids they cite. *)
Definition cited_ids (json_loads : string -> option pyval)
    (response_text : string) : list string :=
  omap cited_id (completion_sources json_loads response_text).

(** What [generate] does once the service has answered [content]. *)
Lemma generate_completion json_loads prompt self complete question c chunks :
  AnswerGenerator.client self = Some complete ->
  exists req,
    AnswerGenerator.generate json_loads prompt self question (c :: chunks)
    = ([req],
       match complete req with
       | Ok content =>
           AnswerGenerator._parse_response json_loads (PyStr.strip content)
             (c :: chunks)
       | Raise e => Raise e
       end).
Proof.
  intros Hc. unfold AnswerGenerator.generate. rewrite Hc.
  eexists. reflexivity.
Qed.

(** A retrieved chunk and completions to run the validator on. *)
Definition paris_chunk : RetrievedChunk.t :=
  {| RetrievedChunk.document_name := "a.txt";
     RetrievedChunk.page_number := 1;
     RetrievedChunk.chunk_id := "a.txt_p1_c0_7aaf30b1";
     RetrievedChunk.text := "Paris is the capital of France.";
     RetrievedChunk.score := Some 0.25%float;
     RetrievedChunk.is_section := true |}.

Example paris_id_is_generated :
  TextChunker._generate_chunk_id "a.txt" 1 0 = RetrievedChunk.chunk_id paris_chunk.
Proof. vm_compute. reflexivity. Qed.

(** A generator whose service always answers [content]. *)
Definition canned (content : string) : AnswerGenerator.t :=
  {| AnswerGenerator.client := Some (fun _ => Ok content);
     AnswerGenerator.model := "llama-3.1-70b-versatile" |}.

Definition system_prompt : string := "You are a RAG answering engine.".

(** C1: every source reference in a response returned by the validator has
    a chunk id among the ids of the retrieved chunks, and the reported ids
    are exactly the cited ids that were retrieved, in the order cited: a
    source whose chunk id was not retrieved is dropped. *)
Theorem validated_sources_are_retrieved
    (json_loads : string -> option pyval) (text : string)
    (chunks : list RetrievedChunk.t) (r : AnswerResponse.t) :
  AnswerGenerator._parse_response json_loads text chunks = Ok r ->
  Forall (fun s => SourceReference.chunk_id s ∈ retrieved_ids chunks)
         (AnswerResponse.sources r)
  /\ map SourceReference.chunk_id (AnswerResponse.sources r)
     = filter (fun id => id ∈ retrieved_ids chunks) (cited_ids json_loads text).
Proof.
  intros Hr. unfold cited_ids, completion_sources.
  destruct (json_loads (payload_text text)) as [parsed|] eqn:Hd.
  - destruct (parse_decoded json_loads text chunks parsed r Hd Hr) as [_ Hs].
    rewrite Hs.
    split; [|apply reference_ids].
    apply Forall_forall. intros s Hin. apply list_elem_of_omap in Hin.
    destruct Hin as (source & _ & Hs').
    destruct (reference_of_Some _ _ _ Hs') as (? & c & _ & _ & Ho & _).
    apply owner_is_Some. eauto.
  - rewrite (parse_decode_error json_loads text chunks Hd) in Hr.
    injection Hr as <-.
    split; [constructor | reflexivity].
Qed.

(** A completion that cites the retrieved chunk and an id that was never
    retrieved. *)
Definition mixed_completion : string :=
  Json.q "{'answer':'Paris.','sources':[{'document_name':'a.txt','page':1,'chunk_id':'a.txt_p1_c0_7aaf30b1'},{'chunk_id':'bogus_id'}]}".

Definition paris_reference : SourceReference.t :=
  {| SourceReference.document_name := PStr "a.txt";
     SourceReference.page := PInt 1;
     SourceReference.chunk_id := "a.txt_p1_c0_7aaf30b1";
     SourceReference.is_section := true |}.

Definition paris_response : AnswerResponse.t :=
  {| AnswerResponse.answer := PStr "Paris.";
     AnswerResponse.sources := [paris_reference] |}.

Lemma validated_sources_are_retrieved_witness :
  Forall (fun s => SourceReference.chunk_id s ∈ retrieved_ids [paris_chunk])
         (AnswerResponse.sources paris_response)
  /\ map SourceReference.chunk_id (AnswerResponse.sources paris_response)
     = filter (fun id => id ∈ retrieved_ids [paris_chunk])
              (cited_ids Json.loads mixed_completion).
Proof.
  apply (validated_sources_are_retrieved Json.loads mixed_completion
           [paris_chunk] paris_response).
  vm_compute. reflexivity.
Defined.

(** The two scenarios of the specification. *)
Example scenario_valid_citation :
  AnswerGenerator._parse_response Json.loads
    (Json.q "{'answer':'Paris.','sources':[{'document_name':'a.txt','page':1,'chunk_id':'a.txt_p1_c0_7aaf30b1'}]}")
    [paris_chunk]
  = Ok paris_response.
Proof. vm_compute. reflexivity. Qed.

Example scenario_bogus_citation :
  AnswerGenerator._parse_response Json.loads
    (Json.q "{'answer':'Paris.','sources':[{'chunk_id':'bogus_id'}]}")
    [paris_chunk]
  = Ok {| AnswerResponse.answer := PStr "Paris."; AnswerResponse.sources := [] |}.
Proof. vm_compute. reflexivity. Qed.

Example fenced_completion :
  AnswerGenerator.extract_json_text
    ("Here it is: ```json" +:+ AnswerGenerator.newline +:+ "{ }"
       +:+ AnswerGenerator.newline +:+ "``` done")
  = "{ }".
Proof. vm_compute. reflexivity. Qed.

(** The reference the specification describes for a cited chunk [c]: the
    chunk's own [document_name] and [is_section], the payload's [page] when
    it has one and the chunk's [page_number] otherwise. *)
Definition specified_reference (c : RetrievedChunk.t) (fields : gmap string pyval)
  : SourceReference.t :=
  {| SourceReference.document_name := PStr (RetrievedChunk.document_name c);
     SourceReference.page :=
       default (PInt (RetrievedChunk.page_number c)) (fields !! "page");
     SourceReference.chunk_id := RetrievedChunk.chunk_id c;
     SourceReference.is_section := RetrievedChunk.is_section c |}.

(** A completion that cites the retrieved chunk under another document name
    and without a page. *)
Definition echoed_fields : gmap string pyval :=
  <["document_name" := PStr "evil.txt"]>
    (<["chunk_id" := PStr "a.txt_p1_c0_7aaf30b1"]> ∅).

Definition echoed_completion : string :=
  Json.q "{'answer':'Paris.','sources':[{'chunk_id':'a.txt_p1_c0_7aaf30b1','document_name':'evil.txt'}]}".

Definition echoed_reference : SourceReference.t :=
  {| SourceReference.document_name := PStr "evil.txt";
     SourceReference.page := PInt 0;
     SourceReference.chunk_id := "a.txt_p1_c0_7aaf30b1";
     SourceReference.is_section := true |}.

(** C2 fails as stated: the reference reported for a retrieved chunk of
    ["a.txt"], page 1, carries the document name ["evil.txt"] that the
    completion echoed and the page [0]. *)
Lemma reconstruction_counterexample :
  Json.loads echoed_completion
  = Some (PDict (<["sources" := PList [PDict echoed_fields]]>
                   (<["answer" := PStr "Paris."]> ∅)))
  /\ AnswerGenerator._parse_response Json.loads echoed_completion [paris_chunk]
     = Ok {| AnswerResponse.answer := PStr "Paris.";
             AnswerResponse.sources := [echoed_reference] |}
  /\ SourceReference.document_name echoed_reference
     <> SourceReference.document_name (specified_reference paris_chunk echoed_fields)
  /\ SourceReference.page echoed_reference
     <> SourceReference.page (specified_reference paris_chunk echoed_fields).
Proof.
  split; [vm_compute; reflexivity|].
  split; [vm_compute; reflexivity|].
  split; vm_compute; discriminate.
Qed.

(** C2, amended: the reported references are the source objects of the
    payload that cite the id of a retrieved chunk, rebuilt one by one and in
    order. The [document_name] of a reference is the payload's field,
    ["unknown"] when the payload has none; its [page] is the payload's
    field, [0] when the payload has none; its [is_section] is that of the
    retrieved chunk owning the id (the last one carrying it). *)
Theorem reported_reference_fields
    (json_loads : string -> option pyval) (text : string)
    (chunks : list RetrievedChunk.t) (r : AnswerResponse.t) :
  AnswerGenerator._parse_response json_loads text chunks = Ok r ->
  AnswerResponse.sources r
  = omap (reference_of chunks) (completion_sources json_loads text)
  /\ (forall source,
        is_Some (reference_of chunks source)
        <-> exists id, cited_id source = Some id /\ id ∈ retrieved_ids chunks)
  /\ Forall
       (fun s =>
          exists fields c,
            PDict fields ∈ completion_sources json_loads text
            /\ owner (SourceReference.chunk_id s) chunks = Some c
            /\ c ∈ chunks
            /\ RetrievedChunk.chunk_id c = SourceReference.chunk_id s
            /\ cited_id (PDict fields) = Some (SourceReference.chunk_id s)
            /\ SourceReference.document_name s
               = default (PStr "unknown") (fields !! "document_name")
            /\ SourceReference.page s = default (PInt 0) (fields !! "page")
            /\ SourceReference.is_section s = RetrievedChunk.is_section c)
       (AnswerResponse.sources r).
Proof.
  intros Hr.
  assert (AnswerResponse.sources r
          = omap (reference_of chunks) (completion_sources json_loads text)) as Hs.
  { unfold completion_sources.
    destruct (json_loads (payload_text text)) as [parsed|] eqn:Hd.
    - apply (parse_decoded json_loads text chunks parsed r Hd Hr).
    - rewrite (parse_decode_error json_loads text chunks Hd) in Hr.
      injection Hr as <-. reflexivity. }
  split; [exact Hs|]. split; [intros source; apply reference_of_is_Some|].
  rewrite Hs. apply Forall_forall. intros s Hin.
  apply list_elem_of_omap in Hin. destruct Hin as (source & Hsrc & Hs').
  destruct (reference_of_Some _ _ _ Hs')
    as (fields & c & -> & Hc & Ho & Hn & Hp & Hsec).
  exists fields, c. destruct (owner_Some _ _ _ Ho) as [Hin Hid].
  auto 10.
Qed.

Lemma reported_reference_fields_witness :
  [echoed_reference]
  = omap (reference_of [paris_chunk])
         (completion_sources Json.loads echoed_completion)
  /\ (forall source,
        is_Some (reference_of [paris_chunk] source)
        <-> exists id, cited_id source = Some id
                       /\ id ∈ retrieved_ids [paris_chunk])
  /\ Forall
       (fun s =>
          exists fields c,
            PDict fields ∈ completion_sources Json.loads echoed_completion
            /\ owner (SourceReference.chunk_id s) [paris_chunk] = Some c
            /\ c ∈ [paris_chunk]
            /\ RetrievedChunk.chunk_id c = SourceReference.chunk_id s
            /\ cited_id (PDict fields) = Some (SourceReference.chunk_id s)
            /\ SourceReference.document_name s
               = default (PStr "unknown") (fields !! "document_name")
            /\ SourceReference.page s = default (PInt 0) (fields !! "page")
            /\ SourceReference.is_section s = RetrievedChunk.is_section c)
       [echoed_reference].
Proof.
  apply (reported_reference_fields Json.loads echoed_completion [paris_chunk]
           {| AnswerResponse.answer := PStr "Paris.";
              AnswerResponse.sources := [echoed_reference] |}).
  vm_compute. reflexivity.
Defined.

(** A completion that pairs the refusal string with a citation of the
    retrieved chunk. *)
Definition refusal_with_source : string :=
  Json.q "{'answer':'The provided documents do not contain this information.','sources':[{'chunk_id':'a.txt_p1_c0_7aaf30b1'}]}".

(** C3 fails as stated: the answer operation returns the refusal string
    together with a source. *)
Lemma refusal_invariant_counterexample :
  exists calls r,
    AnswerGenerator.generate Json.loads system_prompt (canned refusal_with_source)
      "What is the capital of France?" [paris_chunk]
    = (calls, Ok r)
    /\ AnswerResponse.answer r = PStr AnswerGenerator.NO_INFO_RESPONSE
    /\ AnswerResponse.sources r <> [].
Proof.
  eexists _, _. split; [vm_compute; reflexivity|].
  split; [reflexivity | discriminate].
Qed.

(** C3, amended: a response of the answer operation pairs the refusal
    string with a source exactly when the service was called and its
    payload itself carries the refusal string as its answer (or no answer)
    together with a source object citing a retrieved chunk id; in every
    other case a refusal has no sources and a response with sources is not
    the refusal. *)
Theorem refusal_invariant_up_to_payload
    (json_loads : string -> option pyval) (prompt : string)
    (self : AnswerGenerator.t) (question : string)
    (chunks : list RetrievedChunk.t)
    (calls : list AnswerGenerator.request) (r : AnswerResponse.t) :
  AnswerGenerator.generate json_loads prompt self question chunks = (calls, Ok r) ->
  (AnswerResponse.answer r = PStr AnswerGenerator.NO_INFO_RESPONSE
   /\ AnswerResponse.sources r <> [])
  <-> exists complete req content parsed source id,
        AnswerGenerator.client self = Some complete
        /\ calls = [req]
        /\ complete req = Ok content
        /\ json_loads (payload_text (PyStr.strip content)) = Some parsed
        /\ Py.get parsed "answer" (PStr AnswerGenerator.NO_INFO_RESPONSE)
           = Ok (PStr AnswerGenerator.NO_INFO_RESPONSE)
        /\ source ∈ payload_sources parsed
        /\ cited_id source = Some id
        /\ id ∈ retrieved_ids chunks.
Proof.
  intros Hg. destruct (AnswerGenerator.client self) as [complete|] eqn:Hc.
  2: { unfold AnswerGenerator.generate in Hg. rewrite Hc in Hg. discriminate. }
  destruct chunks as [|c chunks].
  { unfold AnswerGenerator.generate in Hg. rewrite Hc in Hg.
    injection Hg as <- <-. split.
    - intros [_ H]. contradiction H. reflexivity.
    - intros (? & ? & ? & ? & ? & ? & _ & H & _). discriminate. }
  destruct (generate_completion json_loads prompt self complete question c chunks Hc)
    as [req Hreq].
  rewrite Hreq in Hg. injection Hg as <- Hr.
  destruct (complete req) as [content|e] eqn:Hcontent; [|discriminate].
  destruct (json_loads (payload_text (PyStr.strip content))) as [parsed|] eqn:Hd.
  - destruct (parse_decoded json_loads _ _ parsed r Hd Hr) as [Ha Hs].
    rewrite Hs, omap_not_nil. split.
    + intros [Hans (source & Hin & Hsome)].
      apply reference_of_is_Some in Hsome as (id & Hid & Hret).
      exists complete, req, content, parsed, source, id.
      rewrite Ha, Hans. auto 10.
    + intros (complete' & req' & content' & parsed' & source & id
               & [= <-] & [= <-] & Hcontent' & Hd' & Ha' & Hin & Hid & Hret).
      rewrite Hcontent in Hcontent'. injection Hcontent' as <-.
      rewrite Hd in Hd'. injection Hd' as <-.
      rewrite Ha in Ha'. injection Ha' as Hans.
      split; [exact Hans|]. exists source. split; [exact Hin|].
      apply reference_of_is_Some. eauto.
  - rewrite (parse_decode_error json_loads _ _ Hd) in Hr. injection Hr as <-.
    split.
    + intros [_ H]. contradiction H. reflexivity.
    + intros (complete' & req' & content' & parsed' & ? & ?
               & [= <-] & [= <-] & Hcontent' & Hd' & _).
      rewrite Hcontent in Hcontent'. injection Hcontent' as <-.
      rewrite Hd in Hd'. discriminate.
Qed.

Definition refused_with_source : AnswerResponse.t :=
  {| AnswerResponse.answer := PStr AnswerGenerator.NO_INFO_RESPONSE;
     AnswerResponse.sources :=
       [ {| SourceReference.document_name := PStr "unknown";
            SourceReference.page := PInt 0;
            SourceReference.chunk_id := "a.txt_p1_c0_7aaf30b1";
            SourceReference.is_section := true |} ] |}.

Lemma refusal_invariant_up_to_payload_witness :
  (AnswerResponse.answer refused_with_source
   = PStr AnswerGenerator.NO_INFO_RESPONSE
   /\ AnswerResponse.sources refused_with_source <> [])
  <-> exists complete req content parsed source id,
        AnswerGenerator.client (canned refusal_with_source) = Some complete
        /\ fst (AnswerGenerator.generate Json.loads system_prompt
                  (canned refusal_with_source) "What is the capital of France?"
                  [paris_chunk])
           = [req]
        /\ complete req = Ok content
        /\ Json.loads (payload_text (PyStr.strip content)) = Some parsed
        /\ Py.get parsed "answer" (PStr AnswerGenerator.NO_INFO_RESPONSE)
           = Ok (PStr AnswerGenerator.NO_INFO_RESPONSE)
        /\ source ∈ payload_sources parsed
        /\ cited_id source = Some id
        /\ id ∈ retrieved_ids [paris_chunk].
Proof.
  apply (refusal_invariant_up_to_payload Json.loads system_prompt
           (canned refusal_with_source) "What is the capital of France?"
           [paris_chunk]
           (fst (AnswerGenerator.generate Json.loads system_prompt
                   (canned refusal_with_source) "What is the capital of France?"
                   [paris_chunk]))
           refused_with_source).
  vm_compute. reflexivity.
Defined.



(** A generator built from settings without an API key. *)
Definition unconfigured : AnswerGenerator.t :=
  AnswerGenerator.__init__ Settings.default (fun _ _ => Ok "{}").

(** C5 fails as stated: with no API key configured, the answer operation
    raises on an empty retrieved list instead of returning the refusal. *)
Lemma empty_context_counterexample :
  AnswerGenerator.client unconfigured = None
  /\ AnswerGenerator.generate Json.loads system_prompt unconfigured
       "What is the capital of France?" []
     = ([], Raise RuntimeError).
Proof. split; reflexivity. Qed.

(** C5, amended: on an empty retrieved list the answer operation sends no
    request to the generation service; it returns the refusal string with
    no sources when the client is configured, and raises the configuration
    error when it is not. *)
Theorem empty_context_outcome
    (json_loads : string -> option pyval) (prompt : string)
    (self : AnswerGenerator.t) (question : string) :
  AnswerGenerator.generate json_loads prompt self question []
  = ([], match AnswerGenerator.client self with
         | Some _ => Ok AnswerGenerator.refusal
         | None => Raise RuntimeError
         end).
Proof.
  unfold AnswerGenerator.generate.
  destruct (AnswerGenerator.client self); reflexivity.
Qed.

(** C10: a completion that decodes to a JSON value other than an object
    makes the validator raise [AttributeError]; the exception is not
    caught, so no refusal and no response is returned. *)
Theorem non_object_payload_raises
    (json_loads : string -> option pyval) (text : string)
    (chunks : list RetrievedChunk.t) (parsed : pyval) :
  json_loads (payload_text text) = Some parsed ->
  (forall items, parsed <> PDict items) ->
  AnswerGenerator._parse_response json_loads text chunks = Raise AttributeError.
Proof.
  intros Hd Hshape. unfold AnswerGenerator._parse_response.
  fold (payload_text text). rewrite Hd.
  destruct parsed; try reflexivity. contradiction (Hshape items). reflexivity.
Qed.

Lemma non_object_payload_raises_witness :
  AnswerGenerator._parse_response Json.loads
    (Json.q "['Paris is the capital of France.']") [paris_chunk]
  = Raise AttributeError.
Proof.
  apply (non_object_payload_raises Json.loads _ _
           (PList [PStr "Paris is the capital of France."])).
  - vm_compute. reflexivity.
  - discriminate.
Defined.

Example bare_string_payload_raises :
  snd (AnswerGenerator.generate Json.loads system_prompt
         (canned (Json.q "'Paris.'")) "What is the capital of France?"
         [paris_chunk])
  = Raise AttributeError.
Proof. vm_compute. reflexivity. Qed.

(** ** The retrieval adapter *)

(** [value] is what [field] holds, or [default] when the key is missing. *)
Definition defaulted {A : Type} (field : option A) (default value : A) : Prop :=
  match field with
  | Some v => value = v
  | None => value = default
  end.

(** A key of the metadata of a result record: missing when the record has
    no ["metadata"] key or its metadata lacks the key. *)
Definition metadata_field {A : Type} (hit : Hit.t) (key : Metadata.t -> option A)
  : option A :=
  match Hit.metadata hit with
  | Some (Some metadata) => key metadata
  | _ => None
  end.

(** The metadata of the record is a [dict], or the key is missing: it is
    not [None]. *)
Definition has_metadata (hit : Hit.t) : bool :=
  match Hit.metadata hit with
  | Some None => false
  | _ => true
  end.

(** [chunk] holds the fields of [hit], with the defaults for missing keys. *)
Definition normalised (hit : Hit.t) (chunk : RetrievedChunk.t) : Prop :=
  defaulted (metadata_field hit Metadata.document_name) "unknown"
            (RetrievedChunk.document_name chunk)
  /\ defaulted (metadata_field hit Metadata.page_number) 0
               (RetrievedChunk.page_number chunk)
  /\ defaulted (metadata_field hit Metadata.is_section) false
               (RetrievedChunk.is_section chunk)
  /\ defaulted (Hit.distance hit) (Some 1%float) (RetrievedChunk.score chunk)
  /\ defaulted (Hit.chunk_id hit) "unknown" (RetrievedChunk.chunk_id chunk)
  /\ defaulted (Hit.text hit) "" (RetrievedChunk.text chunk).

Lemma to_chunk_outcome hit :
  if has_metadata hit
  then exists chunk, Retriever.to_chunk hit = Ok chunk /\ normalised hit chunk
  else Retriever.to_chunk hit = Raise AttributeError.
Proof.
  destruct hit as [id text [[[name page section]|]|] distance];
    unfold has_metadata, Retriever.to_chunk, normalised, defaulted, metadata_field;
    cbn; [| reflexivity |];
    (eexists; split; [reflexivity|]); cbn;
    destruct id, text, distance; cbn;
    try destruct name; try destruct page; try destruct section; cbn;
    repeat split; reflexivity.
Qed.

Lemma convert_outcome results retrieved :
  if forallb has_metadata results
  then exists chunks,
         Retriever.convert results retrieved = Ok (retrieved ++ chunks)%list
         /\ Forall2 normalised results chunks
  else Retriever.convert results retrieved = Raise AttributeError.
Proof.
  revert retrieved. induction results as [|hit results IH]; intros retrieved.
  - cbn. exists []. rewrite app_nil_r. split; [reflexivity | constructor].
  - cbn [forallb Retriever.convert]. pose proof (to_chunk_outcome hit) as Hhit.
    destruct (has_metadata hit); [|rewrite Hhit; reflexivity].
    destruct Hhit as (chunk & -> & Hchunk). cbn.
    specialize (IH (retrieved ++ [chunk])%list).
    destruct (forallb has_metadata results); [|exact IH].
    destruct IH as (chunks & -> & Hchunks). exists (chunk :: chunks). split.
    + rewrite <- app_assoc. reflexivity.
    + constructor; assumption.
Qed.




(** A record with every field, and one with no key at all. *)
Definition full_hit : Hit.t :=
  {| Hit.chunk_id := Some "a.txt_p1_c0_7aaf30b1";
     Hit.text := Some "Paris is the capital of France.";
     Hit.metadata :=
       Some (Some {| Metadata.document_name := Some "a.txt";
                     Metadata.page_number := Some 1;
                     Metadata.is_section := Some true |});
     Hit.distance := Some (Some 0.25%float) |}.

Definition bare_hit : Hit.t :=
  {| Hit.chunk_id := None; Hit.text := None; Hit.metadata := None;
     Hit.distance := None |}.

Definition bare_chunk : RetrievedChunk.t :=
  {| RetrievedChunk.document_name := "unknown";
     RetrievedChunk.page_number := 0;
     RetrievedChunk.chunk_id := "unknown";
     RetrievedChunk.text := "";
     RetrievedChunk.score := Some 1%float;
     RetrievedChunk.is_section := false |}.

Example retrieve_two_records :
  Retriever.retrieve (fun _ _ _ => Ok [full_hit; bare_hit])
    (Retriever.__init__ Settings.default None) "capital of France" None None
  = Ok [paris_chunk; bare_chunk].
Proof. reflexivity. Qed.



(** The same answer with distances, its second record stored without
    metadata. *)
Definition unlabelled_answer : VectorStore.query_result :=
  {| VectorStore.ids := ["a.txt_p1_c0_7aaf30b1"; "notes_7"];
     VectorStore.documents :=
       ["Paris is the capital of France."; "Rome is the capital of Italy."];
     VectorStore.metadatas :=
       [ Some {| Metadata.document_name := Some "a.txt";
                 Metadata.page_number := Some 1;
                 Metadata.is_section := Some true |};
         None ];
     VectorStore.distances := Some [0.25%float; 0.5%float] |}.



(** ** Facts about Python strings *)

Lemma len_nonneg s : 0 <= PyStr.len s.
Proof. unfold PyStr.len. lia. Qed.

Lemma len_empty_iff s : String.eqb s EmptyString = false <-> 1 <= PyStr.len s.
Proof.
  unfold PyStr.len. destruct s; simpl; split; intros H; try lia; try congruence.
Qed.

Lemma length_substring_le n m s :
  (String.length (String.substring n m s) <= m)%nat.
Proof.
  revert n m. induction s as [|c s IH]; intros [|n] [|m]; simpl; try lia.
  - specialize (IH 0%nat m). lia.
  - apply (IH n 0%nat).
  - apply (IH n (S m)).
Qed.

Lemma length_substring_le_length n m s :
  (String.length (String.substring n m s) <= String.length s)%nat.
Proof.
  revert n m. induction s as [|c s IH]; intros [|n] [|m]; simpl; try lia.
  - specialize (IH 0%nat m). lia.
  - specialize (IH n 0%nat). lia.
  - specialize (IH n (S m)). lia.
Qed.

Lemma length_substring_prefix m s :
  (m <= String.length s)%nat -> String.length (String.substring 0 m s) = m.
Proof.
  revert m. induction s as [|c s IH]; intros [|m]; simpl; try lia.
  intros H. rewrite IH; lia.
Qed.

Lemma length_lstrip_le s : (String.length (PyStr.lstrip s) <= String.length s)%nat.
Proof.
  induction s as [|c s IH]; simpl; [lia|].
  destruct (PyStr.isspace c); simpl; lia.
Qed.

Lemma length_rstrip_le s : (String.length (PyStr.rstrip s) <= String.length s)%nat.
Proof.
  induction s as [|c s IH]; simpl; [lia|].
  destruct (PyStr.rstrip s); simpl in *; [destruct (PyStr.isspace c); simpl|]; lia.
Qed.

Lemma len_strip_le s : PyStr.len (PyStr.strip s) <= PyStr.len s.
Proof.
  unfold PyStr.len, PyStr.strip.
  pose proof (length_rstrip_le (PyStr.lstrip s)).
  pose proof (length_lstrip_le s). lia.
Qed.

Lemma len_slice_le s i j :
  0 <= i -> 0 <= j -> PyStr.len (PyStr.slice s i j) <= Z.max 0 (j - i).
Proof.
  intros Hi Hj. unfold PyStr.slice, PyStr.clamp.
  destruct (Z.ltb_spec i 0); [lia|]. destruct (Z.ltb_spec j 0); [lia|].
  pose proof (length_substring_le
                (Z.to_nat (Z.min i (PyStr.len s)))
                (Z.to_nat (Z.min j (PyStr.len s) - Z.min i (PyStr.len s))) s).
  unfold PyStr.len in *. lia.
Qed.

Lemma prefix_length sub s :
  String.prefix sub s = true -> (String.length sub <= String.length s)%nat.
Proof.
  revert s. induction sub as [|c sub IH]; intros [|d s]; simpl; try lia; try discriminate.
  destruct (ascii_dec c d); [|discriminate]. intros H. apply IH in H. lia.
Qed.

Lemma rfind_go_bounds sub s i k :
  PyStr.rfind_go sub s i = Some k ->
  (i <= k /\ k + String.length sub <= i + String.length s)%nat.
Proof.
  revert i. induction s as [|c s IH]; intros i; cbn [PyStr.rfind_go].
  - destruct sub; simpl; [|discriminate]. intros [= <-]. lia.
  - destruct (PyStr.rfind_go sub s (S i)) as [k'|] eqn:Hk.
    + intros [= <-]. apply IH in Hk. cbn [String.length]. lia.
    + destruct (String.prefix sub (String c s)) eqn:Hp; [|discriminate].
      intros [= <-]. apply prefix_length in Hp. lia.
Qed.

(** An occurrence found by [rfind] from position [0] lies inside the string. *)
Lemma rfind_bounds s sub stop :
  PyStr.rfind s sub 0 stop <> -1 ->
  0 <= PyStr.rfind s sub 0 stop
  /\ PyStr.rfind s sub 0 stop + PyStr.len sub <= PyStr.len s.
Proof.
  unfold PyStr.rfind. destruct (Z.ltb_spec (PyStr.len s) 0); [congruence|].
  destruct (PyStr.rfind_go _ _ _) as [k|] eqn:Hk; [|congruence]. intros _.
  apply rfind_go_bounds in Hk.
  pose proof (length_substring_le_length
                (Z.to_nat (PyStr.clamp (PyStr.len s) 0))
                (Z.to_nat (PyStr.clamp (PyStr.len s) stop - PyStr.clamp (PyStr.len s) 0))
                s).
  assert (PyStr.clamp (PyStr.len s) 0 = 0) as ->.
  { unfold PyStr.clamp. simpl. lia. }
  unfold PyStr.len in *. lia.
Qed.

(** The characters from position [n] on. *)
Fixpoint drop_chars (n : nat) (s : string) : string :=
  match n, s with
  | O, _ => s
  | S n', String _ s' => drop_chars n' s'
  | S _, EmptyString => EmptyString
  end.

(** The number of characters before the first space, newline or tab. *)
Fixpoint run_length (s : string) : nat :=
  match s with
  | EmptyString => O
  | String c s' =>
      if PyStr.char_in c TextChunker.word_separators then O else S (run_length s')
  end.

(** The length of the longest stretch without a space, newline or tab. *)
Fixpoint longest_run (s : string) : nat :=
  match s with
  | EmptyString => O
  | String _ s' => Nat.max (run_length s) (longest_run s')
  end.

Lemma drop_chars_empty n : drop_chars n EmptyString = EmptyString.
Proof. destruct n; reflexivity. Qed.

Lemma drop_chars_all n s :
  (String.length s <= n)%nat -> drop_chars n s = EmptyString.
Proof.
  revert n. induction s as [|c s IH]; intros n H; [apply drop_chars_empty|].
  destruct n as [|n]; simpl in *; [lia|]. apply IH. lia.
Qed.

Lemma drop_chars_get n s :
  (n < String.length s)%nat ->
  exists c, String.get n s = Some c
            /\ drop_chars n s = String c (drop_chars (S n) s).
Proof.
  revert n. induction s as [|c s IH]; intros n H; simpl in H; [lia|].
  destruct n as [|n]; simpl.
  - exists c. split; reflexivity.
  - apply IH. lia.
Qed.

Lemma run_length_le_longest n s : (run_length (drop_chars n s) <= longest_run s)%nat.
Proof.
  revert n. induction s as [|c s IH]; intros n.
  - rewrite drop_chars_empty. simpl. lia.
  - destruct n as [|n].
    + change (drop_chars 0 (String c s)) with (String c s).
      change (longest_run (String c s))
        with (Nat.max (run_length (String c s)) (longest_run s)). lia.
    + change (drop_chars (S n) (String c s)) with (drop_chars n s).
      change (longest_run (String c s))
        with (Nat.max (run_length (String c s)) (longest_run s)).
      specialize (IH n). lia.
Qed.

(** ** The chunker: where a window is cut *)

Lemma sentence_ends_length :
  Forall (fun marker => PyStr.len marker = 2) TextChunker.sentence_ends.
Proof. repeat constructor. Qed.

(** A sentence break lies at least two characters into the search window
    and not beyond its end. *)
Lemma best_break_bounds search_text search_start stop b :
  TextChunker.best_break search_text search_start stop = Some b ->
  search_start + 2 <= b <= search_start + PyStr.len search_text.
Proof.
  unfold TextChunker.best_break.
  assert (forall markers best,
             Forall (fun marker => PyStr.len marker = 2) markers ->
             (forall b0, best = Some b0 ->
                         search_start + 2 <= b0 <= search_start + PyStr.len search_text) ->
             fold_left
               (fun best end_marker =>
                  let idx := PyStr.rfind search_text end_marker 0 stop in
                  if idx =? -1 then best
                  else
                    let actual_pos := search_start + idx + PyStr.len end_marker in
                    match best with
                    | None => Some actual_pos
                    | Some b => if actual_pos >? b then Some actual_pos else best
                    end)
               markers best = Some b ->
             search_start + 2 <= b <= search_start + PyStr.len search_text) as Hfold.
  { induction markers as [|marker markers IH]; intros best Hlen Hbest; simpl.
    - apply Hbest.
    - inversion Hlen as [|? ? Hm Hms]; subst. apply IH; [exact Hms|].
      intros b0. destruct (Z.eqb_spec (PyStr.rfind search_text marker 0 stop) (-1))
        as [Heq | Hne]; [apply Hbest|].
      pose proof (rfind_bounds search_text marker stop Hne) as [Hlo Hhi].
      destruct best as [b1|].
      + destruct (_ >? b1); [|apply Hbest]. intros [= <-]. lia.
      + intros [= <-]. lia. }
  apply Hfold; [apply sentence_ends_length | discriminate].
Qed.

(** The word-boundary loop stops at the first space, newline or tab at or
    after [word_end], or at the end of the text; it does not run out of
    rounds. *)
Lemma word_end_loop_exit fuel text word_end :
  0 <= word_end ->
  (Z.to_nat (PyStr.len text - word_end) <= fuel)%nat ->
  TextChunker.word_end_loop fuel text word_end
  = Ok (word_end + Z.of_nat (run_length (drop_chars (Z.to_nat word_end) text))).
Proof.
  revert word_end. induction fuel as [|fuel IH]; intros w Hw Hfuel.
  - cbn [TextChunker.word_end_loop].
    destruct (Z.leb_spec (PyStr.len text) w) as [Hge | Hlt]; [|lia].
    rewrite drop_chars_all by (unfold PyStr.len in *; lia).
    simpl. f_equal. lia.
  - cbn [TextChunker.word_end_loop].
    destruct (Z.leb_spec (PyStr.len text) w) as [Hge | Hlt].
    + rewrite drop_chars_all by (unfold PyStr.len in *; lia).
      simpl. f_equal. lia.
    + destruct (drop_chars_get (Z.to_nat w) text) as (c & Hget & Hdrop).
      { unfold PyStr.len in *. lia. }
      unfold PyStr.item.
      destruct (Z.ltb_spec w 0); [lia|].
      destruct (Z.ltb_spec w 0); [lia|].
      destruct (Z.leb_spec (PyStr.len text) w); [lia|]. cbn [orb].
      rewrite Hget, Hdrop. cbn [run_length].
      destruct (PyStr.char_in c TextChunker.word_separators).
      * f_equal. lia.
      * rewrite IH by (unfold PyStr.len in *; lia).
        replace (Z.to_nat (w + 1)) with (S (Z.to_nat w)) by lia.
        f_equal. lia.
Qed.

(** [_find_boundary] returns a position at most 48 characters before the
    target, and after it at most 50 characters or the rest of the word the
    target falls in. *)
Lemma find_boundary_bounds text position :
  0 <= position ->
  exists b,
    TextChunker._find_boundary text position = Ok b
    /\ position - 48 <= b
    /\ b <= position + Z.max 50 (Z.of_nat (longest_run text)).
Proof.
  intros Hpos. unfold TextChunker._find_boundary.
  pose proof (run_length_le_longest (Z.to_nat position) text) as Hrun.
  pose proof (word_end_loop_exit (Z.to_nat (PyStr.len text - position)) text position
                Hpos (Nat.le_refl _)) as Hword.
  destruct (TextChunker.best_break _ _ _) as [b|] eqn:Hb.
  - apply best_break_bounds in Hb.
    pose proof (len_nonneg text).
    pose proof (len_slice_le text (Z.max 0 (position - 50))
                  (Z.min (PyStr.len text) (position + 50))
                  ltac:(lia) ltac:(lia)).
    destruct (Z.eqb_spec b 0); [lia|].
    exists b. split; [reflexivity | lia].
  - rewrite Hword. eexists. split; [reflexivity | lia].
Qed.

Section WindowFacts.
Variable self : TextChunker.t.
Variable text : string.

Let size := TextChunker.chunk_size self.
Let overlap := TextChunker.chunk_overlap self.
Let slack := Z.max 50 (Z.of_nat (longest_run text)).

(** The window that starts at [start] ends after [start], at most 48
    characters before [start + chunk_size] and at most [slack] characters
    after it. *)
Lemma window_end_bounds start :
  0 <= start -> 0 < size ->
  exists end_,
    TextChunker.window_end self text start = Ok end_
    /\ start < end_
    /\ start + size - 48 <= end_ <= start + size + slack.
Proof using Type.
  intros Hstart Hsize. unfold TextChunker.window_end. fold size.
  destruct (Z.ltb_spec (start + size) (PyStr.len text)) as [Hlt | Hge].
  - destruct (find_boundary_bounds text (start + size) ltac:(lia))
      as (b & -> & Hlo & Hhi).
    eexists. split; [reflexivity|]. fold slack in Hhi.
    destruct (Z.gtb_spec b start); unfold slack in *; lia.
  - eexists. split; [reflexivity|]. unfold slack. lia.
Qed.
End WindowFacts.

(** ** The chunker: the loop of [_chunk_text] *)

Section LoopFacts.
Variable self : TextChunker.t.
Variables (text document_name : string) (page_number : Z) (is_section : bool).

Let size := TextChunker.chunk_size self.
Let overlap := TextChunker.chunk_overlap self.
Let slack := Z.max 50 (Z.of_nat (longest_run text)).
Let body := TextChunker.loop_body self text document_name page_number is_section.
Let loop := TextChunker.chunk_loop self text document_name page_number is_section.

(** The bound on the text of a chunk. *)
Definition within_bound (bound : Z) (c : TextChunk.t) : Prop :=
  1 <= PyStr.len (TextChunk.text c) <= bound.

(** The state after the chunk of the window [start..end_] was appended, if
    it is not empty. *)
Definition appended (st : TextChunker.loop_state) (end_ : Z) : TextChunker.loop_state :=
  let chunk_text := PyStr.strip (PyStr.slice text (TextChunker.start st) end_) in
  if String.eqb chunk_text EmptyString then st
  else
    {| TextChunker.start := TextChunker.start st;
       TextChunker.chunk_index := TextChunker.chunk_index st + 1;
       TextChunker.chunks :=
         (TextChunker.chunks st ++
            [ {| TextChunk.document_name := document_name;
                 TextChunk.page_number := page_number;
                 TextChunk.chunk_id :=
                   TextChunker._generate_chunk_id document_name page_number
                     (TextChunker.chunk_index st);
                 TextChunk.text := chunk_text;
                 TextChunk.is_section := is_section |} ])%list |}.

Lemma loop_body_unfold st :
  body st =
    match TextChunker.window_end self text (TextChunker.start st) with
    | Raise e => Raise e
    | Ok end_ =>
        let st1 := appended st end_ in
        if PyStr.len text - 1 <=? end_ - overlap
        then Ok (TextChunker.Break (TextChunker.chunks st1))
        else Ok (TextChunker.Next
                   {| TextChunker.start := end_ - overlap;
                      TextChunker.chunk_index := TextChunker.chunk_index st1;
                      TextChunker.chunks := TextChunker.chunks st1 |})
    end.
Proof using Type. reflexivity. Qed.

Lemma loop_unfold fuel st :
  loop (S fuel) st =
    if TextChunker.start st <? PyStr.len text then
      match body st with
      | Raise e => Some (Raise e)
      | Ok (TextChunker.Break cs) => Some (Ok cs)
      | Ok (TextChunker.Next st') => loop fuel st'
      end
    else Some (Ok (TextChunker.chunks st)).
Proof using Type. reflexivity. Qed.

Lemma appended_within_bound st end_ :
  0 <= TextChunker.start st ->
  TextChunker.start st < end_ <= TextChunker.start st + size + slack ->
  Forall (within_bound (size + slack)) (TextChunker.chunks st) ->
  Forall (within_bound (size + slack)) (TextChunker.chunks (appended st end_)).
Proof using Type.
  intros Hstart Hend Hall. unfold appended.
  destruct (String.eqb _ EmptyString) eqn:Hempty; [exact Hall|].
  simpl. apply Forall_app. split; [exact Hall|].
  constructor; [|constructor]. unfold within_bound. simpl.
  split; [apply len_empty_iff, Hempty|].
  pose proof (len_strip_le (PyStr.slice text (TextChunker.start st) end_)).
  pose proof (len_slice_le text (TextChunker.start st) end_ Hstart ltac:(lia)).
  lia.
Qed.

(** With no overlap, or with [chunk_size >= chunk_overlap + 49], a round
    moves [start] forward and keeps the bound on the chunks. *)
Lemma loop_body_progress st :
  0 < size -> overlap <= 0 \/ overlap + 48 < size ->
  0 <= TextChunker.start st ->
  Forall (within_bound (size + slack)) (TextChunker.chunks st) ->
  exists out,
    body st = Ok out
    /\ match out with
       | TextChunker.Break cs => Forall (within_bound (size + slack)) cs
       | TextChunker.Next st' =>
           TextChunker.start st < TextChunker.start st'
           /\ Forall (within_bound (size + slack)) (TextChunker.chunks st')
       end.
Proof using Type.
  intros Hsize Hov Hstart Hall. rewrite loop_body_unfold.
  destruct (window_end_bounds self text (TextChunker.start st) Hstart)
    as (end_ & -> & Hgt & Hend); [fold size; lia|].
  fold size in Hend. fold slack in Hend.
  pose proof (appended_within_bound st end_ Hstart ltac:(lia) Hall) as Happ.
  cbv zeta. destruct (_ <=? _).
  - eexists. split; [reflexivity | exact Happ].
  - eexists. split; [reflexivity|]. simpl. split; [lia | exact Happ].
Qed.

(** The loop ends within [len text - start + 1] rounds. *)
Lemma loop_terminates fuel st :
  0 < size -> overlap <= 0 \/ overlap + 48 < size ->
  0 <= TextChunker.start st ->
  (Z.to_nat (PyStr.len text - TextChunker.start st) < fuel)%nat ->
  Forall (within_bound (size + slack)) (TextChunker.chunks st) ->
  exists cs, loop fuel st = Some (Ok cs) /\ Forall (within_bound (size + slack)) cs.
Proof using Type.
  intros Hsize Hov. revert st.
  induction fuel as [|fuel IH]; intros st Hstart Hfuel Hall; [lia|].
  rewrite loop_unfold.
  destruct (Z.ltb_spec (TextChunker.start st) (PyStr.len text)) as [Hlt | Hge].
  - destruct (loop_body_progress st Hsize Hov Hstart Hall) as (out & -> & Hout).
    destruct out as [st' | cs].
    + destruct Hout as [Hadv Hall']. apply IH; [lia | lia | exact Hall'].
    + eauto.
  - eauto.
Qed.

Lemma loop_step fuel st st' :
  (TextChunker.start st <? PyStr.len text) = true ->
  body st = Ok (TextChunker.Next st') ->
  loop (S fuel) st = loop fuel st'.
Proof using Type. intros Hlt Hbody. rewrite loop_unfold, Hlt, Hbody. reflexivity. Qed.

(** A state that a round leaves unchanged is never left. *)
Lemma loop_cycle st :
  TextChunker.start st < PyStr.len text ->
  body st = Ok (TextChunker.Next st) ->
  forall fuel, loop fuel st = None.
Proof using Type.
  intros Hlt Hbody fuel. induction fuel as [|fuel IH]; [reflexivity|].
  rewrite loop_unfold, Hbody.
  destruct (Z.ltb_spec (TextChunker.start st) (PyStr.len text)); [exact IH | lia].
Qed.

(** More fuel does not change a result. *)
Lemma loop_fuel_mono fuel fuel' st r :
  (fuel <= fuel')%nat -> loop fuel st = Some r -> loop fuel' st = Some r.
Proof using Type.
  revert fuel' st. induction fuel as [|fuel IH]; intros fuel' st Hle; [discriminate|].
  destruct fuel' as [|fuel']; [lia|]. rewrite !loop_unfold.
  destruct (_ <? _); [|auto].
  destruct (body st) as [[st'|cs]|e]; auto. apply IH. lia.
Qed.
End LoopFacts.

(** [s * n] on a string. *)
Fixpoint str_mul (s : string) (n : nat) : string :=
  match n with
  | O => EmptyString
  | S n' => s +:+ str_mul s n'
  end.

Definition initial_state : TextChunker.loop_state :=
  {| TextChunker.start := 0; TextChunker.chunk_index := 0;
     TextChunker.chunks := [] |}.

Lemma strip_empty_iff text :
  1 <= PyStr.len (PyStr.strip text) ->
  String.eqb text EmptyString || String.eqb (PyStr.strip text) EmptyString = false.
Proof.
  intros H. apply len_empty_iff in H as Hs. rewrite Hs.
  destruct text; [simpl in H; unfold PyStr.len in H; simpl in H; lia | reflexivity].
Qed.

(** A page longer than [chunk_size] after trimming goes through the loop. *)
Lemma chunk_text_long fuel self text document_name page_number is_section :
  1 <= PyStr.len (PyStr.strip text) ->
  TextChunker.chunk_size self < PyStr.len (PyStr.strip text) ->
  TextChunker._chunk_text fuel self text document_name page_number is_section
  = TextChunker.chunk_loop self (PyStr.strip text) document_name page_number
      is_section fuel initial_state.
Proof.
  intros Hne Hlong. unfold TextChunker._chunk_text.
  rewrite (strip_empty_iff text Hne). cbv zeta.
  destruct (Z.leb_spec (PyStr.len (PyStr.strip text)) (TextChunker.chunk_size self));
    [lia | reflexivity].
Qed.

(** ** C6: the configuration of the chunker *)

(** C6 fails as stated: the constructor accepts a chunk size of 10 with an
    overlap of 20, and one of 10 with an overlap of 10, with which chunking
    a page of 30 characters never ends. *)
Lemma configuration_counterexample :
  TextChunker.__init__ Settings.default (Some 10) (Some 20)
  = Ok {| TextChunker.chunk_size := 10; TextChunker.chunk_overlap := 20 |}
  /\ ~ (10 > 20 /\ 20 >= 0)
  /\ TextChunker.__init__ Settings.default (Some 10) (Some 10)
     = Ok {| TextChunker.chunk_size := 10; TextChunker.chunk_overlap := 10 |}
  /\ ~ (exists fuel r,
           TextChunker._chunk_text fuel
             {| TextChunker.chunk_size := 10; TextChunker.chunk_overlap := 10 |}
             (str_mul "a" 30) "a.txt" 1 false = Some r).
Proof.
  split; [reflexivity|]. split; [lia|]. split; [reflexivity|].
  set (self := {| TextChunker.chunk_size := 10; TextChunker.chunk_overlap := 10 |}).
  set (text := str_mul "a" 30).
  assert (PyStr.strip text = text) as Hstrip by (vm_compute; reflexivity).
  assert (forall fuel idx cs,
             TextChunker.chunk_loop self text "a.txt" 1 false fuel
               {| TextChunker.start := 20; TextChunker.chunk_index := idx;
                  TextChunker.chunks := cs |} = None) as Hstuck.
  { induction fuel as [|fuel IH]; intros idx cs; [reflexivity|].
    rewrite loop_unfold, loop_body_unfold.
    cbn [TextChunker.start].
    assert (TextChunker.window_end self text 20 = Ok 30) as ->
        by (vm_compute; reflexivity).
    assert ((20 <? PyStr.len text) = true) as -> by (vm_compute; reflexivity).
    cbv zeta. unfold appended. cbn [TextChunker.start].
    assert (PyStr.strip (PyStr.slice text 20 30) = str_mul "a" 10) as ->
        by (vm_compute; reflexivity).
    assert (String.eqb (str_mul "a" 10) EmptyString = false) as ->
        by (vm_compute; reflexivity).
    assert ((PyStr.len text - 1 <=? 30 - TextChunker.chunk_overlap self) = false)
      as -> by (vm_compute; reflexivity).
    cbn [TextChunker.chunks TextChunker.chunk_index].
    assert (30 - TextChunker.chunk_overlap self = 20) as -> by reflexivity.
    apply IH. }
  intros (fuel & r & H).
  rewrite chunk_text_long in H by (rewrite Hstrip; vm_compute; congruence).
  rewrite Hstrip in H.
  destruct fuel as [|fuel]; [discriminate|].
  rewrite loop_unfold, loop_body_unfold in H.
  assert (TextChunker.window_end self text (TextChunker.start initial_state) = Ok 30)
    as Hw by (vm_compute; reflexivity).
  rewrite Hw in H.
  assert ((TextChunker.start initial_state <? PyStr.len text) = true) as Hlt
      by (vm_compute; reflexivity).
  rewrite Hlt in H. cbv zeta in H. unfold appended in H.
  assert (PyStr.strip (PyStr.slice text (TextChunker.start initial_state) 30) = text)
    as Hs by (vm_compute; reflexivity).
  rewrite Hs in H.
  assert (String.eqb text EmptyString = false) as He by (vm_compute; reflexivity).
  rewrite He in H.
  assert ((PyStr.len text - 1 <=? 30 - TextChunker.chunk_overlap self) = false)
    as Hc by (vm_compute; reflexivity).
  rewrite Hc in H. cbn [TextChunker.chunks TextChunker.chunk_index] in H.
  assert (30 - TextChunker.chunk_overlap self = 20) as Hn by reflexivity.
  rewrite Hn, Hstuck in H. discriminate.
Qed.

(** C6, amended: the constructor of the chunker checks nothing. For every
    chunk size and overlap it is given it returns a chunker, never an error;
    the chunker holds the given values, the configured default standing in
    for a value that is absent or zero. *)
Theorem chunker_accepts_every_configuration
    (settings : Settings.t) (chunk_size chunk_overlap : option Z) :
  exists self,
    TextChunker.__init__ settings chunk_size chunk_overlap = Ok self
    /\ TextChunker.chunk_size self
       = int_or chunk_size (Settings.chunk_size settings)
    /\ TextChunker.chunk_overlap self
       = int_or chunk_overlap (Settings.chunk_overlap settings).
Proof. eexists. split; [reflexivity|]. split; reflexivity. Qed.

(** An overlap of [0] is falsy and replaced by the configured one. *)
Example zero_overlap_is_replaced :
  TextChunker.__init__ Settings.default (Some 30) (Some 0)
  = Ok {| TextChunker.chunk_size := 30; TextChunker.chunk_overlap := 50 |}.
Proof. reflexivity. Qed.

(** ** C7: termination and chunk length *)

Definition tight_chunker : TextChunker.t :=
  {| TextChunker.chunk_size := 10; TextChunker.chunk_overlap := 9 |}.

Definition short_sentence_page : string := "a. " +:+ str_mul "b" 30.

(** The state the loop reaches after one round on [short_sentence_page] and
    then never leaves: the sentence break at 3 puts [start] at [3 - 9]. *)
Definition stuck_state : TextChunker.loop_state :=
  {| TextChunker.start := -6;
     TextChunker.chunk_index := 1;
     TextChunker.chunks :=
       [ {| TextChunk.document_name := "a.txt";
            TextChunk.page_number := 1;
            TextChunk.chunk_id := "a.txt_p1_c0_7aaf30b1";
            TextChunk.text := "a.";
            TextChunk.is_section := false |} ] |}.

Definition test_chunker : TextChunker.t :=
  {| TextChunker.chunk_size := 100; TextChunker.chunk_overlap := 20 |}.

(** C7 fails on the code. With [chunk_size = 10] and [overlap = 9], inside
    the precondition [0 <= overlap < chunk_size], chunking a page of 33
    characters never ends: the sentence break found 7 characters before the
    window's end sends [start] back to [-6], from where the same round
    repeats, and the check under [# Prevent infinite loop] only looks at
    the end of the text. And with [chunk_size = 100] a page of 300
    characters without whitespace gives a chunk of 300 characters. *)
Lemma chunking_counterexample :
  (0 <= TextChunker.chunk_overlap tight_chunker
   /\ TextChunker.chunk_overlap tight_chunker < TextChunker.chunk_size tight_chunker
   /\ TextChunker.chunk_size tight_chunker
      < PyStr.len (PyStr.strip short_sentence_page)
   /\ ~ (exists fuel r,
            TextChunker._chunk_text fuel tight_chunker short_sentence_page
              "a.txt" 1 false = Some r))
  /\ (exists c rest,
         TextChunker._chunk_text 10 test_chunker (str_mul "a" 300)
           "a.txt" 1 false = Some (Ok (c :: rest))
         /\ PyStr.len (TextChunk.text c) = 300).
Proof.
  split.
  - split; [vm_compute; congruence|].
    split; [vm_compute; reflexivity|]. split; [vm_compute; reflexivity|].
    assert (PyStr.strip short_sentence_page = short_sentence_page) as Hstrip
        by (vm_compute; reflexivity).
    intros (fuel & r & H).
    rewrite chunk_text_long in H by (rewrite Hstrip; vm_compute; congruence).
    rewrite Hstrip in H.
    destruct fuel as [|fuel]; [discriminate|].
    assert (TextChunker.loop_body tight_chunker short_sentence_page "a.txt" 1 false
              initial_state = Ok (TextChunker.Next stuck_state)) as Hfirst
        by (vm_compute; reflexivity).
    assert ((TextChunker.start initial_state <? PyStr.len short_sentence_page) = true)
      as Hlt by (vm_compute; reflexivity).
    assert (TextChunker.loop_body tight_chunker short_sentence_page "a.txt" 1 false
              stuck_state = Ok (TextChunker.Next stuck_state)) as Hagain
        by (vm_compute; reflexivity).
    assert (TextChunker.start stuck_state < PyStr.len short_sentence_page) as Hlt'
        by (vm_compute; reflexivity).
    pose proof (loop_step tight_chunker short_sentence_page "a.txt" 1 false fuel
                  initial_state stuck_state Hlt Hfirst) as Hstep.
    pose proof (loop_cycle tight_chunker short_sentence_page "a.txt" 1 false
                  stuck_state Hlt' Hagain fuel) as Hcycle.
    congruence.
  - eexists _, _. split; [vm_compute; reflexivity | vm_compute; reflexivity].
Qed.

(** C7, where the code keeps it: for every page whose trimmed text is
    longer than [chunk_size], when [chunk_size] is positive and either
    there is no overlap or [chunk_size >= overlap + 49], the chunking loop
    ends, within as many rounds as the text has characters, and the text
    of every chunk has at least one character and at most [chunk_size]
    plus 50 or, if that is more, plus the length of the longest stretch of
    the text without a space, newline or tab. *)
Theorem chunking_terminates_within_bound
    (self : TextChunker.t) (text document_name : string)
    (page_number : Z) (is_section : bool) :
  0 < TextChunker.chunk_size self ->
  TextChunker.chunk_overlap self <= 0
  \/ TextChunker.chunk_overlap self + 48 < TextChunker.chunk_size self ->
  TextChunker.chunk_size self < PyStr.len (PyStr.strip text) ->
  exists chunks,
    (forall fuel,
        (Z.to_nat (PyStr.len (PyStr.strip text)) < fuel)%nat ->
        TextChunker._chunk_text fuel self text document_name page_number is_section
        = Some (Ok chunks))
    /\ Forall
         (fun c =>
            1 <= PyStr.len (TextChunk.text c)
            <= TextChunker.chunk_size self
               + Z.max 50 (Z.of_nat (longest_run (PyStr.strip text))))
         chunks.
Proof.
  intros Hsize Hov Hlong.
  destruct (loop_terminates self (PyStr.strip text) document_name page_number
              is_section (S (Z.to_nat (PyStr.len (PyStr.strip text)))) initial_state
              Hsize Hov)
    as (cs & Hcs & Hall); [simpl; lia | simpl; lia | constructor |].
  exists cs. split; [|exact Hall].
  intros fuel Hfuel. rewrite chunk_text_long by lia.
  eapply loop_fuel_mono; [|exact Hcs]. lia.
Qed.

(** Twenty characters to a chunk and no overlap. *)
Definition plain_chunker : TextChunker.t :=
  {| TextChunker.chunk_size := 20; TextChunker.chunk_overlap := 0 |}.

Lemma chunking_terminates_within_bound_witness :
  exists chunks,
    (forall fuel,
        (Z.to_nat (PyStr.len (PyStr.strip (str_mul "This is a sentence. " 50))) < fuel)%nat ->
        TextChunker._chunk_text fuel plain_chunker (str_mul "This is a sentence. " 50)
          "test.pdf" 1 false
        = Some (Ok chunks))
    /\ Forall
         (fun c =>
            1 <= PyStr.len (TextChunk.text c)
            <= TextChunker.chunk_size plain_chunker
               + Z.max 50 (Z.of_nat (longest_run
                                       (PyStr.strip (str_mul "This is a sentence. " 50)))))
         chunks.
Proof.
  apply (chunking_terminates_within_bound plain_chunker
           (str_mul "This is a sentence. " 50) "test.pdf" 1 false).
  - vm_compute. reflexivity.
  - left. vm_compute. congruence.
  - vm_compute. reflexivity.
Defined.

(** With an overlap, the bound [chunk_size >= chunk_overlap + 49] cannot
    be lowered: with [chunk_size = 58] and [overlap = 10] a sentence break
    48 characters before the window's end keeps [start] at [0]. *)
Example progress_threshold_is_tight :
  ~ (exists fuel r,
        TextChunker._chunk_text fuel
          {| TextChunker.chunk_size := 58; TextChunker.chunk_overlap := 10 |}
          ("aaaaaaaa. " +:+ str_mul "b" 100) "a.txt" 1 false = Some r).
Proof.
  set (self := {| TextChunker.chunk_size := 58; TextChunker.chunk_overlap := 10 |}).
  set (text := "aaaaaaaa. " +:+ str_mul "b" 100).
  assert (PyStr.strip text = text) as Hstrip by (vm_compute; reflexivity).
  assert (forall fuel idx cs,
             TextChunker.chunk_loop self text "a.txt" 1 false fuel
               {| TextChunker.start := 0; TextChunker.chunk_index := idx;
                  TextChunker.chunks := cs |} = None) as Hstuck.
  { induction fuel as [|fuel IH]; intros idx cs; [reflexivity|].
    rewrite loop_unfold, loop_body_unfold.
    cbn [TextChunker.start].
    assert (TextChunker.window_end self text 0 = Ok 10) as ->
        by (vm_compute; reflexivity).
    assert ((0 <? PyStr.len text) = true) as -> by (vm_compute; reflexivity).
    cbv zeta. unfold appended. cbn [TextChunker.start].
    assert (PyStr.strip (PyStr.slice text 0 10) = "aaaaaaaa.") as ->
        by (vm_compute; reflexivity).
    assert (String.eqb "aaaaaaaa." EmptyString = false) as ->
        by (vm_compute; reflexivity).
    assert ((PyStr.len text - 1 <=? 10 - TextChunker.chunk_overlap self) = false)
      as -> by (vm_compute; reflexivity).
    cbn [TextChunker.chunks TextChunker.chunk_index].
    assert (10 - TextChunker.chunk_overlap self = 0) as -> by reflexivity.
    apply IH. }
  intros (fuel & r & H).
  rewrite chunk_text_long in H by (rewrite Hstrip; vm_compute; congruence).
  rewrite Hstrip in H. unfold initial_state in H. rewrite Hstuck in H.
  discriminate.
Qed.

(** ** Chunk ids *)

Definition chars_of : string -> list ascii := list_ascii_of_string.

Lemma chars_of_app s t : chars_of (s +:+ t) = (chars_of s ++ chars_of t)%list.
Proof. induction s as [|c s IH]; simpl; [reflexivity | f_equal; exact IH]. Qed.

Lemma chars_of_length s : length (chars_of s) = String.length s.
Proof. induction s as [|c s IH]; simpl; [reflexivity | f_equal; exact IH]. Qed.

Lemma chars_of_inj s t : chars_of s = chars_of t -> s = t.
Proof.
  intros H. rewrite <- (string_of_list_ascii_of_string s),
    <- (string_of_list_ascii_of_string t).
  unfold chars_of in H. rewrite H. reflexivity.
Qed.

(** A digit or the minus sign: the characters of [str(n)]. *)
Definition numeric (c : ascii) : bool :=
  let n := N_of_ascii c in ((48 <=? n) && (n <=? 57) || (n =? 45))%N.

Lemma pretty_N_char_numeric x : numeric (pretty_N_char x) = true.
Proof. unfold pretty_N_char. repeat case_match; reflexivity. Qed.

Lemma pretty_N_go_numeric x s :
  forallb numeric (chars_of s) = true ->
  forallb numeric (chars_of (pretty_N_go x s)) = true.
Proof.
  revert s. induction (N.lt_wf_0 x) as [x _ IH]; intros s Hs.
  destruct (decide (x = 0%N)) as [-> | Hne].
  - rewrite pretty_N_go_0. exact Hs.
  - rewrite pretty_N_go_step by lia. apply IH.
    + apply N.div_lt; lia.
    + simpl. rewrite pretty_N_char_numeric. exact Hs.
Qed.

Lemma of_int_numeric n : forallb numeric (chars_of (PyStr.of_int n)) = true.
Proof.
  unfold PyStr.of_int, pretty, pretty_Z.
  destruct n as [|p|p]; [reflexivity | |].
  - unfold pretty, pretty_positive, pretty, pretty_N.
    destruct (decide (N.pos p = 0%N)); [reflexivity|].
    apply pretty_N_go_numeric. reflexivity.
  - rewrite chars_of_app. rewrite forallb_app. apply andb_true_intro.
    split; [reflexivity|].
    unfold pretty, pretty_positive, pretty, pretty_N.
    destruct (decide (N.pos p = 0%N)); [reflexivity|].
    apply pretty_N_go_numeric. reflexivity.
Qed.

Lemma of_int_inj m n : PyStr.of_int m = PyStr.of_int n -> m = n.
Proof. unfold PyStr.of_int. apply pretty_Z_inj. Qed.

(** Two runs of [test]-characters, each closed by the same character [c]
    outside [test], that start equal lists are equal, and so are the rests. *)
Lemma run_then_marker (test : ascii -> bool) (c : ascii) (a1 a2 b1 b2 : list ascii) :
  test c = false ->
  forallb test a1 = true -> forallb test a2 = true ->
  (a1 ++ c :: b1 = a2 ++ c :: b2)%list ->
  a1 = a2 /\ b1 = b2.
Proof.
  intros Hc. revert a2. induction a1 as [|x a1 IH]; intros [|y a2]; simpl.
  - intros _ _ [= ->]. split; reflexivity.
  - intros _ Hy [= <- _]. rewrite Hc in Hy. discriminate.
  - intros Hx _ [= -> _]. rewrite Hc in Hx. discriminate.
  - intros Hx Hy [= -> Heq].
    apply andb_prop in Hx as [_ Hx]. apply andb_prop in Hy as [_ Hy].
    destruct (IH a2 Hx Hy Heq) as [-> ->]. split; reflexivity.
Qed.

Lemma forallb_rev {A : Type} (test : A -> bool) (l : list A) :
  forallb test (rev l) = forallb test l.
Proof.
  induction l as [|x l IH]; simpl; [reflexivity|].
  rewrite forallb_app, IH. simpl. rewrite andb_true_r. apply andb_comm.
Qed.

Lemma hex_length bytes : String.length (MD5.hex bytes) = (2 * length bytes)%nat.
Proof. induction bytes as [|b bytes IH]; simpl; [reflexivity | rewrite IH; lia]. Qed.

Lemma hexdigest_length s : String.length (MD5.hexdigest s) = 32%nat.
Proof.
  unfold MD5.hexdigest, MD5.digest. rewrite hex_length.
  cbv zeta. rewrite !length_app. reflexivity.
Qed.

Lemma hash_suffix_length s :
  String.length (PyStr.slice_to (MD5.hexdigest s) 8) = 8%nat.
Proof.
  unfold PyStr.slice_to, PyStr.slice, PyStr.len. rewrite hexdigest_length.
  change (Z.to_nat (PyStr.clamp (Z.of_nat 32) 0)) with 0%nat.
  change (Z.to_nat (PyStr.clamp (Z.of_nat 32) 8 - PyStr.clamp (Z.of_nat 32) 0))
    with 8%nat.
  apply length_substring_prefix. rewrite hexdigest_length. lia.
Qed.

(** The id determines the document name, the page number and the index. *)
Lemma generate_chunk_id_inj name1 page1 index1 name2 page2 index2 :
  TextChunker._generate_chunk_id name1 page1 index1
  = TextChunker._generate_chunk_id name2 page2 index2 ->
  name1 = name2 /\ page1 = page2 /\ index1 = index2.
Proof.
  unfold TextChunker._generate_chunk_id. cbv zeta.
  set (h1 := PyStr.slice_to (MD5.hexdigest _) 8).
  set (h2 := PyStr.slice_to (MD5.hexdigest _) 8).
  assert (length (chars_of h1) = length (chars_of h2)) as Hlen.
  { rewrite !chars_of_length. unfold h1, h2. rewrite !hash_suffix_length.
    reflexivity. }
  clearbody h1 h2. intros Heq.
  apply (f_equal chars_of) in Heq. rewrite !chars_of_app in Heq.
  apply (f_equal (@rev ascii)) in Heq. rewrite !rev_app_distr in Heq.
  rewrite <- !app_assoc in Heq.
  apply app_inj_1 in Heq as [_ Heq]; [|rewrite !length_rev; exact Hlen].
  simpl in Heq. injection Heq as Heq.
  apply run_then_marker with (test := numeric) in Heq as [Hi Heq];
    [|reflexivity|rewrite forallb_rev; apply of_int_numeric..].
  injection Heq as Heq.
  apply run_then_marker with (test := numeric) in Heq as [Hp Heq];
    [|reflexivity|rewrite forallb_rev; apply of_int_numeric..].
  injection Heq as Heq.
  apply (f_equal (@rev ascii)) in Heq, Hp, Hi.
  rewrite !rev_involutive in Heq, Hp, Hi.
  apply chars_of_inj in Heq, Hp, Hi.
  apply of_int_inj in Hp, Hi. auto.
Qed.

(** The ids of the first [n] chunks of a page. *)
Definition page_ids (document_name : string) (page_number : Z) (n : nat)
  : list string :=
  map (fun i => TextChunker._generate_chunk_id document_name page_number (Z.of_nat i))
      (seq 0 n).

(** What identifies a page. *)
Definition page_key (page : DocumentPage.t) : string * Z :=
  (DocumentPage.document_name page, DocumentPage.page_number page).

Lemma page_ids_S document_name page_number n :
  page_ids document_name page_number (S n)
  = (page_ids document_name page_number n
       ++ [TextChunker._generate_chunk_id document_name page_number (Z.of_nat n)])%list.
Proof. unfold page_ids. rewrite seq_S, map_app. reflexivity. Qed.

Lemma page_ids_NoDup document_name page_number n :
  NoDup (page_ids document_name page_number n).
Proof.
  unfold page_ids. apply NoDup_fmap_2; [|apply NoDup_seq].
  intros i j Hij. apply generate_chunk_id_inj in Hij. lia.
Qed.

Lemma page_ids_elem document_name page_number n id :
  id ∈ page_ids document_name page_number n ->
  exists i, id = TextChunker._generate_chunk_id document_name page_number i.
Proof.
  unfold page_ids. intros H. apply list_elem_of_fmap in H as (i & -> & _). eauto.
Qed.

Section IdFacts.
Variable self : TextChunker.t.
Variables (text document_name : string) (page_number : Z) (is_section : bool).

(** The chunks so far carry the ids of the indices below [chunk_index]. *)
Definition numbered (st : TextChunker.loop_state) : Prop :=
  0 <= TextChunker.chunk_index st
  /\ map TextChunk.chunk_id (TextChunker.chunks st)
     = page_ids document_name page_number (Z.to_nat (TextChunker.chunk_index st)).

Lemma appended_numbered st end_ :
  numbered st -> numbered (appended text document_name page_number is_section st end_).
Proof using Type.
  intros [Hidx Hids]. unfold appended.
  destruct (String.eqb _ EmptyString); [split; assumption|].
  split; simpl; [lia|].
  replace (Z.to_nat (TextChunker.chunk_index st + 1))
    with (S (Z.to_nat (TextChunker.chunk_index st))) by lia.
  rewrite map_app, page_ids_S, Hids. simpl.
  rewrite Z2Nat.id by exact Hidx. reflexivity.
Qed.

Lemma loop_numbered fuel st cs :
  TextChunker.chunk_loop self text document_name page_number is_section fuel st
  = Some (Ok cs) ->
  numbered st ->
  exists n, map TextChunk.chunk_id cs = page_ids document_name page_number n.
Proof using Type.
  revert st. induction fuel as [|fuel IH]; intros st; [discriminate|].
  rewrite loop_unfold, loop_body_unfold.
  destruct (_ <? _).
  - destruct (TextChunker.window_end self text (TextChunker.start st)) as [end_|e];
      [|discriminate].
    cbv zeta. intros H Hst.
    pose proof (appended_numbered st end_ Hst) as [Hidx Hids].
    destruct (_ <=? _).
    + injection H as <-. eauto.
    + apply IH in H; [exact H|]. split; assumption.
  - intros [= <-] [_ Hids]. eauto.
Qed.
End IdFacts.

(** The chunks of one page are numbered from [0]. *)
Lemma chunk_text_ids fuel self text document_name page_number is_section cs :
  TextChunker._chunk_text fuel self text document_name page_number is_section
  = Some (Ok cs) ->
  map TextChunk.chunk_id cs = page_ids document_name page_number (length cs).
Proof.
  intros H.
  assert (exists n, map TextChunk.chunk_id cs = page_ids document_name page_number n)
    as [n Hn].
  { unfold TextChunker._chunk_text in H.
    destruct (_ || _); [injection H as <-; exists 0%nat; reflexivity|].
    cbv zeta in H. destruct (_ <=? _).
    - injection H as <-. exists 1%nat. reflexivity.
    - eapply loop_numbered; [exact H|]. split; [simpl; lia | reflexivity]. }
  rewrite Hn. f_equal.
  apply (f_equal (@length string)) in Hn.
  rewrite length_map in Hn. unfold page_ids in Hn.
  rewrite length_map, length_seq in Hn. congruence.
Qed.

Lemma chunk_text_fuel_mono fuel fuel' self text document_name page_number
    is_section r :
  (fuel <= fuel')%nat ->
  TextChunker._chunk_text fuel self text document_name page_number is_section
  = Some r ->
  TextChunker._chunk_text fuel' self text document_name page_number is_section
  = Some r.
Proof.
  intros Hle. unfold TextChunker._chunk_text.
  destruct (_ || _); [auto|]. cbv zeta. destruct (_ <=? _); [auto|].
  apply loop_fuel_mono, Hle.
Qed.

Lemma chunk_pages_fuel_mono fuel fuel' self pages r :
  (fuel <= fuel')%nat ->
  TextChunker.chunk_pages fuel self pages = Some r ->
  TextChunker.chunk_pages fuel' self pages = Some r.
Proof.
  intros Hle. revert r. induction pages as [|page pages IH]; intros r; simpl; [auto|].
  destruct (TextChunker._chunk_text fuel _ _ _ _ _) as [r1|] eqn:H1; [|discriminate].
  rewrite (chunk_text_fuel_mono fuel fuel' _ _ _ _ _ r1 Hle H1).
  destruct r1 as [cs|e]; [|auto].
  destruct (TextChunker.chunk_pages fuel self pages) as [r2|]; [|discriminate].
  rewrite (IH r2 eq_refl). auto.
Qed.

(** The ids of a run: page after page, each page numbered from [0]. *)
Lemma chunk_pages_ids fuel self pages cs :
  TextChunker.chunk_pages fuel self pages = Some (Ok cs) ->
  exists counts,
    length counts = length pages
    /\ map TextChunk.chunk_id cs
       = concat (zip_with
                   (fun page n =>
                      page_ids (DocumentPage.document_name page)
                               (DocumentPage.page_number page) n)
                   pages counts).
Proof.
  revert cs. induction pages as [|page pages IH]; intros cs; simpl.
  - intros [= <-]. exists []. split; reflexivity.
  - destruct (TextChunker._chunk_text fuel _ _ _ _ _) as [[cs1|e]|] eqn:H1;
      try discriminate.
    destruct (TextChunker.chunk_pages fuel self pages) as [[cs2|e]|];
      try discriminate.
    intros [= <-]. destruct (IH cs2 eq_refl) as (counts & Hlen & Hids).
    exists (length cs1 :: counts). split; [simpl; congruence|].
    simpl. rewrite map_app, Hids, (chunk_text_ids _ _ _ _ _ _ _ H1). reflexivity.
Qed.

Lemma run_ids_elem pages counts id :
  id ∈ concat (zip_with
                 (fun page n =>
                    page_ids (DocumentPage.document_name page)
                             (DocumentPage.page_number page) n)
                 pages counts) ->
  exists page i,
    page ∈ pages
    /\ id = TextChunker._generate_chunk_id (DocumentPage.document_name page)
              (DocumentPage.page_number page) i.
Proof.
  revert counts. induction pages as [|page pages IH]; intros [|n counts]; simpl;
    try (intros H; inversion H; fail).
  intros H. apply elem_of_app in H as [H | H].
  - apply page_ids_elem in H as [i ->]. exists page, i. split; [left | reflexivity].
  - apply IH in H as (page' & i & Hin & ->). exists page', i.
    split; [right; exact Hin | reflexivity].
Qed.

Lemma run_ids_NoDup pages counts :
  NoDup (map page_key pages) ->
  NoDup (concat (zip_with
                   (fun page n =>
                      page_ids (DocumentPage.document_name page)
                               (DocumentPage.page_number page) n)
                   pages counts)).
Proof.
  revert counts. induction pages as [|page pages IH]; intros counts Hkeys.
  - constructor.
  - destruct counts as [|n counts]; [constructor|]. simpl.
    apply NoDup_cons in Hkeys as [Hfresh Hkeys].
    apply NoDup_app. split; [apply page_ids_NoDup|]. split; [|apply IH, Hkeys].
    intros id Hid Hrest. apply page_ids_elem in Hid as [i ->].
    apply run_ids_elem in Hrest as (page' & i' & Hin & Heq).
    apply generate_chunk_id_inj in Heq as (Hname & Hnum & _).
    apply Hfresh. apply list_elem_of_fmap. exists page'. split; [|exact Hin].
    unfold page_key. congruence.
Qed.

(** ** C8: uniqueness and determinism of chunk ids *)

Definition default_chunker : TextChunker.t :=
  {| TextChunker.chunk_size := 500; TextChunker.chunk_overlap := 50 |}.

Definition paris_page : DocumentPage.t :=
  {| DocumentPage.document_name := "a.txt";
     DocumentPage.page_number := 1;
     DocumentPage.text := "Paris is the capital of France. It is in Europe.";
     DocumentPage.is_section := false |}.

Definition rome_page : DocumentPage.t :=
  {| DocumentPage.document_name := "a.txt";
     DocumentPage.page_number := 2;
     DocumentPage.text := "Rome is the capital of Italy.";
     DocumentPage.is_section := false |}.

Definition paris_text_chunk : TextChunk.t :=
  {| TextChunk.document_name := "a.txt";
     TextChunk.page_number := 1;
     TextChunk.chunk_id := "a.txt_p1_c0_7aaf30b1";
     TextChunk.text := "Paris is the capital of France. It is in Europe.";
     TextChunk.is_section := false |}.

Definition rome_text_chunk : TextChunk.t :=
  {| TextChunk.document_name := "a.txt";
     TextChunk.page_number := 2;
     TextChunk.chunk_id := "a.txt_p2_c0_192a44b6";
     TextChunk.text := "Rome is the capital of Italy.";
     TextChunk.is_section := false |}.

(** The scenario of the specification: one page, one chunk. *)
Example scenario_single_chunk :
  TextChunker.chunk_pages 1 default_chunker [paris_page]
  = Some (Ok [paris_text_chunk]).
Proof. vm_compute. reflexivity. Qed.

(** C8 fails as stated: a list that holds the same page twice gives two
    chunks with one id. *)
Lemma chunk_ids_counterexample :
  TextChunker.chunk_pages 1 default_chunker [paris_page; paris_page]
  = Some (Ok [paris_text_chunk; paris_text_chunk])
  /\ ~ NoDup (map TextChunk.chunk_id [paris_text_chunk; paris_text_chunk]).
Proof.
  split; [vm_compute; reflexivity|].
  intros H. apply NoDup_cons in H as [H _]. apply H. left.
Qed.

(** C8, amended: for every list of pages no two of which share both
    [document_name] and [page_number], the chunk ids of all chunks produced
    by one chunking run are pairwise distinct. For every list of pages the
    ids are those of the pages in order, each page numbered from index [0],
    every id being [_generate_chunk_id] of the page's [document_name], its
    [page_number] and the index; and a second run over the same pages with
    the same configuration gives the same chunks, hence the same ids. *)
Theorem chunk_ids_unique_and_determined
    (fuel : nat) (self : TextChunker.t) (pages : list DocumentPage.t)
    (chunks : list TextChunk.t) :
  TextChunker.chunk_pages fuel self pages = Some (Ok chunks) ->
  (NoDup (map page_key pages) -> NoDup (map TextChunk.chunk_id chunks))
  /\ (exists counts,
         length counts = length pages
         /\ map TextChunk.chunk_id chunks
            = concat (zip_with
                        (fun page n =>
                           page_ids (DocumentPage.document_name page)
                                    (DocumentPage.page_number page) n)
                        pages counts))
  /\ (forall fuel' r,
         TextChunker.chunk_pages fuel' self pages = Some r -> r = Ok chunks).
Proof.
  intros Hrun. destruct (chunk_pages_ids fuel self pages chunks Hrun)
    as (counts & Hlen & Hids).
  split; [|split].
  - intros Hkeys. rewrite Hids. apply run_ids_NoDup, Hkeys.
  - exists counts. split; assumption.
  - intros fuel' r Hrun'.
    pose proof (chunk_pages_fuel_mono fuel (Nat.max fuel fuel') self pages _
                  (Nat.le_max_l _ _) Hrun) as H1.
    pose proof (chunk_pages_fuel_mono fuel' (Nat.max fuel fuel') self pages _
                  (Nat.le_max_r _ _) Hrun') as H2.
    congruence.
Qed.

Lemma chunk_ids_unique_and_determined_witness :
  (NoDup (map page_key [paris_page; rome_page]) ->
   NoDup (map TextChunk.chunk_id [paris_text_chunk; rome_text_chunk]))
  /\ (exists counts,
         length counts = length [paris_page; rome_page]
         /\ map TextChunk.chunk_id [paris_text_chunk; rome_text_chunk]
            = concat (zip_with
                        (fun page n =>
                           page_ids (DocumentPage.document_name page)
                                    (DocumentPage.page_number page) n)
                        [paris_page; rome_page] counts))
  /\ (forall fuel' r,
         TextChunker.chunk_pages fuel' default_chunker [paris_page; rome_page]
         = Some r ->
         r = Ok [paris_text_chunk; rome_text_chunk]).
Proof.
  apply (chunk_ids_unique_and_determined 1 default_chunker
           [paris_page; rome_page] [paris_text_chunk; rome_text_chunk]).
  vm_compute. reflexivity.
Defined.

(** * Further properties of the pipeline *)

(** ** Trimmed strings and occurrences *)

(** [sub] occurs in [s] as a contiguous run of characters. *)
Definition occurs_in (sub s : string) : Prop :=
  exists pre post, chars_of s = (pre ++ chars_of sub ++ post)%list.

Lemma occurs_in_refl s : occurs_in s s.
Proof. exists [], []. simpl. rewrite app_nil_r. reflexivity. Qed.

Lemma occurs_in_trans a b c : occurs_in a b -> occurs_in b c -> occurs_in a c.
Proof.
  intros (p1 & q1 & H1) (p2 & q2 & H2).
  exists (p2 ++ p1)%list, (q1 ++ q2)%list.
  rewrite H2, H1, <- !app_assoc. reflexivity.
Qed.

Lemma occurs_in_cons c sub s : occurs_in sub s -> occurs_in sub (String c s).
Proof.
  intros (pre & post & H). exists (c :: pre), post. simpl. rewrite H. reflexivity.
Qed.

Lemma substring_prefix m s :
  exists post, chars_of s = (chars_of (String.substring 0 m s) ++ post)%list.
Proof.
  revert m. induction s as [|c s IH]; intros [|m]; simpl.
  - exists []. reflexivity.
  - exists []. reflexivity.
  - exists (c :: chars_of s). reflexivity.
  - destruct (IH m) as [post H]. exists post. simpl. rewrite <- H. reflexivity.
Qed.

Lemma substring_occurs n m s : occurs_in (String.substring n m s) s.
Proof.
  revert n. induction s as [|c s IH]; intros n.
  - destruct n, m; apply occurs_in_refl.
  - destruct n as [|n].
    + destruct (substring_prefix m (String c s)) as [post H].
      exists [], post. exact H.
    + simpl. apply occurs_in_cons, IH.
Qed.

Lemma slice_occurs s i j : occurs_in (PyStr.slice s i j) s.
Proof. unfold PyStr.slice. apply substring_occurs. Qed.

Lemma lstrip_occurs s : occurs_in (PyStr.lstrip s) s.
Proof.
  induction s as [|c s IH]; simpl; [apply occurs_in_refl|].
  destruct (PyStr.isspace c); [apply occurs_in_cons, IH | apply occurs_in_refl].
Qed.

Lemma rstrip_prefix s :
  exists post, chars_of s = (chars_of (PyStr.rstrip s) ++ post)%list.
Proof.
  induction s as [|c s [post IH]]; simpl; [exists []; reflexivity|].
  destruct (PyStr.rstrip s) as [|d r] eqn:Hr.
  - destruct (PyStr.isspace c); simpl.
    + exists (c :: chars_of s). reflexivity.
    + exists (chars_of s). reflexivity.
  - exists post. simpl in *. rewrite IH. reflexivity.
Qed.

Lemma rstrip_occurs s : occurs_in (PyStr.rstrip s) s.
Proof. destruct (rstrip_prefix s) as [post H]. exists [], post. exact H. Qed.

Lemma strip_occurs s : occurs_in (PyStr.strip s) s.
Proof.
  unfold PyStr.strip. eapply occurs_in_trans; [apply rstrip_occurs | apply lstrip_occurs].
Qed.

(** A string without whitespace at either end. *)
Definition trimmed (s : string) : Prop := PyStr.strip s = s.

Lemma lstrip_head s :
  PyStr.lstrip s = EmptyString
  \/ exists c t, PyStr.lstrip s = String c t /\ PyStr.isspace c = false.
Proof.
  induction s as [|c s IH]; simpl; [left; reflexivity|].
  destruct (PyStr.isspace c) eqn:Hc; [exact IH|]. right. eauto.
Qed.

Lemma rstrip_cons c s :
  PyStr.rstrip (String c s)
  = match PyStr.rstrip s with
    | EmptyString => if PyStr.isspace c then EmptyString else String c EmptyString
    | String d r => String c (String d r)
    end.
Proof. reflexivity. Qed.

Lemma rstrip_idem s : PyStr.rstrip (PyStr.rstrip s) = PyStr.rstrip s.
Proof.
  induction s as [|c s IH]; [reflexivity|]. rewrite rstrip_cons.
  destruct (PyStr.rstrip s) as [|d r] eqn:Hr.
  - destruct (PyStr.isspace c) eqn:Hc; [reflexivity|].
    rewrite rstrip_cons. simpl. rewrite Hc. reflexivity.
  - rewrite rstrip_cons, IH. reflexivity.
Qed.

Lemma rstrip_keeps_head c t :
  PyStr.isspace c = false ->
  exists r, PyStr.rstrip (String c t) = String c r.
Proof.
  intros Hc. rewrite rstrip_cons. destruct (PyStr.rstrip t); [rewrite Hc|]; eauto.
Qed.

Lemma strip_trimmed s : trimmed (PyStr.strip s).
Proof.
  unfold trimmed, PyStr.strip.
  destruct (lstrip_head s) as [-> | (c & t & -> & Hc)]; [reflexivity|].
  destruct (rstrip_keeps_head c t Hc) as [r Hr]. rewrite Hr.
  cbn [PyStr.lstrip]. rewrite Hc, <- Hr. apply rstrip_idem.
Qed.

(** A trimmed string that is not empty starts and ends with a character
    that is not whitespace. *)
Lemma trimmed_head s :
  trimmed s -> s <> EmptyString ->
  exists c t, s = String c t /\ PyStr.isspace c = false.
Proof.
  unfold trimmed, PyStr.strip. intros Hs Hne.
  destruct (lstrip_head s) as [He | (c & t & Hl & Hc)].
  - rewrite He in Hs. simpl in Hs. congruence.
  - rewrite Hl in Hs. destruct (rstrip_keeps_head c t Hc) as [r Hr].
    rewrite Hr in Hs. eauto.
Qed.

(** ** The chunker: what every chunk carries *)

(** A chunk cut from a page with text [page_text]. *)
Definition chunk_of_page (page_text document_name : string) (page_number : Z)
    (is_section : bool) (c : TextChunk.t) : Prop :=
  TextChunk.document_name c = document_name
  /\ TextChunk.page_number c = page_number
  /\ TextChunk.is_section c = is_section
  /\ (exists i, 0 <= i
                /\ TextChunk.chunk_id c
                   = TextChunker._generate_chunk_id document_name page_number i)
  /\ TextChunk.text c <> EmptyString
  /\ trimmed (TextChunk.text c)
  /\ occurs_in (TextChunk.text c) page_text.

Section ChunkShape.
Variable self : TextChunker.t.
Variables (text document_name : string) (page_number : Z) (is_section : bool).

Let shaped (st : TextChunker.loop_state) : Prop :=
  0 <= TextChunker.chunk_index st
  /\ Forall (chunk_of_page text document_name page_number is_section)
            (TextChunker.chunks st).

Lemma appended_shaped st end_ :
  shaped st -> shaped (appended text document_name page_number is_section st end_).
Proof using Type.
  intros [Hidx Hall]. unfold appended.
  destruct (String.eqb _ EmptyString) eqn:Hempty; [split; assumption|].
  split; simpl; [lia|]. apply Forall_app. split; [exact Hall|].
  constructor; [|constructor]. unfold chunk_of_page. simpl.
  repeat split; try reflexivity.
  - eauto.
  - intros He. rewrite He in Hempty. discriminate.
  - apply strip_trimmed.
  - eapply occurs_in_trans; [apply strip_occurs | apply slice_occurs].
Qed.

Lemma loop_shaped fuel st cs :
  TextChunker.chunk_loop self text document_name page_number is_section fuel st
  = Some (Ok cs) ->
  shaped st ->
  Forall (chunk_of_page text document_name page_number is_section) cs.
Proof using Type.
  revert st. induction fuel as [|fuel IH]; intros st; [discriminate|].
  rewrite loop_unfold, loop_body_unfold.
  destruct (_ <? _).
  - destruct (TextChunker.window_end self text (TextChunker.start st)) as [end_|e];
      [|discriminate].
    cbv zeta. intros H Hst.
    pose proof (appended_shaped st end_ Hst) as [Hidx Hall].
    destruct (_ <=? _).
    + injection H as <-. exact Hall.
    + apply IH in H; [exact H|]. split; assumption.
  - intros [= <-] [_ Hall]. exact Hall.
Qed.
End ChunkShape.

Lemma chunk_of_page_weaken sub page_text document_name page_number is_section c :
  occurs_in sub page_text ->
  chunk_of_page sub document_name page_number is_section c ->
  chunk_of_page page_text document_name page_number is_section c.
Proof.
  intros Hsub (H1 & H2 & H3 & H4 & H5 & H6 & H7).
  repeat split; try assumption. eapply occurs_in_trans; eassumption.
Qed.

Lemma chunk_text_shaped fuel self text document_name page_number is_section cs :
  TextChunker._chunk_text fuel self text document_name page_number is_section
  = Some (Ok cs) ->
  Forall (chunk_of_page text document_name page_number is_section) cs.
Proof.
  unfold TextChunker._chunk_text.
  destruct (String.eqb text EmptyString || _) eqn:Hblank;
    [intros [= <-]; constructor|].
  apply orb_false_elim in Hblank as [_ Hstrip].
  cbv zeta. destruct (_ <=? _).
  - intros [= <-]. constructor; [|constructor]. unfold chunk_of_page. simpl.
    repeat split; try reflexivity.
    + exists 0. split; [lia | reflexivity].
    + intros He. rewrite He in Hstrip. discriminate.
    + apply strip_trimmed.
    + apply strip_occurs.
  - intros H. apply loop_shaped in H; [|split; [simpl; lia | constructor]].
    eapply Forall_impl; [exact H|]. intros c.
    apply chunk_of_page_weaken, strip_occurs.
Qed.

Lemma chunk_pages_shaped fuel self pages cs :
  TextChunker.chunk_pages fuel self pages = Some (Ok cs) ->
  Forall
    (fun c =>
       exists page,
         page ∈ pages
         /\ chunk_of_page (DocumentPage.text page) (DocumentPage.document_name page)
              (DocumentPage.page_number page) (DocumentPage.is_section page) c)
    cs.
Proof.
  revert cs. induction pages as [|page pages IH]; intros cs; simpl.
  - intros [= <-]. constructor.
  - destruct (TextChunker._chunk_text fuel _ _ _ _ _) as [[cs1|e]|] eqn:H1;
      try discriminate.
    destruct (TextChunker.chunk_pages fuel self pages) as [[cs2|e]|];
      try discriminate.
    intros [= <-]. apply Forall_app. split.
    + apply chunk_text_shaped in H1. eapply Forall_impl; [exact H1|].
      intros c Hc. exists page. split; [left | exact Hc].
    + eapply Forall_impl; [apply IH; reflexivity|].
      intros c (page' & Hin & Hc). exists page'. split; [right; exact Hin | exact Hc].
Qed.

(** X1: every chunk of a run carries the [document_name], [page_number] and
    [is_section] of one of the pages, unchanged, and its id is the one
    generated for that page's name and number and an index from [0] up. *)
Theorem chunks_inherit_page_metadata
    (fuel : nat) (self : TextChunker.t) (pages : list DocumentPage.t)
    (chunks : list TextChunk.t) :
  TextChunker.chunk_pages fuel self pages = Some (Ok chunks) ->
  Forall
    (fun c =>
       exists page i,
         page ∈ pages
         /\ TextChunk.document_name c = DocumentPage.document_name page
         /\ TextChunk.page_number c = DocumentPage.page_number page
         /\ TextChunk.is_section c = DocumentPage.is_section page
         /\ 0 <= i
         /\ TextChunk.chunk_id c
            = TextChunker._generate_chunk_id (DocumentPage.document_name page)
                (DocumentPage.page_number page) i)
    chunks.
Proof.
  intros H. eapply Forall_impl; [apply (chunk_pages_shaped _ _ _ _ H)|].
  intros c (page & Hin & H1 & H2 & H3 & (i & Hi & Hid) & _).
  exists page, i. auto 10.
Qed.

(** X2: no chunk of a run has an empty text, and no chunk text starts or
    ends with whitespace: stripping it again changes nothing. *)
Theorem chunk_texts_are_trimmed_and_not_empty
    (fuel : nat) (self : TextChunker.t) (pages : list DocumentPage.t)
    (chunks : list TextChunk.t) :
  TextChunker.chunk_pages fuel self pages = Some (Ok chunks) ->
  Forall
    (fun c =>
       1 <= PyStr.len (TextChunk.text c)
       /\ PyStr.strip (TextChunk.text c) = TextChunk.text c
       /\ exists first rest,
            TextChunk.text c = String first rest /\ PyStr.isspace first = false)
    chunks.
Proof.
  intros H. eapply Forall_impl; [apply (chunk_pages_shaped _ _ _ _ H)|].
  intros c (page & _ & _ & _ & _ & _ & Hne & Htrim & _).
  split; [|split; [exact Htrim | apply trimmed_head; assumption]].
  apply len_empty_iff. destruct (TextChunk.text c); [congruence | reflexivity].
Qed.

(** X3: the text of every chunk occurs, character for character and in one
    piece, in the text of a page of the input that has the chunk's
    [document_name], [page_number] and [is_section], and from whose name
    and number the chunk's id is generated. *)
Theorem chunk_text_occurs_in_its_page
    (fuel : nat) (self : TextChunker.t) (pages : list DocumentPage.t)
    (chunks : list TextChunk.t) :
  TextChunker.chunk_pages fuel self pages = Some (Ok chunks) ->
  Forall
    (fun c =>
       exists page i,
         page ∈ pages
         /\ TextChunk.document_name c = DocumentPage.document_name page
         /\ TextChunk.page_number c = DocumentPage.page_number page
         /\ TextChunk.is_section c = DocumentPage.is_section page
         /\ 0 <= i
         /\ TextChunk.chunk_id c
            = TextChunker._generate_chunk_id (DocumentPage.document_name page)
                (DocumentPage.page_number page) i
         /\ occurs_in (TextChunk.text c) (DocumentPage.text page))
    chunks.
Proof.
  intros H. eapply Forall_impl; [apply (chunk_pages_shaped _ _ _ _ H)|].
  intros c (page & Hin & H1 & H2 & H3 & (i & Hi & Hid) & _ & _ & Hocc).
  exists page, i. auto 10.
Qed.

(** Two pages and their chunks under [chunk_size = 100], [overlap = 20]. *)
Definition sample_pages : list DocumentPage.t :=
  [ paris_page;
    {| DocumentPage.document_name := "b.docx";
       DocumentPage.page_number := 3;
       DocumentPage.text := "  " +:+ str_mul "This is a sentence. " 10;
       DocumentPage.is_section := true |} ].

Definition sample_run : list TextChunk.t :=
  Eval vm_compute in
    match TextChunker.chunk_pages 300 test_chunker sample_pages with
    | Some (Ok cs) => cs
    | _ => []
    end.

Example sample_run_has_three_chunks :
  map TextChunk.chunk_id sample_run
  = [ "a.txt_p1_c0_7aaf30b1"; "b.docx_p3_c0_310a5dc2"; "b.docx_p3_c1_4c2e478b" ].
Proof. vm_compute. reflexivity. Qed.

Lemma chunks_inherit_page_metadata_witness :
  Forall
    (fun c =>
       exists page i,
         page ∈ sample_pages
         /\ TextChunk.document_name c = DocumentPage.document_name page
         /\ TextChunk.page_number c = DocumentPage.page_number page
         /\ TextChunk.is_section c = DocumentPage.is_section page
         /\ 0 <= i
         /\ TextChunk.chunk_id c
            = TextChunker._generate_chunk_id (DocumentPage.document_name page)
                (DocumentPage.page_number page) i)
    sample_run.
Proof.
  apply (chunks_inherit_page_metadata 300 test_chunker sample_pages sample_run).
  vm_compute. reflexivity.
Defined.

Lemma chunk_texts_are_trimmed_and_not_empty_witness :
  Forall
    (fun c =>
       1 <= PyStr.len (TextChunk.text c)
       /\ PyStr.strip (TextChunk.text c) = TextChunk.text c
       /\ exists first rest,
            TextChunk.text c = String first rest /\ PyStr.isspace first = false)
    sample_run.
Proof.
  apply (chunk_texts_are_trimmed_and_not_empty 300 test_chunker sample_pages
           sample_run).
  vm_compute. reflexivity.
Defined.

Lemma chunk_text_occurs_in_its_page_witness :
  Forall
    (fun c =>
       exists page i,
         page ∈ sample_pages
         /\ TextChunk.document_name c = DocumentPage.document_name page
         /\ TextChunk.page_number c = DocumentPage.page_number page
         /\ TextChunk.is_section c = DocumentPage.is_section page
         /\ 0 <= i
         /\ TextChunk.chunk_id c
            = TextChunker._generate_chunk_id (DocumentPage.document_name page)
                (DocumentPage.page_number page) i
         /\ occurs_in (TextChunk.text c) (DocumentPage.text page))
    sample_run.
Proof.
  apply (chunk_text_occurs_in_its_page 300 test_chunker sample_pages sample_run).
  vm_compute. reflexivity.
Defined.

(** ** The chunker: runs that always end *)

(** The longest stretch without a space, newline or tab in any page. *)
Definition pages_longest_run (pages : list DocumentPage.t) : nat :=
  foldr (fun page acc =>
           Nat.max (longest_run (PyStr.strip (DocumentPage.text page))) acc)
        0%nat pages.

(** Rounds that are enough for every page. *)
Definition enough_fuel (fuel : nat) (pages : list DocumentPage.t) : Prop :=
  Forall
    (fun page =>
       (Z.to_nat (PyStr.len (PyStr.strip (DocumentPage.text page))) < fuel)%nat)
    pages.

Lemma within_bound_mono bound bound' c :
  bound <= bound' -> within_bound bound c -> within_bound bound' c.
Proof. unfold within_bound. lia. Qed.

Lemma chunk_text_total self text document_name page_number is_section :
  0 <= TextChunker.chunk_overlap self ->
  TextChunker.chunk_overlap self + 48 < TextChunker.chunk_size self ->
  exists cs,
    (forall fuel,
        (Z.to_nat (PyStr.len (PyStr.strip text)) < fuel)%nat ->
        TextChunker._chunk_text fuel self text document_name page_number is_section
        = Some (Ok cs))
    /\ Forall
         (within_bound (TextChunker.chunk_size self
                        + Z.max 50 (Z.of_nat (longest_run (PyStr.strip text)))))
         cs.
Proof.
  intros Hov Hsize.
  destruct (String.eqb text EmptyString || String.eqb (PyStr.strip text) EmptyString)
    eqn:Hblank.
  { exists []. split; [|constructor]. intros fuel _.
    unfold TextChunker._chunk_text. rewrite Hblank. reflexivity. }
  apply orb_false_elim in Hblank as Hparts. destruct Hparts as [_ Hstrip].
  apply len_empty_iff in Hstrip.
  destruct (Z.leb_spec (PyStr.len (PyStr.strip text)) (TextChunker.chunk_size self))
    as [Hshort | Hlong].
  - eexists. split.
    + intros fuel _. unfold TextChunker._chunk_text. rewrite Hblank. cbv zeta.
      destruct (Z.leb_spec (PyStr.len (PyStr.strip text))
                  (TextChunker.chunk_size self)); [reflexivity | lia].
    + constructor; [|constructor]. unfold within_bound. simpl. lia.
  - destruct (loop_terminates self (PyStr.strip text) document_name page_number
                is_section (S (Z.to_nat (PyStr.len (PyStr.strip text))))
                initial_state ltac:(lia) (or_intror Hsize))
      as (cs & Hcs & Hall); [simpl; lia | simpl; lia | constructor |].
    exists cs. split; [|exact Hall].
    intros fuel Hfuel. rewrite chunk_text_long by lia.
    eapply loop_fuel_mono; [|exact Hcs]. lia.
Qed.

(** X4: with [0 <= overlap] and [chunk_size >= overlap + 49], chunking any
    list of pages ends without an exception, within one round more than the
    longest trimmed page has characters, and every chunk of the run has
    between 1 and [chunk_size + max(50, w)] characters, [w] being the
    longest stretch without a space, newline or tab in any page. *)
Theorem chunk_pages_terminates_within_bound
    (self : TextChunker.t) (pages : list DocumentPage.t) :
  0 <= TextChunker.chunk_overlap self ->
  TextChunker.chunk_overlap self + 48 < TextChunker.chunk_size self ->
  exists chunks,
    (forall fuel,
        enough_fuel fuel pages ->
        TextChunker.chunk_pages fuel self pages = Some (Ok chunks))
    /\ Forall
         (fun c =>
            1 <= PyStr.len (TextChunk.text c)
            <= TextChunker.chunk_size self
               + Z.max 50 (Z.of_nat (pages_longest_run pages)))
         chunks.
Proof.
  intros Hov Hsize. induction pages as [|page pages (rest & Hrest & Hbound)].
  - exists []. split; [reflexivity | constructor].
  - destruct (chunk_text_total self (DocumentPage.text page)
                (DocumentPage.document_name page) (DocumentPage.page_number page)
                (DocumentPage.is_section page) Hov Hsize)
      as (cs & Hcs & Hall).
    exists (cs ++ rest)%list. split.
    + intros fuel Hfuel. apply Forall_cons in Hfuel as [Hpage Hpages].
      simpl. rewrite (Hcs fuel Hpage), (Hrest fuel Hpages). reflexivity.
    + apply Forall_app. split.
      * eapply Forall_impl; [exact Hall|]. intros c.
        apply within_bound_mono. simpl. lia.
      * eapply Forall_impl; [exact Hbound|]. intros c.
        apply within_bound_mono. simpl. lia.
Qed.

Lemma chunk_pages_terminates_within_bound_witness :
  exists chunks,
    (forall fuel,
        enough_fuel fuel sample_pages ->
        TextChunker.chunk_pages fuel test_chunker sample_pages = Some (Ok chunks))
    /\ Forall
         (fun c =>
            1 <= PyStr.len (TextChunk.text c)
            <= TextChunker.chunk_size test_chunker
               + Z.max 50 (Z.of_nat (pages_longest_run sample_pages)))
         chunks.
Proof.
  apply (chunk_pages_terminates_within_bound test_chunker sample_pages).
  - vm_compute. congruence.
  - vm_compute. reflexivity.
Defined.

(** ** The chunker: short pages and page independence *)

(** The only chunk of a page that fits one window. *)
Definition whole_page_chunk (page : DocumentPage.t) : TextChunk.t :=
  {| TextChunk.document_name := DocumentPage.document_name page;
     TextChunk.page_number := DocumentPage.page_number page;
     TextChunk.chunk_id :=
       TextChunker._generate_chunk_id (DocumentPage.document_name page)
         (DocumentPage.page_number page) 0;
     TextChunk.text := PyStr.strip (DocumentPage.text page);
     TextChunk.is_section := DocumentPage.is_section page |}.

(** A page with something other than whitespace. *)
Definition not_blank (page : DocumentPage.t) : Prop :=
  PyStr.strip (DocumentPage.text page) <> EmptyString.

Global Instance not_blank_dec page : Decision (not_blank page).
Proof. unfold not_blank. apply _. Defined.

Lemma strip_of_empty text :
  String.eqb text EmptyString = true -> PyStr.strip text = EmptyString.
Proof. intros H. apply String.eqb_eq in H. subst. reflexivity. Qed.

(** X5: when the trimmed text of every page fits in [chunk_size], a run
    gives exactly one chunk for each page that is not blank, in the order
    of the pages, with index [0] and the trimmed text of the page as its
    text; blank pages give nothing. No round of the loop is needed. *)
Theorem short_pages_give_one_chunk_each
    (fuel : nat) (self : TextChunker.t) (pages : list DocumentPage.t) :
  Forall
    (fun page =>
       PyStr.len (PyStr.strip (DocumentPage.text page)) <= TextChunker.chunk_size self)
    pages ->
  TextChunker.chunk_pages fuel self pages
  = Some (Ok (map whole_page_chunk (filter not_blank pages))).
Proof.
  induction pages as [|page pages IH]; intros Hshort; [reflexivity|].
  apply Forall_cons in Hshort as [Hpage Hpages].
  simpl. rewrite (IH Hpages). unfold TextChunker._chunk_text.
  destruct (String.eqb (DocumentPage.text page) EmptyString
            || String.eqb (PyStr.strip (DocumentPage.text page)) EmptyString)
    eqn:Hblank.
  - rewrite filter_cons_False; [reflexivity|].
    unfold not_blank. intros Hne. apply Hne.
    apply orb_prop in Hblank as [H | H];
      [apply strip_of_empty, H | apply String.eqb_eq, H].
  - apply orb_false_elim in Hblank as [_ Hstrip].
    rewrite filter_cons_True by (unfold not_blank; apply String.eqb_neq, Hstrip).
    cbv zeta.
    destruct (Z.leb_spec (PyStr.len (PyStr.strip (DocumentPage.text page)))
                (TextChunker.chunk_size self)); [reflexivity | lia].
Qed.

Definition blank_page : DocumentPage.t :=
  {| DocumentPage.document_name := "a.txt";
     DocumentPage.page_number := 3;
     DocumentPage.text := "   ";
     DocumentPage.is_section := false |}.

Lemma short_pages_give_one_chunk_each_witness :
  TextChunker.chunk_pages 0 default_chunker [paris_page; blank_page; rome_page]
  = Some (Ok (map whole_page_chunk
                  (filter not_blank [paris_page; blank_page; rome_page]))).
Proof.
  apply (short_pages_give_one_chunk_each 0 default_chunker
           [paris_page; blank_page; rome_page]).
  repeat constructor; vm_compute; congruence.
Defined.

(** X6: pages are chunked independently of each other. A run over two
    lists of pages, one after the other, gives the chunks of the first list
    followed by those of the second; if the second list fails or does not
    end, so does the whole run. *)
Theorem chunk_pages_of_appended_lists
    (fuel : nat) (self : TextChunker.t) (first second : list DocumentPage.t)
    (chunks : list TextChunk.t) :
  TextChunker.chunk_pages fuel self first = Some (Ok chunks) ->
  TextChunker.chunk_pages fuel self (first ++ second)
  = match TextChunker.chunk_pages fuel self second with
    | Some (Ok more) => Some (Ok (chunks ++ more)%list)
    | Some (Raise e) => Some (Raise e)
    | None => None
    end.
Proof.
  revert chunks. induction first as [|page first IH]; intros chunks; simpl.
  - intros [= <-]. destruct (TextChunker.chunk_pages fuel self second) as [[?|?]|];
      reflexivity.
  - destruct (TextChunker._chunk_text fuel _ _ _ _ _) as [[cs1|e]|]; try discriminate.
    destruct (TextChunker.chunk_pages fuel self first) as [[cs2|e]|];
      try discriminate.
    intros [= <-]. rewrite (IH cs2 eq_refl).
    destruct (TextChunker.chunk_pages fuel self second) as [[more|e]|];
      [rewrite app_assoc|..]; reflexivity.
Qed.

Lemma chunk_pages_of_appended_lists_witness :
  TextChunker.chunk_pages 1 default_chunker ([paris_page] ++ [rome_page])
  = match TextChunker.chunk_pages 1 default_chunker [rome_page] with
    | Some (Ok more) => Some (Ok ([paris_text_chunk] ++ more)%list)
    | Some (Raise e) => Some (Raise e)
    | None => None
    end.
Proof.
  apply (chunk_pages_of_appended_lists 1 default_chunker [paris_page] [rome_page]
           [paris_text_chunk]).
  vm_compute. reflexivity.
Defined.

(** ** The format of a chunk id *)

Definition hex_chars : string := "0123456789abcdef".

Lemma get_char_in n s c : String.get n s = Some c -> PyStr.char_in c s = true.
Proof.
  revert n. induction s as [|d s IH]; intros n; [destruct n; discriminate|].
  destruct n as [|n]; simpl.
  - intros [= ->]. rewrite Ascii.eqb_refl. reflexivity.
  - intros H. rewrite (IH n H). apply orb_true_r.
Qed.

Lemma hex_digit_is_hex n : PyStr.char_in (MD5.hex_digit n) hex_chars = true.
Proof.
  unfold MD5.hex_digit.
  destruct (String.get (Z.to_nat n) "0123456789abcdef") as [c|] eqn:Hc;
    [exact (get_char_in _ _ _ Hc) | reflexivity].
Qed.

Lemma hex_all_hex bytes :
  forallb (fun c => PyStr.char_in c hex_chars) (chars_of (MD5.hex bytes)) = true.
Proof.
  induction bytes as [|b bytes IH]; [reflexivity|].
  cbn [MD5.hex fold_right chars_of list_ascii_of_string forallb].
  rewrite !hex_digit_is_hex. exact IH.
Qed.

Lemma substring_prefix_forallb (test : ascii -> bool) m s :
  forallb test (chars_of s) = true ->
  forallb test (chars_of (String.substring 0 m s)) = true.
Proof.
  intros H. destruct (substring_prefix m s) as [post Hpost].
  rewrite Hpost, forallb_app in H. apply andb_prop in H as [H _]. exact H.
Qed.

(** X7: a chunk id is the document name, ["_p"], the page number, ["_c"],
    the index, ["_"] and eight lower-case hexadecimal digits; and the id
    determines the document name, the page number and the index, so two
    ids are equal only for the same chunk of the same page. *)
Theorem chunk_id_determines_origin
    (name1 name2 : string) (page1 page2 index1 index2 : Z) :
  (exists digest,
      TextChunker._generate_chunk_id name1 page1 index1
      = name1 +:+ "_p" +:+ PyStr.of_int page1 +:+ "_c" +:+ PyStr.of_int index1
          +:+ "_" +:+ digest
      /\ String.length digest = 8%nat
      /\ forallb (fun c => PyStr.char_in c hex_chars) (chars_of digest) = true)
  /\ (TextChunker._generate_chunk_id name1 page1 index1
      = TextChunker._generate_chunk_id name2 page2 index2
      <-> name1 = name2 /\ page1 = page2 /\ index1 = index2).
Proof.
  split.
  - eexists. split; [reflexivity|]. split; [apply hash_suffix_length|].
    unfold PyStr.slice_to, PyStr.slice, PyStr.len. rewrite hexdigest_length.
    change (Z.to_nat (PyStr.clamp (Z.of_nat 32) 0)) with 0%nat.
    apply substring_prefix_forallb, hex_all_hex.
  - split; [apply generate_chunk_id_inj|]. intros (-> & -> & ->). reflexivity.
Qed.

(** * Loading documents

    [rag/document_loader.py], class [DocumentLoader]. The parsers ([pypdf],
    [python-docx], the UTF-8 decoder) are not part of the program: a loader
    is modelled on what they hand over, the text extracted from each page
    of a PDF file, the paragraph, table, header and footer texts of a DOCX
    file, the decoded text of a text file. *)

(** What [_load_docx] reads of a [docx.Document]: the [text] of the
    paragraphs, of the cells of each row of each table, and of the
    paragraphs of the header and of the footer of each section; a header
    or footer that is skipped ([if header:]) has no paragraphs here. *)
Module Docx.
Record section : Type := mk_section {
  header : list string;
  footer : list string
}.
Record t : Type := mk {
  paragraphs : list string;
  tables : list (list (list string));
  sections : list section
}.
End Docx.

Module DocumentLoader.

(** The separator ["\n\n"]. *)
Definition paragraph_break : string :=
  String "010"%char (String "010"%char EmptyString).

(** [s.split(sep)] for a separator that is not empty, from left to right:
    [cur] is the piece read so far, [skip] the characters of a separator
    still to pass over. *)
Fixpoint split_go (sep : string) (skip : nat) (cur s : string) : list string :=
  match s with
  | EmptyString => [cur]
  | String c s' =>
      match skip with
      | S k => split_go sep k cur s'
      | O =>
          if String.prefix sep s
          then cur :: split_go sep (String.length sep - 1) EmptyString s'
          else split_go sep 0 (cur +:+ String c EmptyString) s'
      end
  end.

Definition split (s sep : string) : list string := split_go sep 0 EmptyString s.

Definition is_nil {A : Type} (xs : list A) : bool :=
  match xs with
  | [] => true
  | _ :: _ => false
  end.

(** The variables of the loop of [_split_into_pages]. *)
Record split_state : Type := mk_split_state {
  chunks : list string;
  current_chunk : list string;
  current_length : Z
}.

(** The body of [for para in paragraphs]. *)
Definition split_step (max_chars : Z) (st : split_state) (para : string)
  : split_state :=
  if (max_chars <? current_length st + PyStr.len para)
     && negb (is_nil (current_chunk st))
  then {| chunks :=
            (chunks st ++ [String.concat paragraph_break (current_chunk st)])%list;
          current_chunk := [para];
          current_length := PyStr.len para |}
  else {| chunks := chunks st;
          current_chunk := (current_chunk st ++ [para])%list;
          current_length := current_length st + PyStr.len para |}.

(** What is returned after the loop. *)
Definition split_finish (st : split_state) : list string :=
  if is_nil (current_chunk st) then chunks st
  else (chunks st ++ [String.concat paragraph_break (current_chunk st)])%list.

(** [DocumentLoader._split_into_pages] *)
Definition _split_into_pages (text : string) (max_chars : Z) : list string :=
  split_finish
    (fold_left (split_step max_chars) (split text paragraph_break)
       {| chunks := []; current_chunk := []; current_length := 0 |}).

(** [page.extract_text() or ""] *)
Definition text_or_empty (extracted : option string) : string :=
  match extracted with
  | Some text => text
  | None => EmptyString
  end.

(** The loop of [_load_pdf] from page number [page_num] on. *)
Fixpoint pdf_pages (document_name : string) (page_num : Z)
    (extracted : list (option string)) : list DocumentPage.t :=
  match extracted with
  | [] => []
  | raw :: rest =>
      let text := PyStr.strip (text_or_empty raw) in
      let later := pdf_pages document_name (page_num + 1) rest in
      if String.eqb text EmptyString then later
      else {| DocumentPage.document_name := document_name;
              DocumentPage.page_number := page_num;
              DocumentPage.text := text;
              DocumentPage.is_section := false |} :: later
  end.

(** [DocumentLoader._load_pdf] on the texts extracted from [reader.pages]. *)
Definition _load_pdf (document_name : string) (extracted : list (option string))
  : list DocumentPage.t :=
  pdf_pages document_name 1 extracted.

(** The texts of a list that are not empty once stripped. *)
Definition stripped (texts : list string) : list string :=
  List.filter (fun text => negb (String.eqb text EmptyString))
    (map PyStr.strip texts).

(** One row of a table: its cells joined, if it has any. *)
Definition row_parts (row : list string) : list string :=
  match stripped row with
  | [] => []
  | cells => [String.concat " | " cells]
  end.

(** One section: header paragraphs go to the front, footer paragraphs to
    the end. *)
Definition section_parts (parts : list string) (s : Docx.section) : list string :=
  let parts :=
    fold_left (fun parts text => ("[Header] " +:+ text) :: parts)
      (stripped (Docx.header s)) parts in
  fold_left (fun parts text => (parts ++ ["[Footer] " +:+ text])%list)
    (stripped (Docx.footer s)) parts.

Definition all_text_parts (doc : Docx.t) : list string :=
  let parts := stripped (Docx.paragraphs doc) in
  let parts :=
    (parts ++ concat (map (fun table => concat (map row_parts table))
                        (Docx.tables doc)))%list in
  fold_left section_parts (Docx.sections doc) parts.

Definition max_page_chars : Z := 3000.

(** [enumerate(chunks, start=i)] turned into sections. *)
Fixpoint section_pages (document_name : string) (i : Z) (chunks : list string)
  : list DocumentPage.t :=
  match chunks with
  | [] => []
  | chunk :: rest =>
      {| DocumentPage.document_name := document_name;
         DocumentPage.page_number := i;
         DocumentPage.text := chunk;
         DocumentPage.is_section := true |}
        :: section_pages document_name (i + 1) rest
  end.

(** [full_text] of [_load_docx]. *)
Definition full_text (doc : Docx.t) : string :=
  String.concat paragraph_break (all_text_parts doc).

(** [DocumentLoader._load_docx] on the parsed document. *)
Definition _load_docx (document_name : string) (doc : Docx.t)
  : list DocumentPage.t :=
  if String.eqb (full_text doc) EmptyString then []
  else if max_page_chars <? PyStr.len (full_text doc)
       then section_pages document_name 1
              (_split_into_pages (full_text doc) max_page_chars)
       else [{| DocumentPage.document_name := document_name;
                DocumentPage.page_number := 1;
                DocumentPage.text := full_text doc;
                DocumentPage.is_section := true |}].

(** [DocumentLoader._load_txt] on the decoded text. *)
Definition _load_txt (document_name text : string) : list DocumentPage.t :=
  let text := PyStr.strip text in
  if String.eqb text EmptyString then []
  else [{| DocumentPage.document_name := document_name;
           DocumentPage.page_number := 1;
           DocumentPage.text := text;
           DocumentPage.is_section := false |}].

End DocumentLoader.

(** ** Splitting and joining *)

Lemma split_go_not_nil sep skip cur s : DocumentLoader.split_go sep skip cur s <> [].
Proof.
  revert skip cur.
  induction s as [|c s IH]; intros skip cur; cbn [DocumentLoader.split_go];
    [congruence|].
  destruct skip; [|apply IH].
  destruct (String.prefix sep (String c s)); [congruence | apply IH].
Qed.

Lemma join_cons sep x xs :
  xs <> [] -> String.concat sep (x :: xs) = x +:+ sep +:+ String.concat sep xs.
Proof. destruct xs; [congruence | reflexivity]. Qed.

Lemma string_app_assoc (a b c : string) : (a +:+ b) +:+ c = a +:+ (b +:+ c).
Proof. apply chars_of_inj. rewrite !chars_of_app, app_assoc. reflexivity. Qed.

Lemma string_app_nil_r (a : string) : a +:+ EmptyString = a.
Proof. apply chars_of_inj. rewrite chars_of_app. simpl. apply app_nil_r. Qed.

Lemma prefix_drop sep s :
  String.prefix sep s = true -> s = sep +:+ drop_chars (String.length sep) s.
Proof.
  revert s. induction sep as [|c sep IH]; intros s; [reflexivity|].
  destruct s as [|d s]; [discriminate|].
  cbn [String.prefix String.length drop_chars].
  destruct (ascii_dec c d) as [->|]; [|discriminate].
  intros H.
  change (String d s = String d (sep +:+ drop_chars (String.length sep) s)).
  f_equal. exact (IH s H).
Qed.

Lemma split_go_join sep skip cur s :
  sep <> EmptyString ->
  String.concat sep (DocumentLoader.split_go sep skip cur s)
  = cur +:+ drop_chars skip s.
Proof.
  intros Hsep. revert skip cur. induction s as [|c s IH]; intros skip cur.
  - cbn [DocumentLoader.split_go String.concat].
    replace (drop_chars skip EmptyString) with EmptyString
      by (destruct skip; reflexivity).
    rewrite string_app_nil_r. reflexivity.
  - destruct skip as [|k]; [|cbn [DocumentLoader.split_go drop_chars]; apply IH].
    cbn [DocumentLoader.split_go drop_chars].
    destruct (String.prefix sep (String c s)) eqn:Hpre.
    + rewrite join_cons by apply split_go_not_nil. rewrite IH.
      apply prefix_drop in Hpre. destruct sep as [|d sep]; [congruence|].
      cbn [String.length drop_chars] in Hpre.
      cbn [String.length Nat.sub]. rewrite Nat.sub_0_r.
      f_equal. exact (eq_sym Hpre).
    + rewrite IH. rewrite string_app_assoc. reflexivity.
Qed.

Lemma split_join s sep :
  sep <> EmptyString -> String.concat sep (DocumentLoader.split s sep) = s.
Proof. intros Hsep. unfold DocumentLoader.split. rewrite split_go_join by exact Hsep. reflexivity. Qed.

Lemma join_app sep xs ys :
  xs <> [] -> ys <> [] ->
  String.concat sep (xs ++ ys)
  = String.concat sep xs +:+ sep +:+ String.concat sep ys.
Proof.
  intros Hxs Hys. induction xs as [|x xs IH]; [congruence|].
  destruct xs as [|x' xs].
  - simpl app. rewrite join_cons by exact Hys. reflexivity.
  - change ((x :: x' :: xs) ++ ys)%list with (x :: ((x' :: xs) ++ ys))%list.
    rewrite join_cons by discriminate. rewrite IH by discriminate.
    rewrite (join_cons sep x (x' :: xs)) by discriminate.
    rewrite !string_app_assoc. reflexivity.
Qed.

(** Joining the joined groups is joining all their elements. *)
Lemma join_groups sep (groups : list (list string)) :
  Forall (fun g => g <> []) groups ->
  String.concat sep (map (String.concat sep) groups)
  = String.concat sep (concat groups).
Proof.
  induction 1 as [|g groups Hg Hgroups IH]; [reflexivity|].
  destruct groups as [|g' groups].
  - simpl. rewrite app_nil_r. reflexivity.
  - change (map (String.concat sep) (g :: g' :: groups))
      with (String.concat sep g :: map (String.concat sep) (g' :: groups)).
    rewrite join_cons by discriminate. rewrite IH.
    change (concat (g :: g' :: groups)) with (g ++ concat (g' :: groups))%list.
    rewrite join_app; [reflexivity | exact Hg |].
    inversion Hgroups as [|? ? Hg' _]; subst. simpl.
    destruct g'; [congruence | discriminate].
Qed.

(** ** Pages of a long DOCX text *)

(** The number of characters of some paragraphs, separators not counted. *)
Definition total_length (paragraphs : list string) : Z :=
  foldr (fun para acc => PyStr.len para + acc) 0 paragraphs.

(** The paragraphs of one page: there is at least one, and several
    together have at most [max_chars] characters. *)
Definition page_group (max_chars : Z) (group : list string) : Prop :=
  group <> [] /\ (length group = 1%nat \/ total_length group <= max_chars).

Lemma total_length_app xs ys :
  total_length (xs ++ ys) = total_length xs + total_length ys.
Proof.
  unfold total_length. induction xs as [|x xs IH]; simpl; [reflexivity|].
  rewrite IH. lia.
Qed.

(** What the loop of [_split_into_pages] keeps true, [seen] being the
    paragraphs read so far. *)
Definition split_inv (max_chars : Z) (seen : list string)
    (st : DocumentLoader.split_state) : Prop :=
  exists groups,
    DocumentLoader.chunks st
    = map (String.concat DocumentLoader.paragraph_break) groups
    /\ Forall (page_group max_chars) groups
    /\ (concat groups ++ DocumentLoader.current_chunk st)%list = seen
    /\ DocumentLoader.current_length st
       = total_length (DocumentLoader.current_chunk st)
    /\ ((length (DocumentLoader.current_chunk st) <= 1)%nat
        \/ total_length (DocumentLoader.current_chunk st) <= max_chars).

Lemma split_step_inv max_chars seen st para :
  split_inv max_chars seen st ->
  split_inv max_chars (seen ++ [para]) (DocumentLoader.split_step max_chars st para).
Proof.
  intros (groups & Hchunks & Hgroups & Hseen & Hlen & Hcur).
  unfold DocumentLoader.split_step.
  destruct (Z.ltb_spec max_chars
              (DocumentLoader.current_length st + PyStr.len para)) as [Hover | Hfits];
    [destruct (DocumentLoader.current_chunk st) as [|p ps] eqn:Hcc|];
    cbn [andb negb DocumentLoader.is_nil].
  - exists groups. cbn. repeat split; try assumption.
    + rewrite <- Hseen, app_nil_r. reflexivity.
    + unfold total_length. simpl. unfold total_length in Hlen. simpl in Hlen. lia.
    + left. simpl. lia.
  - exists (groups ++ [p :: ps])%list. cbn. repeat split.
    + rewrite map_app, Hchunks. reflexivity.
    + apply Forall_app. split; [exact Hgroups|]. constructor; [|constructor].
      split; [discriminate|]. destruct Hcur as [Hcur | Hcur].
      * left. simpl in Hcur |- *. lia.
      * right. exact Hcur.
    + rewrite concat_app. simpl. rewrite app_nil_r, <- Hseen, <- app_assoc.
      reflexivity.
    + unfold total_length. simpl. lia.
    + left. simpl. lia.
  - exists groups. cbn. repeat split; try assumption.
    + rewrite <- Hseen, app_assoc. reflexivity.
    + rewrite total_length_app, Hlen. unfold total_length. simpl. lia.
    + right. rewrite total_length_app, <- Hlen. unfold total_length. simpl. lia.
Qed.

Lemma split_fold_inv max_chars paras seen st :
  split_inv max_chars seen st ->
  split_inv max_chars (seen ++ paras)
    (fold_left (DocumentLoader.split_step max_chars) paras st).
Proof.
  revert seen st. induction paras as [|para paras IH]; intros seen st Hinv.
  - rewrite app_nil_r. exact Hinv.
  - simpl. replace (seen ++ para :: paras)%list with ((seen ++ [para]) ++ paras)%list
      by (rewrite <- app_assoc; reflexivity).
    apply IH, split_step_inv, Hinv.
Qed.

(** The pages are the paragraphs of the text, grouped in their order. *)
Lemma split_pages_groups text max_chars :
  exists groups,
    concat groups = DocumentLoader.split text DocumentLoader.paragraph_break
    /\ DocumentLoader._split_into_pages text max_chars
       = map (String.concat DocumentLoader.paragraph_break) groups
    /\ Forall (page_group max_chars) groups.
Proof.
  unfold DocumentLoader._split_into_pages.
  pose proof (split_fold_inv max_chars
                (DocumentLoader.split text DocumentLoader.paragraph_break) []
                {| DocumentLoader.chunks := [];
                   DocumentLoader.current_chunk := [];
                   DocumentLoader.current_length := 0 |}) as Hinv.
  simpl app in Hinv.
  destruct Hinv as (groups & Hchunks & Hgroups & Hseen & Hlen & Hcur).
  { exists []. cbn. repeat split; try reflexivity; [constructor | left; lia]. }
  set (st := fold_left _ _ _) in *. clearbody st.
  unfold DocumentLoader.split_finish.
  destruct (DocumentLoader.current_chunk st) as [|p ps] eqn:Hcc;
    cbn [DocumentLoader.is_nil].
  - exists groups. rewrite app_nil_r in Hseen. auto.
  - exists (groups ++ [p :: ps])%list. repeat split.
    + rewrite concat_app. simpl. rewrite app_nil_r. exact Hseen.
    + rewrite map_app, Hchunks. reflexivity.
    + apply Forall_app. split; [exact Hgroups|]. constructor; [|constructor].
      split; [discriminate|]. destruct Hcur as [Hcur | Hcur].
      * left. simpl in Hcur |- *. lia.
      * right. exact Hcur.
Qed.

Lemma page_group_not_nil max_chars groups :
  Forall (page_group max_chars) groups -> Forall (fun g => g <> []) groups.
Proof. intros H. eapply Forall_impl; [exact H|]. intros g [Hg _]. exact Hg. Qed.

Lemma paragraph_break_not_empty : DocumentLoader.paragraph_break <> EmptyString.
Proof. discriminate. Qed.

Lemma split_pages_join text max_chars :
  String.concat DocumentLoader.paragraph_break
    (DocumentLoader._split_into_pages text max_chars)
  = text.
Proof.
  destruct (split_pages_groups text max_chars) as (groups & Hcat & -> & Hgroups).
  rewrite join_groups by exact (page_group_not_nil _ _ Hgroups).
  rewrite Hcat. apply split_join, paragraph_break_not_empty.
Qed.

(** X8: joining the pages of [_split_into_pages] with the paragraph
    separator gives the text back, whatever the limit: no character of a
    long DOCX text is lost, doubled or moved by the paging. *)
Theorem split_into_pages_round_trip (text : string) (max_chars : Z) :
  String.concat DocumentLoader.paragraph_break
    (DocumentLoader._split_into_pages text max_chars)
  = text.
Proof. apply split_pages_join. Qed.

(** X9: every page of [_split_into_pages] is made of whole paragraphs of
    the text, taken in their order and joined by the separator; a page of
    several paragraphs holds at most [max_chars] characters of paragraphs
    (the separators are not counted), and only a page of one paragraph can
    hold more. *)
Theorem split_into_pages_respects_limit (text : string) (max_chars : Z) :
  exists groups,
    concat groups = DocumentLoader.split text DocumentLoader.paragraph_break
    /\ DocumentLoader._split_into_pages text max_chars
       = map (String.concat DocumentLoader.paragraph_break) groups
    /\ Forall
         (fun group =>
            group <> []
            /\ (length group = 1%nat \/ total_length group <= max_chars))
         groups.
Proof. apply split_pages_groups. Qed.

Example split_into_pages_groups_paragraphs :
  let nn := DocumentLoader.paragraph_break in
  DocumentLoader._split_into_pages ("aa" +:+ nn +:+ "bbb" +:+ nn +:+ "c") 4
  = ["aa"; "bbb" +:+ nn +:+ "c"].
Proof. vm_compute. reflexivity. Qed.

(** ** Pages of the loaders *)

Lemma pdf_pages_elem document_name start extracted page :
  page ∈ DocumentLoader.pdf_pages document_name start extracted
  <-> exists (i : nat) raw,
        extracted !! i = Some raw
        /\ PyStr.strip (DocumentLoader.text_or_empty raw) <> EmptyString
        /\ page = {| DocumentPage.document_name := document_name;
                     DocumentPage.page_number := start + Z.of_nat i;
                     DocumentPage.text :=
                       PyStr.strip (DocumentLoader.text_or_empty raw);
                     DocumentPage.is_section := false |}.
Proof.
  revert start. induction extracted as [|raw rest IH]; intros start.
  - simpl. split; [intros H; inversion H | intros (i & r & H & _); destruct i; discriminate].
  - cbn [DocumentLoader.pdf_pages]. cbv zeta.
    destruct (String.eqb_spec (PyStr.strip (DocumentLoader.text_or_empty raw))
                EmptyString) as [Hblank | Htext].
    + rewrite IH. split.
      * intros (i & r & Hi & Hr & ->). exists (S i), r.
        repeat split; try assumption. f_equal; lia.
      * intros (i & r & Hi & Hr & ->). destruct i as [|i].
        { injection Hi as <-. contradiction. }
        exists i, r. repeat split; try assumption. f_equal; lia.
    + rewrite elem_of_cons, IH. split.
      * intros [-> | (i & r & Hi & Hr & ->)].
        { exists 0%nat, raw. repeat split; try assumption. f_equal; lia. }
        exists (S i), r. repeat split; try assumption. f_equal; lia.
      * intros (i & r & Hi & Hr & ->). destruct i as [|i].
        { injection Hi as <-. left. f_equal; lia. }
        right. exists i, r. repeat split; try assumption. f_equal; lia.
Qed.

Lemma pdf_pages_from document_name start extracted :
  Forall (fun page => start <= DocumentPage.page_number page)
    (DocumentLoader.pdf_pages document_name start extracted).
Proof.
  apply Forall_forall. intros page Hpage.
  apply pdf_pages_elem in Hpage as (i & raw & _ & _ & ->). simpl. lia.
Qed.

Lemma pdf_pages_sorted document_name start extracted :
  StronglySorted Z.lt
    (map DocumentPage.page_number
       (DocumentLoader.pdf_pages document_name start extracted)).
Proof.
  revert start. induction extracted as [|raw rest IH]; intros start;
    [constructor|].
  cbn [DocumentLoader.pdf_pages]. cbv zeta.
  destruct (String.eqb _ _); [apply IH|].
  cbn [map DocumentPage.page_number]. constructor; [apply IH|].
  apply Forall_fmap.
  eapply Forall_impl; [apply (pdf_pages_from document_name (start + 1) rest)|].
  intros page Hpage. unfold compose. simpl in *. lia.
Qed.

Lemma section_pages_numbers document_name start chunks :
  map DocumentPage.page_number
    (DocumentLoader.section_pages document_name start chunks)
  = map (fun i => start + Z.of_nat i) (seq 0 (length chunks)).
Proof.
  revert start. induction chunks as [|chunk rest IH]; intros start; [reflexivity|].
  cbn [DocumentLoader.section_pages map length seq DocumentPage.page_number].
  f_equal; [lia|]. rewrite IH, <- seq_shift, map_map.
  apply map_ext. intros i. lia.
Qed.

Lemma section_pages_texts document_name start chunks :
  map DocumentPage.text (DocumentLoader.section_pages document_name start chunks)
  = chunks.
Proof.
  revert start. induction chunks as [|chunk rest IH]; intros start; [reflexivity|].
  cbn [DocumentLoader.section_pages map DocumentPage.text]. rewrite IH. reflexivity.
Qed.

Lemma section_pages_length document_name start chunks :
  length (DocumentLoader.section_pages document_name start chunks) = length chunks.
Proof.
  revert start. induction chunks as [|chunk rest IH]; intros start; [reflexivity|].
  cbn [DocumentLoader.section_pages length]. rewrite IH. reflexivity.
Qed.

Lemma section_pages_marked document_name start chunks :
  Forall
    (fun page =>
       DocumentPage.document_name page = document_name
       /\ DocumentPage.is_section page = true)
    (DocumentLoader.section_pages document_name start chunks).
Proof.
  revert start. induction chunks as [|chunk rest IH]; intros start; [constructor|].
  cbn [DocumentLoader.section_pages]. constructor; [split; reflexivity | apply IH].
Qed.

(** The page numbers of a loader pair with one document name. *)
Lemma keys_of_one_document document_name pages :
  Forall (fun page => DocumentPage.document_name page = document_name) pages ->
  NoDup (map DocumentPage.page_number pages) ->
  NoDup (map page_key pages).
Proof.
  induction 1 as [|page pages Hname Hnames IH]; [constructor|].
  cbn [map]. rewrite !NoDup_cons. intros [Hfresh Hrest]. split; [|apply IH, Hrest].
  intros Hin. apply Hfresh.
  apply list_elem_of_fmap in Hin as (page' & Hkey & Hin').
  apply list_elem_of_fmap. exists page'. split; [|exact Hin'].
  unfold page_key in Hkey. congruence.
Qed.

Lemma sorted_numbers_NoDup (numbers : list Z) :
  StronglySorted Z.lt numbers -> NoDup numbers.
Proof.
  induction 1 as [|n numbers Hsorted IH Hlt]; [constructor|].
  apply NoDup_cons. split; [|exact IH].
  intros Hin. rewrite Forall_forall in Hlt. specialize (Hlt n Hin). lia.
Qed.

Lemma pdf_pages_names document_name start extracted :
  Forall (fun page => DocumentPage.document_name page = document_name)
    (DocumentLoader.pdf_pages document_name start extracted).
Proof.
  apply Forall_forall. intros page Hpage.
  apply pdf_pages_elem in Hpage as (i & raw & _ & _ & ->). reflexivity.
Qed.

Lemma load_pdf_keys document_name extracted :
  NoDup (map page_key (DocumentLoader._load_pdf document_name extracted)).
Proof.
  apply (keys_of_one_document document_name); [apply pdf_pages_names|].
  apply sorted_numbers_NoDup, pdf_pages_sorted.
Qed.

Lemma load_docx_keys document_name doc :
  NoDup (map page_key (DocumentLoader._load_docx document_name doc)).
Proof.
  unfold DocumentLoader._load_docx.
  destruct (String.eqb _ _); [constructor|].
  destruct (_ <? _).
  - apply (keys_of_one_document document_name).
    + eapply Forall_impl; [apply section_pages_marked|]. intros page [H _]. exact H.
    + rewrite section_pages_numbers. apply NoDup_fmap_2; [|apply NoDup_seq].
      intros i j Hij. lia.
  - apply NoDup_singleton.
Qed.

Lemma load_txt_keys document_name text :
  NoDup (map page_key (DocumentLoader._load_txt document_name text)).
Proof.
  unfold DocumentLoader._load_txt. cbv zeta.
  destruct (String.eqb _ _); [constructor | apply NoDup_singleton].
Qed.

(** X10: the pages [_load_pdf] returns are exactly the pages of the file
    whose extracted text is not blank, each with its text stripped and
    with its own position in the file, counted from 1, as page number: a
    blank page is left out and the pages after it keep their numbers. The
    numbers increase along the list. *)
Theorem pdf_pages_keep_their_numbers
    (document_name : string) (extracted : list (option string)) :
  (forall page,
      page ∈ DocumentLoader._load_pdf document_name extracted
      <-> exists (i : nat) raw,
            extracted !! i = Some raw
            /\ PyStr.strip (DocumentLoader.text_or_empty raw) <> EmptyString
            /\ page = {| DocumentPage.document_name := document_name;
                         DocumentPage.page_number := 1 + Z.of_nat i;
                         DocumentPage.text :=
                           PyStr.strip (DocumentLoader.text_or_empty raw);
                         DocumentPage.is_section := false |})
  /\ StronglySorted Z.lt
       (map DocumentPage.page_number
          (DocumentLoader._load_pdf document_name extracted)).
Proof.
  split; [intros page; apply pdf_pages_elem | apply pdf_pages_sorted].
Qed.

(** X11: the pages [_load_docx] returns are sections of the document,
    numbered 1, 2, ... in their order, and their texts joined by the
    paragraph separator are the full text of the document; there is no
    page when the document has no text. *)
Theorem docx_pages_are_numbered_sections (document_name : string) (doc : Docx.t) :
  let pages := DocumentLoader._load_docx document_name doc in
  map DocumentPage.page_number pages
  = map (fun i => 1 + Z.of_nat i) (seq 0 (length pages))
  /\ Forall
       (fun page =>
          DocumentPage.document_name page = document_name
          /\ DocumentPage.is_section page = true)
       pages
  /\ String.concat DocumentLoader.paragraph_break (map DocumentPage.text pages)
     = DocumentLoader.full_text doc
  /\ (pages = [] <-> DocumentLoader.full_text doc = EmptyString).
Proof.
  cbv zeta. unfold DocumentLoader._load_docx.
  destruct (String.eqb_spec (DocumentLoader.full_text doc) EmptyString)
    as [Hempty | Htext].
  - rewrite Hempty. repeat split; constructor.
  - destruct (_ <? _).
    + rewrite section_pages_numbers, section_pages_length, section_pages_texts.
      split; [reflexivity|]. split; [apply section_pages_marked|].
      split; [apply split_pages_join|]. split; [|contradiction].
      intros Hnil. exfalso. apply Htext.
      rewrite <- (split_pages_join (DocumentLoader.full_text doc)
                    DocumentLoader.max_page_chars).
      apply (f_equal (map DocumentPage.text)) in Hnil.
      rewrite section_pages_texts in Hnil. rewrite Hnil. reflexivity.
    + repeat split; try reflexivity; try discriminate; try contradiction.
      repeat constructor.
Qed.

(** The page lists a loader can return for a document. *)
Definition loaded (document_name : string) (pages : list DocumentPage.t) : Prop :=
  (exists extracted, pages = DocumentLoader._load_pdf document_name extracted)
  \/ (exists doc, pages = DocumentLoader._load_docx document_name doc)
  \/ (exists text, pages = DocumentLoader._load_txt document_name text).

(** X12: whatever file is loaded, the chunk ids [chunk_pages] gives to
    the pages of one loaded document are pairwise different: the loaders
    never return two pages with the same number. *)
Theorem loaded_document_has_unique_chunk_ids
    (fuel : nat) (self : TextChunker.t) (document_name : string)
    (pages : list DocumentPage.t) (chunks : list TextChunk.t) :
  loaded document_name pages ->
  TextChunker.chunk_pages fuel self pages = Some (Ok chunks) ->
  NoDup (map page_key pages) /\ NoDup (map TextChunk.chunk_id chunks).
Proof.
  intros Hloaded Hrun.
  assert (NoDup (map page_key pages)) as Hkeys.
  { destruct Hloaded as [[extracted ->] | [[doc ->] | [text ->]]];
      [apply load_pdf_keys | apply load_docx_keys | apply load_txt_keys]. }
  split; [exact Hkeys|].
  apply chunk_pages_ids in Hrun as (counts & _ & ->).
  apply run_ids_NoDup, Hkeys.
Qed.

(** The texts extracted from a PDF file of four pages, the second and
    the third of them blank. *)
Definition sample_pdf : list (option string) :=
  [ Some ("  " +:+ str_mul "This is a sentence. " 10);
    None;
    Some "   ";
    Some "Rome is the capital of Italy." ].

Definition sample_pdf_run : list TextChunk.t :=
  Eval vm_compute in
    match TextChunker.chunk_pages 300 test_chunker
            (DocumentLoader._load_pdf "b.pdf" sample_pdf) with
    | Some (Ok cs) => cs
    | _ => []
    end.

Example sample_pdf_page_numbers :
  map DocumentPage.page_number (DocumentLoader._load_pdf "b.pdf" sample_pdf) = [1; 4]
  /\ map TextChunk.page_number sample_pdf_run = [1; 1; 4].
Proof. vm_compute. split; reflexivity. Qed.

Lemma loaded_document_has_unique_chunk_ids_witness :
  NoDup (map page_key (DocumentLoader._load_pdf "b.pdf" sample_pdf))
  /\ NoDup (map TextChunk.chunk_id sample_pdf_run).
Proof.
  apply (loaded_document_has_unique_chunk_ids 300 test_chunker "b.pdf"
           (DocumentLoader._load_pdf "b.pdf" sample_pdf) sample_pdf_run).
  - left. exists sample_pdf. reflexivity.
  - vm_compute. reflexivity.
Defined.

(** ** The request sent to the generation service *)

Lemma occurs_in_app_r x a b : occurs_in x b -> occurs_in x (a +:+ b).
Proof.
  intros (pre & post & H). exists (chars_of a ++ pre)%list, post.
  rewrite chars_of_app, H, <- app_assoc. reflexivity.
Qed.

Lemma occurs_in_app_l x a b : occurs_in x a -> occurs_in x (a +:+ b).
Proof.
  intros (pre & post & H). exists pre, (post ++ chars_of b)%list.
  rewrite chars_of_app, H, <- !app_assoc. reflexivity.
Qed.

Lemma occurs_in_join sep x xs : x ∈ xs -> occurs_in x (String.concat sep xs).
Proof.
  induction xs as [|y xs IH]; [intros H; inversion H|].
  intros H. destruct xs as [|z xs].
  - apply list_elem_of_singleton in H as ->. apply occurs_in_refl.
  - rewrite join_cons by discriminate. apply elem_of_cons in H as [-> | H].
    + apply occurs_in_app_l, occurs_in_refl.
    + do 2 apply occurs_in_app_r. apply IH, H.
Qed.

(** [sub] is found after some of the leading pieces of a concatenation. *)
Ltac find_piece :=
  first
    [ apply occurs_in_refl
    | apply occurs_in_app_l, occurs_in_refl
    | eexists [], _; rewrite !chars_of_app, <- ?app_assoc; simpl app; reflexivity
    | apply occurs_in_app_r; find_piece ].

Lemma context_occurs question context :
  occurs_in question (AnswerGenerator._build_user_message question context)
  /\ occurs_in context (AnswerGenerator._build_user_message question context).
Proof.
  unfold AnswerGenerator._build_user_message. split.
  - find_piece.
  - find_piece.
Qed.

(** The lines of the context that describe one chunk. *)
Definition described_in (chunk : RetrievedChunk.t) (message : string) : Prop :=
  let line label value := label +:+ value +:+ AnswerGenerator.newline in
  occurs_in (line "document_name: " (RetrievedChunk.document_name chunk)) message
  /\ occurs_in
       (line "page_number: " (PyStr.of_int (RetrievedChunk.page_number chunk)))
       message
  /\ occurs_in (line "chunk_id: " (RetrievedChunk.chunk_id chunk)) message
  /\ occurs_in (line "text: " (RetrievedChunk.text chunk)) message.

Lemma format_context_describes chunks chunk :
  chunk ∈ chunks -> described_in chunk (AnswerGenerator._format_context chunks).
Proof.
  intros Hin. apply list_elem_of_lookup in Hin as [i Hi].
  unfold AnswerGenerator._format_context.
  set (block := fun (i : nat) (chunk : RetrievedChunk.t) => _).
  assert (occurs_in (block i chunk)
            (String.concat AnswerGenerator.newline (imap block chunks))) as Hblock.
  { apply occurs_in_join. apply list_elem_of_lookup. exists i.
    rewrite list_lookup_imap, Hi. reflexivity. }
  unfold described_in. cbv zeta.
  repeat split; (eapply occurs_in_trans; [|exact Hblock]); subst block; cbv beta;
    find_piece.
Qed.

Lemma described_in_larger chunk context message :
  occurs_in context message -> described_in chunk context ->
  described_in chunk message.
Proof.
  unfold described_in. cbv zeta. intros Hc (H1 & H2 & H3 & H4).
  repeat split; eapply occurs_in_trans; eassumption.
Qed.

(** X13: [generate] calls the generation service at most once, and only
    when a client is configured and at least one chunk was retrieved. The
    one request names the configured model and the system prompt, and its
    user message contains the question and, for every retrieved chunk, the
    lines with its document name, page number, chunk id and text. An error
    of the service is raised unchanged. *)
Theorem request_carries_question_and_chunks
    (json_loads : string -> option pyval) (RAG_SYSTEM_PROMPT : string)
    (self : AnswerGenerator.t) (question : string)
    (chunks : list RetrievedChunk.t) :
  let run := AnswerGenerator.generate json_loads RAG_SYSTEM_PROMPT self question
               chunks in
  match AnswerGenerator.client self, chunks with
  | Some complete, _ :: _ =>
      exists req,
        fst run = [req]
        /\ AnswerGenerator.req_model req = AnswerGenerator.model self
        /\ AnswerGenerator.req_system req = RAG_SYSTEM_PROMPT
        /\ occurs_in question (AnswerGenerator.req_user req)
        /\ (forall chunk,
               chunk ∈ chunks -> described_in chunk (AnswerGenerator.req_user req))
        /\ (forall e, complete req = Raise e -> snd run = Raise e)
  | _, _ => fst run = []
  end.
Proof.
  cbv zeta. unfold AnswerGenerator.generate.
  destruct (AnswerGenerator.client self) as [complete|]; [|reflexivity].
  destruct chunks as [|first rest]; [reflexivity|].
  eexists. split; [reflexivity|]. cbn [fst snd AnswerGenerator.req_model
    AnswerGenerator.req_system AnswerGenerator.req_user].
  split; [reflexivity|]. split; [reflexivity|].
  destruct (context_occurs question
              (AnswerGenerator._format_context (first :: rest))) as [Hq Hc].
  split; [exact Hq|]. split.
  - intros chunk Hin. eapply described_in_larger; [exact Hc|].
    apply format_context_describes, Hin.
  - intros e He. rewrite He. reflexivity.
Qed.

(** ** Payloads in a code fence *)

(** [s] holds no backtick. *)
Definition no_backtick (s : string) : Prop := PyStr.char_in "`"%char s = false.

Lemma no_backtick_cons c s :
  no_backtick (String c s) -> c <> "`"%char /\ no_backtick s.
Proof.
  unfold no_backtick. cbn [PyStr.char_in]. intros H.
  apply orb_false_elim in H as [Hc Hs]. split; [|exact Hs].
  intros ->. discriminate.
Qed.

Lemma prefix_app marker x : String.prefix marker (marker +:+ x) = true.
Proof.
  induction marker as [|c marker IH]; [destruct x; reflexivity|].
  change (String c marker +:+ x) with (String c (marker +:+ x)).
  cbn [String.prefix]. destruct (ascii_dec c c); [exact IH | congruence].
Qed.

Lemma find_go_unfold sub s i :
  PyStr.find_go sub s i
  = if String.prefix sub s then Some i
    else match s with
         | EmptyString => None
         | String _ s' => PyStr.find_go sub s' (S i)
         end.
Proof. destruct s; reflexivity. Qed.

Lemma find_go_here marker x i : PyStr.find_go marker (marker +:+ x) i = Some i.
Proof. rewrite find_go_unfold, prefix_app. reflexivity. Qed.

Lemma find_go_skip m prefix s i :
  no_backtick prefix ->
  PyStr.find_go (String "`"%char m) (prefix +:+ s) i
  = PyStr.find_go (String "`"%char m) s (i + String.length prefix).
Proof.
  revert i. induction prefix as [|c prefix IH]; intros i Hno.
  - change (EmptyString +:+ s) with s. cbn [String.length]. f_equal. lia.
  - apply no_backtick_cons in Hno as [Hc Hno].
    change (String c prefix +:+ s) with (String c (prefix +:+ s)).
    rewrite find_go_unfold. cbn [String.prefix String.length].
    destruct (ascii_dec "`"%char c) as [Heq|_]; [congruence|].
    rewrite IH by exact Hno. f_equal. lia.
Qed.

Lemma find_go_none m s i :
  no_backtick s -> PyStr.find_go (String "`"%char m) s i = None.
Proof.
  revert i. induction s as [|c s IH]; intros i Hno; [reflexivity|].
  apply no_backtick_cons in Hno as [Hc Hno].
  rewrite find_go_unfold. cbn [String.prefix].
  destruct (ascii_dec "`"%char c) as [Heq|_]; [congruence|]. apply IH, Hno.
Qed.

Lemma string_app_length (a b : string) :
  String.length (a +:+ b) = (String.length a + String.length b)%nat.
Proof. rewrite <- !chars_of_length, chars_of_app. apply length_app. Qed.

Lemma substring_whole s : String.substring 0 (String.length s) s = s.
Proof. induction s as [|c s IH]; simpl; [reflexivity | rewrite IH; reflexivity]. Qed.

Lemma substring_app_l a b :
  String.substring 0 (String.length a) (a +:+ b) = a.
Proof.
  induction a as [|c a IH]; [destruct b; reflexivity|].
  change (String c a +:+ b) with (String c (a +:+ b)).
  cbn [String.length String.substring]. rewrite IH. reflexivity.
Qed.

Lemma substring_app_r a b n :
  String.substring (String.length a) n (a +:+ b) = String.substring 0 n b.
Proof.
  induction a as [|c a IH]; [reflexivity|].
  change (String c a +:+ b) with (String c (a +:+ b)).
  cbn [String.length String.substring]. exact IH.
Qed.

Lemma slice_from_app a b :
  PyStr.slice_from (a +:+ b) (PyStr.len a) = b.
Proof.
  unfold PyStr.slice_from, PyStr.slice, PyStr.clamp, PyStr.len.
  rewrite string_app_length.
  destruct (Z.ltb_spec (Z.of_nat (String.length a)) 0); [lia|].
  destruct (Z.ltb_spec (Z.of_nat (String.length a + String.length b)) 0); [lia|].
  replace (Z.to_nat (Z.min (Z.of_nat (String.length a))
                       (Z.of_nat (String.length a + String.length b))))
    with (String.length a) by lia.
  rewrite substring_app_r.
  replace (Z.to_nat _) with (String.length b) by lia.
  apply substring_whole.
Qed.

Lemma lstrip_app_stop a c t :
  PyStr.isspace c = false ->
  PyStr.lstrip (a +:+ String c t) = PyStr.lstrip a +:+ String c t.
Proof.
  intros Hc. induction a as [|d a IH].
  - change (EmptyString +:+ String c t) with (String c t).
    cbn [PyStr.lstrip]. rewrite Hc. reflexivity.
  - change (String d a +:+ String c t) with (String d (a +:+ String c t)).
    cbn [PyStr.lstrip]. destruct (PyStr.isspace d); [exact IH | reflexivity].
Qed.

Lemma lstrip_no_backtick s : no_backtick s -> no_backtick (PyStr.lstrip s).
Proof.
  induction s as [|c s IH]; [trivial|]. intros Hno. cbn [PyStr.lstrip].
  destruct (PyStr.isspace c); [|exact Hno].
  apply IH. apply no_backtick_cons in Hno as [_ Hno]. exact Hno.
Qed.

(** The fence that starts with [marker] is found and its body is stripped. *)
Lemma search_fence_found m prefix body rest :
  no_backtick prefix -> no_backtick body ->
  AnswerGenerator.search_fence (String "`"%char m)
    (prefix +:+ String "`"%char m +:+ body +:+ "```" +:+ rest)
  = Some (PyStr.strip body).
Proof.
  intros Hprefix Hbody. unfold AnswerGenerator.search_fence.
  rewrite find_go_skip by exact Hprefix. rewrite find_go_here.
  replace (Z.of_nat (0 + String.length prefix) + PyStr.len (String "`"%char m))
    with (PyStr.len (prefix +:+ String "`"%char m))
    by (unfold PyStr.len; rewrite string_app_length; lia).
  rewrite <- string_app_assoc, slice_from_app.
  change ("```" +:+ rest) with (String "`"%char ("``" +:+ rest)).
  rewrite lstrip_app_stop by reflexivity.
  change (String "`"%char ("``" +:+ rest)) with ("```" +:+ rest).
  rewrite find_go_skip by exact (lstrip_no_backtick _ Hbody).
  rewrite find_go_here. cbn [Nat.add]. rewrite substring_app_l. reflexivity.
Qed.

Lemma contains_found m prefix tail :
  no_backtick prefix ->
  PyStr.contains (String "`"%char m) (prefix +:+ String "`"%char m +:+ tail) = true.
Proof.
  intros Hprefix. unfold PyStr.contains.
  rewrite find_go_skip by exact Hprefix. rewrite find_go_here. reflexivity.
Qed.

Lemma extract_tagged prefix body rest :
  no_backtick prefix -> no_backtick body ->
  AnswerGenerator.extract_json_text
    (prefix +:+ "```json" +:+ body +:+ "```" +:+ rest)
  = PyStr.strip body.
Proof.
  intros Hprefix Hbody. unfold AnswerGenerator.extract_json_text.
  rewrite (contains_found "``json" prefix) by exact Hprefix.
  rewrite (search_fence_found "``json" prefix body rest Hprefix Hbody).
  reflexivity.
Qed.

Lemma extract_untagged prefix body rest :
  no_backtick prefix -> no_backtick body ->
  PyStr.contains "```json" (prefix +:+ "```" +:+ body +:+ "```" +:+ rest) = false ->
  AnswerGenerator.extract_json_text (prefix +:+ "```" +:+ body +:+ "```" +:+ rest)
  = PyStr.strip body.
Proof.
  intros Hprefix Hbody Htag. unfold AnswerGenerator.extract_json_text.
  rewrite Htag. rewrite (contains_found "``" prefix) by exact Hprefix.
  rewrite (search_fence_found "``" prefix body rest Hprefix Hbody).
  reflexivity.
Qed.

Lemma extract_plain body :
  no_backtick body -> AnswerGenerator.extract_json_text body = body.
Proof.
  intros Hbody. unfold AnswerGenerator.extract_json_text, PyStr.contains.
  rewrite !find_go_none by exact Hbody. reflexivity.
Qed.

(** X14: a payload in a code fence is handled like the payload alone.
    When neither the text before the fence nor the payload holds a
    backtick, the validator takes the stripped text between the opening
    fence (tagged [json] or, for a completion without a tagged fence,
    untagged) and the next closing fence, ignores what is before and after
    it, and returns what it returns for the payload without a fence. *)
Theorem fenced_payload_is_parsed_like_bare_payload
    (json_loads : string -> option pyval) (prefix body rest : string)
    (chunks : list RetrievedChunk.t) :
  no_backtick prefix -> no_backtick body ->
  let tagged := prefix +:+ "```json" +:+ body +:+ "```" +:+ rest in
  let untagged := prefix +:+ "```" +:+ body +:+ "```" +:+ rest in
  AnswerGenerator.extract_json_text tagged = PyStr.strip body
  /\ AnswerGenerator._parse_response json_loads tagged chunks
     = AnswerGenerator._parse_response json_loads body chunks
  /\ (PyStr.contains "```json" untagged = false ->
      AnswerGenerator.extract_json_text untagged = PyStr.strip body
      /\ AnswerGenerator._parse_response json_loads untagged chunks
         = AnswerGenerator._parse_response json_loads body chunks).
Proof.
  intros Hprefix Hbody. cbv zeta.
  assert (forall text,
             AnswerGenerator.extract_json_text text = PyStr.strip body ->
             AnswerGenerator._parse_response json_loads text chunks
             = AnswerGenerator._parse_response json_loads body chunks) as Hparse.
  { intros text Htext. unfold AnswerGenerator._parse_response. cbv zeta.
    rewrite Htext, (extract_plain body Hbody), (strip_trimmed body).
    reflexivity. }
  split; [apply extract_tagged; assumption|].
  split; [apply Hparse, extract_tagged; assumption|].
  intros Htag. split; [|apply Hparse]; apply extract_untagged; assumption.
Qed.

Definition fenced_prefix : string := "Here is the answer:" +:+ AnswerGenerator.newline.

Definition fenced_body : string :=
  AnswerGenerator.newline +:+ mixed_completion +:+ AnswerGenerator.newline.

Lemma fenced_payload_is_parsed_like_bare_payload_witness :
  let tagged := fenced_prefix +:+ "```json" +:+ fenced_body +:+ "```" +:+ " Done." in
  let untagged := fenced_prefix +:+ "```" +:+ fenced_body +:+ "```" +:+ " Done." in
  AnswerGenerator.extract_json_text tagged = PyStr.strip fenced_body
  /\ AnswerGenerator._parse_response Json.loads tagged [paris_chunk]
     = AnswerGenerator._parse_response Json.loads fenced_body [paris_chunk]
  /\ (PyStr.contains "```json" untagged = false ->
      AnswerGenerator.extract_json_text untagged = PyStr.strip fenced_body
      /\ AnswerGenerator._parse_response Json.loads untagged [paris_chunk]
         = AnswerGenerator._parse_response Json.loads fenced_body [paris_chunk]).
Proof.
  apply (fenced_payload_is_parsed_like_bare_payload Json.loads fenced_prefix
           fenced_body " Done." [paris_chunk]); vm_compute; reflexivity.
Defined.

Example fenced_payload_is_validated :
  AnswerGenerator._parse_response Json.loads
    (fenced_prefix +:+ "```json" +:+ fenced_body +:+ "```" +:+ " Done.")
    [paris_chunk]
  = Ok paris_response
  /\ PyStr.contains "```json"
       (fenced_prefix +:+ "```" +:+ fenced_body +:+ "```" +:+ " Done.") = false.
Proof. vm_compute. split; reflexivity. Qed.

(** * Searching and listing the store

    [rag/vector_store.py]: [VectorStore.search] around the formatting of
    its rows, and [VectorStore.get_all_documents]. The collection and the
    embedding model are outside the program; [search] takes what they do
    as functions. *)

(** [a <= b] on [str]: code points compared from left to right. *)
Definition str_le (a b : string) : Prop := String.leb a b = true.

#[local] Instance str_le_dec : RelDecision str_le.
Proof. intros a b. unfold str_le. apply _. Defined.

Module VectorStoreQueries.

Section WithCollection.
Variable Embedding : Type.
(** [self.embedding_generator.generate_single] *)
Variable generate_single : string -> Embedding.
(** [self.collection.query] on one embedding, with [n_results] and the
    document name of the [where] filter; [None] when the answer or its
    ["ids"] are falsy. *)
Variable collection_query :
  Embedding -> Z -> option string -> option VectorStore.query_result.

(** [where_filter]: a filter is built [if filter_doc], so not for [""]. *)
Definition where_filter (filter_doc : option string) : option string :=
  match filter_doc with
  | Some name => if String.eqb name EmptyString then None else Some name
  | None => None
  end.

(** [VectorStore.search] *)
Definition search (settings : Settings.t) (query : string) (top_k : option Z)
    (filter_doc : option string) : result (list Hit.t) :=
  let top_k := int_or top_k (Settings.top_k_results settings) in
  let query_embedding := generate_single query in
  VectorStore.format_results
    (collection_query query_embedding top_k (where_filter filter_doc)).

End WithCollection.

(** The loop of [VectorStore.get_all_documents] over the metadata of the
    stored chunks; a chunk may have no metadata. *)
Definition doc_names (metadatas : list (option Metadata.t)) : gset string :=
  fold_left
    (fun names metadata =>
       match metadata ≫= Metadata.document_name with
       | Some name => {[ name ]} ∪ names
       | None => names
       end)
    metadatas ∅.

(** [VectorStore.get_all_documents] on the ["metadatas"] of
    [collection.get]; [None] when there is none. *)
Definition get_all_documents (metadatas : option (list (option Metadata.t)))
  : list string :=
  match metadatas with
  | None | Some [] => []
  | Some metadatas => merge_sort str_le (elements (doc_names metadatas))
  end.

End VectorStoreQueries.

(** ** The rows of a search *)

(** Whether every column has an entry for each id. *)
Definition columns_complete (r : VectorStore.query_result) : bool :=
  let n := length (VectorStore.ids r) in
  (n <=? length (VectorStore.documents r))%nat
  && (n <=? length (VectorStore.metadatas r))%nat
  && match VectorStore.distances r with
     | Some ds => (n <=? length ds)%nat
     | None => true
     end.

(** The record of row [i]: entry [i] of each column. *)
Definition hit_at (r : VectorStore.query_result) (i : nat) : Hit.t :=
  {| Hit.chunk_id := VectorStore.ids r !! i;
     Hit.text := VectorStore.documents r !! i;
     Hit.metadata := VectorStore.metadatas r !! i;
     Hit.distance := Some (VectorStore.distances r ≫= (fun ds => ds !! i)) |}.

Definition row_complete (r : VectorStore.query_result) (i : nat) : bool :=
  bool_decide (is_Some (VectorStore.ids r !! i))
  && bool_decide (is_Some (VectorStore.documents r !! i))
  && bool_decide (is_Some (VectorStore.metadatas r !! i))
  && match VectorStore.distances r with
     | Some ds => bool_decide (is_Some (ds !! i))
     | None => true
     end.

Lemma item_lookup {A : Type} (xs : list A) i :
  VectorStore.item xs i
  = match xs !! i with
    | Some x => Ok x
    | None => Raise IndexError
    end.
Proof.
  unfold VectorStore.item. revert i.
  induction xs as [|x xs IH]; intros [|i]; simpl; try reflexivity. apply IH.
Qed.

Lemma format_row_outcome r i :
  VectorStore.format_row r i
  = if row_complete r i then Ok (hit_at r i) else Raise IndexError.
Proof.
  unfold VectorStore.format_row, row_complete, hit_at. rewrite !item_lookup.
  destruct (VectorStore.ids r !! i) as [id|]; [|reflexivity].
  destruct (VectorStore.documents r !! i) as [doc|]; [|reflexivity].
  destruct (VectorStore.metadatas r !! i) as [md|]; [|reflexivity].
  destruct (VectorStore.distances r) as [ds|]; [|reflexivity].
  cbn. rewrite item_lookup. destruct (ds !! i); reflexivity.
Qed.

Lemma format_rows_outcome r rows :
  VectorStore.format_rows r rows
  = if forallb (row_complete r) rows then Ok (map (hit_at r) rows)
    else Raise IndexError.
Proof.
  induction rows as [|i rows IH]; [reflexivity|].
  cbn [VectorStore.format_rows forallb map]. rewrite format_row_outcome, IH.
  destruct (row_complete r i); [|reflexivity].
  destruct (forallb (row_complete r) rows); reflexivity.
Qed.

Lemma lookup_is_Some_lt {A : Type} (xs : list A) i :
  bool_decide (is_Some (xs !! i)) = (i <? length xs)%nat.
Proof.
  destruct (Nat.ltb_spec i (length xs)) as [Hlt | Hge].
  - apply bool_decide_eq_true. apply lookup_lt_is_Some. exact Hlt.
  - apply bool_decide_eq_false. rewrite lookup_lt_is_Some. lia.
Qed.

Lemma rows_complete r :
  forallb (row_complete r) (seq 0 (length (VectorStore.ids r)))
  = columns_complete r.
Proof.
  unfold columns_complete. cbv zeta.
  set (n := length (VectorStore.ids r)).
  destruct (forallb (row_complete r) (seq 0 n)) eqn:Hall.
  - symmetry. rewrite forallb_forall in Hall.
    assert (forall m, (m < n)%nat -> row_complete r m = true) as Hrow.
    { intros m Hm. apply Hall, in_seq. lia. }
    assert (forall {A} (xs : list A),
               (forall m, (m < n)%nat -> bool_decide (is_Some (xs !! m)) = true) ->
               (n <=? length xs)%nat = true) as Hcol.
    { intros A xs Hxs. apply Nat.leb_le.
      destruct (Nat.le_gt_cases n (length xs)) as [|Hshort]; [assumption|].
      specialize (Hxs (length xs) Hshort).
      rewrite lookup_is_Some_lt in Hxs. apply Nat.ltb_lt in Hxs. lia. }
    rewrite !andb_true_iff. repeat split.
    + apply Hcol. intros m Hm. specialize (Hrow m Hm). unfold row_complete in Hrow.
      rewrite !andb_true_iff in Hrow. tauto.
    + apply Hcol. intros m Hm. specialize (Hrow m Hm). unfold row_complete in Hrow.
      rewrite !andb_true_iff in Hrow. tauto.
    + destruct (VectorStore.distances r) as [ds|] eqn:Hds; [|reflexivity].
      apply Hcol. intros m Hm. specialize (Hrow m Hm). unfold row_complete in Hrow.
      rewrite Hds, !andb_true_iff in Hrow. tauto.
  - symmetry. apply not_true_is_false. intros Hcomplete.
    rewrite !andb_true_iff in Hcomplete. destruct Hcomplete as [[Hd Hm] Hs].
    apply Nat.leb_le in Hd, Hm.
    assert (forallb (row_complete r) (seq 0 n) = true) as Hyes; [|congruence].
    apply forallb_forall. intros i Hi. apply in_seq in Hi.
    unfold row_complete. rewrite !lookup_is_Some_lt.
    rewrite !andb_true_iff. repeat split; try (apply Nat.ltb_lt; lia).
    destruct (VectorStore.distances r) as [ds|]; [|reflexivity].
    rewrite lookup_is_Some_lt. apply Nat.leb_le in Hs. apply Nat.ltb_lt. lia.
Qed.

(** X15: the records [search] builds from the answer of the collection.
    There is one record per returned id, in the order of the ids, and the
    record of row [i] holds entry [i] of each column, with [None] as its
    distance when the collection gave no distances. When a column has
    fewer entries than there are ids, [search] raises [IndexError]; when
    the collection returned nothing, the result is the empty list. *)
Theorem search_formats_rows (results : option VectorStore.query_result) :
  VectorStore.format_results results
  = match results with
    | None => Ok []
    | Some r =>
        if columns_complete r
        then Ok (map (hit_at r) (seq 0 (length (VectorStore.ids r))))
        else Raise IndexError
    end.
Proof.
  destruct results as [r|]; [|reflexivity].
  unfold VectorStore.format_results.
  rewrite format_rows_outcome, rows_complete. reflexivity.
Qed.

Lemma search_rows {Embedding : Type} (generate_single : string -> Embedding)
    collection_query settings query top_k filter_doc r :
  collection_query (generate_single query)
    (int_or top_k (Settings.top_k_results settings))
    (VectorStoreQueries.where_filter filter_doc) = Some r ->
  columns_complete r = true ->
  VectorStoreQueries.search Embedding generate_single collection_query settings
    query top_k filter_doc
  = Ok (map (hit_at r) (seq 0 (length (VectorStore.ids r)))).
Proof.
  intros Hquery Hcomplete. unfold VectorStoreQueries.search. cbv zeta.
  rewrite Hquery. unfold VectorStore.format_results.
  rewrite format_rows_outcome, rows_complete, Hcomplete. reflexivity.
Qed.

Lemma lookup_rows {A : Type} (f : nat -> A) n i x :
  map f (seq 0 n) !! i = Some x -> (i < n)%nat /\ x = f i.
Proof.
  rewrite list_lookup_fmap. destruct (seq 0 n !! i) as [j|] eqn:Hj; [|discriminate].
  apply lookup_seq in Hj as [-> Hi]. intros [= <-]. split; [exact Hi | reflexivity].
Qed.

(** The rows that [search] reads all have a [dict] as metadata: none was
    stored without metadata. *)
Definition stored_with_metadata (r : VectorStore.query_result) : bool :=
  forallb (fun metadata : option Metadata.t =>
             match metadata with
             | Some _ => true
             | None => false
             end)
    (take (length (VectorStore.ids r)) (VectorStore.metadatas r)).

Lemma rows_have_metadata (r : VectorStore.query_result) :
  columns_complete r = true ->
  forallb has_metadata (map (hit_at r) (seq 0 (length (VectorStore.ids r))))
  = stored_with_metadata r.
Proof.
  intros Hcomplete. unfold columns_complete in Hcomplete. cbv zeta in Hcomplete.
  rewrite !andb_true_iff in Hcomplete. destruct Hcomplete as [[_ Hm] _].
  apply Nat.leb_le in Hm. unfold stored_with_metadata.
  apply eq_true_iff_eq. rewrite !forallb_forall. split.
  - intros Hrows metadata Hin. apply list_elem_of_In in Hin.
    apply list_elem_of_lookup in Hin as [i Hi].
    apply lookup_take_Some in Hi as [Hi Hlt].
    destruct metadata; [reflexivity|].
    assert (In (hit_at r i) (map (hit_at r) (seq 0 (length (VectorStore.ids r)))))
      as Hrow by (apply in_map, in_seq; lia).
    apply Hrows in Hrow. unfold has_metadata, hit_at in Hrow. cbn in Hrow.
    rewrite Hi in Hrow. exact Hrow.
  - intros Hstored hit Hin. apply in_map_iff in Hin as (i & <- & Hi).
    apply in_seq in Hi. unfold has_metadata, hit_at. cbn.
    destruct (VectorStore.metadatas r !! i) as [[metadata|]|] eqn:Hmd;
      try reflexivity.
    apply (Hstored None). apply list_elem_of_In, list_elem_of_lookup. exists i.
    apply lookup_take_Some. split; [exact Hmd | lia].
Qed.

Lemma stored_row_metadata r i metadata :
  stored_with_metadata r = true ->
  (i < length (VectorStore.ids r))%nat ->
  VectorStore.metadatas r !! i = Some metadata ->
  exists fields, metadata = Some fields.
Proof.
  unfold stored_with_metadata. rewrite forallb_forall. intros Hstored Hi Hmd.
  destruct metadata as [fields|]; [eauto|].
  specialize (Hstored None). exfalso.
  assert (false = true) as Habsurd; [|discriminate].
  apply Hstored, list_elem_of_In, list_elem_of_lookup. exists i.
  apply lookup_take_Some. split; [exact Hmd | exact Hi].
Qed.

Lemma normalised_row r i chunk :
  normalised (hit_at r i) chunk ->
  VectorStore.ids r !! i = Some (RetrievedChunk.chunk_id chunk)
  \/ VectorStore.ids r !! i = None.
Proof.
  intros (_ & _ & _ & _ & Hid & _). unfold hit_at, defaulted in Hid. cbn in Hid.
  destruct (VectorStore.ids r !! i); [left; congruence | right; reflexivity].
Qed.

(** The ids of the chunks made of the rows of an answer. *)
Lemma normalised_rows_ids r chunks :
  Forall2 normalised (map (hit_at r) (seq 0 (length (VectorStore.ids r)))) chunks ->
  map RetrievedChunk.chunk_id chunks = VectorStore.ids r.
Proof.
  intros Hall. apply list_eq. intros i. rewrite list_lookup_fmap.
  destruct (chunks !! i) as [chunk|] eqn:Hchunk; cbn.
  - destruct (Forall2_lookup_r _ _ _ _ _ Hall Hchunk) as (hit & Hhit & Hnorm).
    apply lookup_rows in Hhit as [Hi ->].
    destruct (normalised_row _ _ _ Hnorm) as [Hid | Hid]; [congruence|].
    apply lookup_ge_None in Hid. lia.
  - symmetry. apply lookup_ge_None. apply lookup_ge_None in Hchunk.
    apply Forall2_length in Hall. rewrite length_map, length_seq in Hall. lia.
Qed.

(** X16: [retrieve] over [search] keeps the ranking of the collection.
    The collection is asked for [top_k] results, or for the default of the
    retriever when [top_k] is missing or 0, and with no filter when the
    document name is missing or empty. When each column of its answer has
    an entry for every id and every row has a [dict] as metadata, the
    retrieved chunks are one per id, in the order of the ids; chunk [i]
    has document [i] as text, distance [i] as score ([None] when there are
    no distances, never the default 1.0) and the metadata of row [i], with
    the defaults for missing keys. When the metadata of a row is [None],
    the row of a record stored without metadata, [retrieve] raises
    [AttributeError]. *)
Theorem retrieve_keeps_collection_ranking
    (Embedding : Type) (generate_single : string -> Embedding)
    (collection_query :
       Embedding -> Z -> option string -> option VectorStore.query_result)
    (settings : Settings.t) (self : Retriever.t) (query : string)
    (top_k : option Z) (filter_document : option string)
    (r : VectorStore.query_result) :
  let k := int_or top_k (Retriever.top_k self) in
  let n_results := if k =? 0 then Settings.top_k_results settings else k in
  let doc_filter :=
    match filter_document with
    | Some name => if String.eqb name EmptyString then None else Some name
    | None => None
    end in
  let outcome :=
    Retriever.retrieve
      (fun query k filter_doc =>
         VectorStoreQueries.search Embedding generate_single collection_query
           settings query (Some k) filter_doc)
      self query top_k filter_document in
  collection_query (generate_single query) n_results doc_filter = Some r ->
  columns_complete r = true ->
  if stored_with_metadata r
  then exists chunks,
         outcome = Ok chunks
         /\ map RetrievedChunk.chunk_id chunks = VectorStore.ids r
         /\ forall i chunk,
              chunks !! i = Some chunk ->
              VectorStore.documents r !! i = Some (RetrievedChunk.text chunk)
              /\ RetrievedChunk.score chunk
                 = VectorStore.distances r ≫= (fun ds => ds !! i)
              /\ exists metadata,
                   VectorStore.metadatas r !! i = Some (Some metadata)
                   /\ RetrievedChunk.document_name chunk
                      = get_or (Metadata.document_name metadata) "unknown"
                   /\ RetrievedChunk.page_number chunk
                      = get_or (Metadata.page_number metadata) 0
                   /\ RetrievedChunk.is_section chunk
                      = get_or (Metadata.is_section metadata) false
  else outcome = Raise AttributeError.
Proof.
  cbv zeta. intros Hquery Hcomplete.
  unfold Retriever.retrieve.
  rewrite (search_rows generate_single collection_query settings query
             (Some (int_or top_k (Retriever.top_k self))) filter_document r
             Hquery Hcomplete).
  cbn [mbind result_bind].
  pose proof (convert_outcome
                (map (hit_at r) (seq 0 (length (VectorStore.ids r)))) [])
    as Hconvert.
  rewrite (rows_have_metadata r Hcomplete) in Hconvert.
  destruct (stored_with_metadata r) eqn:Hstored; [|exact Hconvert].
  destruct Hconvert as (chunks & Hchunks & Hall). exists chunks.
  split; [exact Hchunks|]. split; [exact (normalised_rows_ids r chunks Hall)|].
  intros i chunk Hchunk.
  destruct (Forall2_lookup_r _ _ _ _ _ Hall Hchunk) as (hit & Hhit & Hnorm).
  apply lookup_rows in Hhit as [Hi ->].
  unfold columns_complete in Hcomplete. cbv zeta in Hcomplete.
  rewrite !andb_true_iff in Hcomplete. destruct Hcomplete as [[Hd Hm] _].
  apply Nat.leb_le in Hd, Hm.
  destruct (lookup_lt_is_Some_2 (VectorStore.documents r) i ltac:(lia))
    as [doc Hdoc].
  destruct (lookup_lt_is_Some_2 (VectorStore.metadatas r) i ltac:(lia))
    as [md Hmd].
  destruct (stored_row_metadata r i md Hstored Hi Hmd) as [metadata ->].
  destruct Hnorm as (Hname & Hpage & Hsection & Hscore & _ & Htext).
  unfold defaulted, metadata_field, hit_at in Hname, Hpage, Hsection, Hscore, Htext.
  cbn in Hname, Hpage, Hsection, Hscore, Htext.
  rewrite Hdoc in Htext. rewrite Hmd in Hname, Hpage, Hsection.
  split; [congruence|]. split; [exact Hscore|].
  exists metadata. split; [exact Hmd|].
  destruct (Metadata.document_name metadata), (Metadata.page_number metadata),
    (Metadata.is_section metadata); cbn; auto.
Qed.

(** A collection that holds the Paris chunk and a chunk whose metadata has
    none of the three keys, and answers every query with both. *)
Definition two_rows : VectorStore.query_result :=
  {| VectorStore.ids := ["a.txt_p1_c0_7aaf30b1"; "b.pdf_p2_c0_deadbeef"];
     VectorStore.documents :=
       ["Paris is the capital of France."; "Rome is the capital of Italy."];
     VectorStore.metadatas :=
       [ Some {| Metadata.document_name := Some "a.txt";
                 Metadata.page_number := Some 1;
                 Metadata.is_section := Some true |};
         Some Metadata.empty ];
     VectorStore.distances := None |}.

Definition two_rows_retrieved : list RetrievedChunk.t :=
  [ {| RetrievedChunk.document_name := "a.txt";
       RetrievedChunk.page_number := 1;
       RetrievedChunk.chunk_id := "a.txt_p1_c0_7aaf30b1";
       RetrievedChunk.text := "Paris is the capital of France.";
       RetrievedChunk.score := None;
       RetrievedChunk.is_section := true |};
    {| RetrievedChunk.document_name := "unknown";
       RetrievedChunk.page_number := 0;
       RetrievedChunk.chunk_id := "b.pdf_p2_c0_deadbeef";
       RetrievedChunk.text := "Rome is the capital of Italy.";
       RetrievedChunk.score := None;
       RetrievedChunk.is_section := false |} ].

Lemma retrieve_keeps_collection_ranking_witness :
  let outcome :=
    Retriever.retrieve
      (fun query k filter_doc =>
         VectorStoreQueries.search string (fun text => text)
           (fun _ _ _ => Some two_rows) Settings.default query (Some k) filter_doc)
      (Retriever.__init__ Settings.default None) "capital of France" (Some 0)
      (Some "") in
  if stored_with_metadata two_rows
  then exists chunks,
         outcome = Ok chunks
         /\ map RetrievedChunk.chunk_id chunks = VectorStore.ids two_rows
         /\ forall i chunk,
              chunks !! i = Some chunk ->
              VectorStore.documents two_rows !! i = Some (RetrievedChunk.text chunk)
              /\ RetrievedChunk.score chunk
                 = VectorStore.distances two_rows ≫= (fun ds => ds !! i)
              /\ exists metadata,
                   VectorStore.metadatas two_rows !! i = Some (Some metadata)
                   /\ RetrievedChunk.document_name chunk
                      = get_or (Metadata.document_name metadata) "unknown"
                   /\ RetrievedChunk.page_number chunk
                      = get_or (Metadata.page_number metadata) 0
                   /\ RetrievedChunk.is_section chunk
                      = get_or (Metadata.is_section metadata) false
  else outcome = Raise AttributeError.
Proof.
  apply (retrieve_keeps_collection_ranking string (fun text => text)
           (fun _ _ _ => Some two_rows) Settings.default
           (Retriever.__init__ Settings.default None) "capital of France"
           (Some 0) (Some "") two_rows); reflexivity.
Defined.

Example retrieve_two_rows_without_distances :
  Retriever.retrieve
    (fun query k filter_doc =>
       VectorStoreQueries.search string (fun text => text)
         (fun _ _ _ => Some two_rows) Settings.default query (Some k) filter_doc)
    (Retriever.__init__ Settings.default None) "capital of France" (Some 0)
    (Some "")
  = Ok two_rows_retrieved.
Proof. reflexivity. Qed.

Example retrieve_row_without_metadata :
  Retriever.retrieve
    (fun query k filter_doc =>
       VectorStoreQueries.search string (fun text => text)
         (fun _ _ _ => Some unlabelled_answer) Settings.default query (Some k)
         filter_doc)
    (Retriever.__init__ Settings.default None) "capital of France" None None
  = Raise AttributeError.
Proof. reflexivity. Qed.

(** ** The list of documents *)

Lemma str_le_trans a b c : str_le a b -> str_le b c -> str_le a c.
Proof.
  unfold str_le, String.leb. revert b c.
  induction a as [|x a IH]; intros [|y b] [|z c]; cbn [String.compare];
    try congruence.
  unfold Ascii.compare.
  destruct (N.compare_spec (N_of_ascii x) (N_of_ascii y)) as [Hxy|Hxy|Hxy];
    destruct (N.compare_spec (N_of_ascii y) (N_of_ascii z)) as [Hyz|Hyz|Hyz];
    destruct (N.compare_spec (N_of_ascii x) (N_of_ascii z)) as [Hxz|Hxz|Hxz];
    try congruence; try lia; try apply IH.
Qed.

#[local] Instance str_le_transitive : Transitive str_le.
Proof. intros a b c. apply str_le_trans. Qed.

#[local] Instance str_le_total : Total str_le.
Proof. intros a b. apply String.leb_total. Qed.

Lemma doc_names_fold (metadatas : list (option Metadata.t)) (names : gset string)
    (name : string) :
  name ∈ fold_left
           (fun names metadata =>
              match metadata ≫= Metadata.document_name with
              | Some name => {[ name ]} ∪ names
              | None => names
              end)
           metadatas names
  <-> name ∈ names
      \/ exists metadata,
           Some metadata ∈ metadatas
           /\ Metadata.document_name metadata = Some name.
Proof.
  revert names. induction metadatas as [|md metadatas IH]; intros names.
  - simpl. split; [auto|]. intros [H | (m & H & _)]; [exact H | inversion H].
  - cbn [fold_left]. rewrite IH. split.
    + intros [H | (m & Hin & Hm)].
      * destruct md as [m|]; cbn in H; [|auto].
        destruct (Metadata.document_name m) as [n|] eqn:Hn; [|auto].
        apply elem_of_union in H as [H | H]; [|auto].
        apply elem_of_singleton in H as ->. right. exists m. split; [left|exact Hn].
      * right. exists m. split; [right; exact Hin | exact Hm].
    + intros [H | (m & Hin & Hm)].
      * left. destruct (md ≫= Metadata.document_name); [|exact H].
        apply elem_of_union. right. exact H.
      * apply elem_of_cons in Hin as [<- | Hin].
        { left. cbn. rewrite Hm. apply elem_of_union. left.
          apply elem_of_singleton. reflexivity. }
        right. exists m. split; assumption.
Qed.

(** X17: [get_all_documents] lists exactly the document names found in
    the metadata of the stored chunks, each once, in ascending order; a
    chunk without metadata or without a document name adds nothing. *)
Theorem documents_are_listed_once_in_order
    (metadatas : option (list (option Metadata.t))) :
  let names := VectorStoreQueries.get_all_documents metadatas in
  StronglySorted str_le names
  /\ NoDup names
  /\ forall name,
       name ∈ names
       <-> exists stored metadata,
             metadatas = Some stored
             /\ Some metadata ∈ stored
             /\ Metadata.document_name metadata = Some name.
Proof.
  cbv zeta. destruct metadatas as [[|md stored]|].
  - cbn. split; [constructor|]. split; [constructor|]. intros name. split.
    + intros H. inversion H.
    + intros (s & m & [= <-] & H & _). inversion H.
  - unfold VectorStoreQueries.get_all_documents.
    set (names := VectorStoreQueries.doc_names (md :: stored)).
    split; [apply StronglySorted_merge_sort; apply _|].
    split.
    + rewrite merge_sort_Permutation. apply NoDup_elements.
    + intros name. rewrite merge_sort_Permutation, elem_of_elements.
      subst names. unfold VectorStoreQueries.doc_names. rewrite doc_names_fold.
      split.
      * intros [H | (m & Hin & Hm)]; [set_solver|]. exists (md :: stored), m. auto.
      * intros (s & m & [= <-] & Hin & Hm). right. exists m. auto.
  - cbn. split; [constructor|]. split; [constructor|]. intros name. split.
    + intros H. inversion H.
    + intros (s & m & [=] & _).
Qed.

Example documents_of_three_chunks :
  VectorStoreQueries.get_all_documents
    (Some [ Some {| Metadata.document_name := Some "b.pdf";
                    Metadata.page_number := Some 1;
                    Metadata.is_section := Some false |};
            None;
            Some Metadata.empty;
            Some {| Metadata.document_name := Some "a.txt";
                    Metadata.page_number := Some 1;
                    Metadata.is_section := Some false |};
            Some {| Metadata.document_name := Some "b.pdf";
                    Metadata.page_number := Some 2;
                    Metadata.is_section := Some false |} ])
  = ["a.txt"; "b.pdf"].
Proof. vm_compute. reflexivity. Qed.

(** * No text is lost by the chunker *)

Lemma lstrip_keeps k s c :
  String.get k s = Some c -> PyStr.isspace c = false ->
  exists k', String.get k' (PyStr.lstrip s) = Some c.
Proof.
  revert k. induction s as [|d s IH]; intros k Hget Hc; [destruct k; discriminate|].
  cbn [PyStr.lstrip]. destruct (PyStr.isspace d) eqn:Hd.
  - destruct k as [|k]; simpl in Hget; [congruence|]. exact (IH k Hget Hc).
  - exists k. exact Hget.
Qed.

Lemma rstrip_keeps k s c :
  String.get k s = Some c -> PyStr.isspace c = false ->
  PyStr.rstrip s <> EmptyString.
Proof.
  revert k. induction s as [|d s IH]; intros k Hget Hc; [destruct k; discriminate|].
  rewrite rstrip_cons. destruct k as [|k]; simpl in Hget.
  - injection Hget as ->. rewrite Hc. destruct (PyStr.rstrip s); discriminate.
  - specialize (IH k Hget Hc). destruct (PyStr.rstrip s); [congruence | discriminate].
Qed.

Lemma strip_keeps k s c :
  String.get k s = Some c -> PyStr.isspace c = false ->
  PyStr.strip s <> EmptyString.
Proof.
  intros Hget Hc. destruct (lstrip_keeps k s c Hget Hc) as [k' Hk'].
  exact (rstrip_keeps k' _ c Hk' Hc).
Qed.

Lemma get_Some_lt k s c : String.get k s = Some c -> (k < String.length s)%nat.
Proof.
  revert k. induction s as [|d s IH]; intros [|k]; simpl; try discriminate; [lia|].
  intros H. apply IH in H. lia.
Qed.

(** A window around a character that is not whitespace is not blank. *)
Lemma window_not_blank text a b p c :
  0 <= a <= p -> p < b ->
  String.get (Z.to_nat p) text = Some c -> PyStr.isspace c = false ->
  PyStr.strip (PyStr.slice text a b) <> EmptyString.
Proof.
  intros Ha Hb Hget Hc. pose proof (get_Some_lt _ _ _ Hget) as Hlen.
  apply (strip_keeps (Z.to_nat (p - a)) _ c); [|exact Hc].
  unfold PyStr.slice, PyStr.clamp, PyStr.len.
  destruct (Z.ltb_spec a 0); [lia|]. destruct (Z.ltb_spec b 0); [lia|].
  rewrite substring_correct1 by lia.
  replace (Z.to_nat (p - a) + Z.to_nat (Z.min a (Z.of_nat (String.length text))))%nat
    with (Z.to_nat p) by lia.
  exact Hget.
Qed.

(** The chunk that holds position [p] of the text: the stripped window
    from [a] to [b] around [p]. *)
Definition chunk_around (text : string) (chunks : list TextChunk.t) (p : Z) : Prop :=
  exists chunk a b,
    chunk ∈ chunks
    /\ 0 <= a <= p /\ p < b
    /\ TextChunk.text chunk = PyStr.strip (PyStr.slice text a b).

(** Every character before [e] that is not whitespace is in a chunk. *)
Definition covered_below (text : string) (e : Z) (chunks : list TextChunk.t)
  : Prop :=
  forall p c,
    0 <= p < e -> String.get (Z.to_nat p) text = Some c ->
    PyStr.isspace c = false -> chunk_around text chunks p.

Section CoverFacts.
Variable self : TextChunker.t.
Variables (text document_name : string) (page_number : Z) (is_section : bool).

Lemma appended_covers st e end_ :
  0 <= TextChunker.start st <= e ->
  covered_below text e (TextChunker.chunks st) ->
  covered_below text (Z.max e end_)
    (TextChunker.chunks (appended text document_name page_number is_section st end_)).
Proof using Type.
  intros Hstart Hcov p c Hp Hget Hc.
  destruct (Z.lt_ge_cases p e) as [Hlt | Hge].
  - destruct (Hcov p c ltac:(lia) Hget Hc) as (chunk & a & b & Hin & Hrest).
    exists chunk, a, b. split; [|exact Hrest].
    unfold appended. destruct (String.eqb _ _); [exact Hin|].
    simpl. apply elem_of_app. left. exact Hin.
  - assert (PyStr.strip (PyStr.slice text (TextChunker.start st) end_) <> EmptyString)
      as Hwindow.
    { apply (window_not_blank text _ _ p c); [lia | lia | exact Hget | exact Hc]. }
    unfold appended. apply String.eqb_neq in Hwindow. rewrite Hwindow. simpl.
    eexists _, (TextChunker.start st), end_. split.
    + apply elem_of_app. right. apply list_elem_of_singleton. reflexivity.
    + simpl. repeat split; lia.
Qed.

Lemma loop_covers fuel st e cs :
  1 <= TextChunker.chunk_overlap self ->
  TextChunker.chunk_overlap self + 48 < TextChunker.chunk_size self ->
  0 <= TextChunker.start st <= e ->
  covered_below text e (TextChunker.chunks st) ->
  TextChunker.chunk_loop self text document_name page_number is_section fuel st
  = Some (Ok cs) ->
  covered_below text (PyStr.len text) cs.
Proof using Type.
  intros Hov Hsize. revert st e.
  induction fuel as [|fuel IH]; intros st e Hstart Hcov; [discriminate|].
  rewrite loop_unfold.
  destruct (Z.ltb_spec (TextChunker.start st) (PyStr.len text)) as [Hlt | Hge].
  - rewrite loop_body_unfold.
    destruct (window_end_bounds self text (TextChunker.start st) ltac:(lia)
                ltac:(lia)) as (end_ & -> & Hgt & Hend & _).
    pose proof (appended_covers st e end_ Hstart Hcov) as Happ.
    cbv zeta. destruct (Z.leb_spec (PyStr.len text - 1)
                          (end_ - TextChunker.chunk_overlap self)) as [Hbreak | Hnext].
    + intros [= <-]. intros p c Hp. apply Happ. lia.
    + apply (IH _ (Z.max e end_)); [simpl; lia | exact Happ].
  - intros [= <-]. intros p c Hp. apply Hcov. lia.
Qed.
End CoverFacts.

Lemma slice_whole s : PyStr.slice s 0 (PyStr.len s) = s.
Proof.
  unfold PyStr.slice, PyStr.clamp, PyStr.len.
  destruct (Z.ltb_spec 0 0); [lia|].
  destruct (Z.ltb_spec (Z.of_nat (String.length s)) 0); [lia|].
  replace (Z.to_nat (Z.min 0 (Z.of_nat (String.length s)))) with 0%nat by lia.
  replace (Z.to_nat _) with (String.length s) by lia.
  apply substring_whole.
Qed.

Lemma chunk_text_covers fuel self text document_name page_number is_section cs :
  1 <= TextChunker.chunk_overlap self ->
  TextChunker.chunk_overlap self + 48 < TextChunker.chunk_size self ->
  TextChunker._chunk_text fuel self text document_name page_number is_section
  = Some (Ok cs) ->
  covered_below (PyStr.strip text) (PyStr.len (PyStr.strip text)) cs.
Proof.
  intros Hov Hsize. unfold TextChunker._chunk_text.
  destruct (String.eqb text EmptyString || _) eqn:Hblank.
  - intros _ p c Hp Hget. apply get_Some_lt in Hget.
    apply orb_true_iff in Hblank as [H | H]; apply String.eqb_eq in H.
    + subst text. simpl in Hget. lia.
    + rewrite H in Hget. simpl in Hget. lia.
  - cbv zeta. destruct (_ <=? _).
    + intros [= <-] p c Hp Hget Hc.
      eexists _, 0, (PyStr.len (PyStr.strip text)).
      split; [apply list_elem_of_singleton; reflexivity|].
      split; [lia|]. split; [lia|]. simpl.
      rewrite slice_whole. symmetry. apply strip_trimmed.
    + apply (loop_covers _ _ _ _ _ _ _ 0); [exact Hov | exact Hsize | simpl; lia |].
      intros p c Hp. lia.
Qed.

(** X18: no text is lost by the chunker. With an overlap of at least 1
    and [chunk_size >= chunk_overlap + 49], every character of the
    stripped page that is not whitespace lies in a chunk: the chunk is the
    stripped window of the page from some [a] to some [b] with
    [a <= p < b], for the position [p] of the character. *)
Theorem no_text_is_lost
    (fuel : nat) (self : TextChunker.t) (text document_name : string)
    (page_number : Z) (is_section : bool) (chunks : list TextChunk.t)
    (p : Z) (c : ascii) :
  1 <= TextChunker.chunk_overlap self ->
  TextChunker.chunk_overlap self + 48 < TextChunker.chunk_size self ->
  TextChunker._chunk_text fuel self text document_name page_number is_section
  = Some (Ok chunks) ->
  0 <= p ->
  String.get (Z.to_nat p) (PyStr.strip text) = Some c ->
  PyStr.isspace c = false ->
  exists chunk a b,
    chunk ∈ chunks
    /\ 0 <= a <= p /\ p < b
    /\ TextChunk.text chunk = PyStr.strip (PyStr.slice (PyStr.strip text) a b).
Proof.
  intros Hov Hsize Hrun Hp Hget Hc.
  apply (chunk_text_covers fuel self text document_name page_number is_section
           chunks Hov Hsize Hrun p c); [|exact Hget | exact Hc].
  apply get_Some_lt in Hget. unfold PyStr.len. lia.
Qed.

Definition ten_sentences : string := "  " +:+ str_mul "This is a sentence. " 10.

Definition ten_sentences_run : list TextChunk.t :=
  Eval vm_compute in
    match TextChunker._chunk_text 300 test_chunker ten_sentences "b.docx" 3 true with
    | Some (Ok cs) => cs
    | _ => []
    end.

Lemma no_text_is_lost_witness :
  exists chunk a b,
    chunk ∈ ten_sentences_run
    /\ 0 <= a <= 150 /\ 150 < b
    /\ TextChunk.text chunk
       = PyStr.strip (PyStr.slice (PyStr.strip ten_sentences) a b).
Proof.
  apply (no_text_is_lost 300 test_chunker ten_sentences "b.docx" 3 true
           ten_sentences_run 150 "s"%char);
    [vm_compute; congruence | vm_compute; reflexivity | vm_compute; reflexivity
    | lia | vm_compute; reflexivity | vm_compute; reflexivity].
Defined.

(** Without overlap the last character of a page can be lost: the window
    ends one character before the end of the text and the loop stops. *)
Example last_character_is_lost_without_overlap :
  let page := str_mul "a" 58 +:+ ". b" in
  option_map
    (fun r => match r with
              | Ok cs => map TextChunk.text cs
              | Raise _ => []
              end)
    (TextChunker._chunk_text 10
       {| TextChunker.chunk_size := 60; TextChunker.chunk_overlap := 0 |}
       page "a.txt" 1 false)
  = Some [str_mul "a" 58 +:+ "."].
Proof. vm_compute. reflexivity. Qed.

(** * Where a window is cut *)

Lemma substring_empty n m : String.substring n m EmptyString = EmptyString.
Proof. destruct n, m; reflexivity. Qed.

Lemma substring_substring s n' m' n m :
  (n + m <= m')%nat ->
  String.substring n m (String.substring n' m' s) = String.substring (n' + n) m s.
Proof.
  revert n' m' n m. induction s as [|c s IH]; intros n' m' n m Hle.
  - rewrite !substring_empty. reflexivity.
  - destruct n' as [|n'].
    + destruct m' as [|m'].
      * assert (n = 0 /\ m = 0)%nat as [-> ->] by lia. reflexivity.
      * cbn [String.substring Nat.add]. destruct n as [|n].
        { destruct m as [|m]; [reflexivity|]. cbn [String.substring].
          f_equal. rewrite IH by lia. reflexivity. }
        cbn [String.substring]. rewrite IH by lia. reflexivity.
    + cbn [String.substring Nat.add]. apply IH, Hle.
Qed.

Lemma substring_drop k m s :
  String.substring 0 m (drop_chars k s) = String.substring k m s.
Proof.
  revert k. induction s as [|c s IH]; intros [|k]; try reflexivity.
  - cbn [drop_chars]. rewrite !substring_empty. reflexivity.
  - cbn [drop_chars String.substring]. apply IH.
Qed.

Lemma prefix_substring sub s :
  String.prefix sub s = true -> String.substring 0 (String.length sub) s = sub.
Proof.
  intros H. apply prefix_drop in H. rewrite H at 1. apply substring_app_l.
Qed.

Lemma rfind_go_occurs sub s i k :
  PyStr.rfind_go sub s i = Some k ->
  (i <= k)%nat /\ String.prefix sub (drop_chars (k - i) s) = true.
Proof.
  revert i. induction s as [|c s IH]; intros i; cbn [PyStr.rfind_go].
  - destruct (String.prefix sub EmptyString) eqn:Hpre; [|discriminate].
    intros [= <-]. rewrite Nat.sub_diag. split; [lia | exact Hpre].
  - destruct (PyStr.rfind_go sub s (S i)) as [k'|] eqn:Hk'.
    + intros [= <-]. apply IH in Hk' as [Hle Hpre]. split; [lia|].
      replace (k' - i)%nat with (S (k' - S i)) by lia. exact Hpre.
    + destruct (String.prefix sub (String c s)) eqn:Hpre; [|discriminate].
      intros [= <-]. rewrite Nat.sub_diag. split; [lia | exact Hpre].
Qed.

(** Where [rfind] reports an occurrence, there is one. *)
Lemma rfind_occurs s sub stop :
  PyStr.rfind s sub 0 stop <> -1 ->
  String.substring (Z.to_nat (PyStr.rfind s sub 0 stop)) (String.length sub) s = sub.
Proof.
  unfold PyStr.rfind. destruct (Z.ltb_spec (PyStr.len s) 0); [congruence|].
  assert (PyStr.clamp (PyStr.len s) 0 = 0) as ->.
  { unfold PyStr.clamp. simpl. unfold PyStr.len. lia. }
  rewrite Z.sub_0_r. change (Z.to_nat 0) with 0%nat.
  set (h := Z.to_nat (PyStr.clamp (PyStr.len s) stop)).
  destruct (PyStr.rfind_go sub (String.substring 0 h s) 0) as [k|] eqn:Hk;
    [|congruence].
  intros _. pose proof (rfind_go_bounds _ _ _ _ Hk) as [_ Hfit].
  apply rfind_go_occurs in Hk as [_ Hpre]. rewrite Nat.sub_0_r in Hpre.
  apply prefix_substring in Hpre. rewrite substring_drop in Hpre.
  pose proof (length_substring_le 0 h s).
  rewrite substring_substring in Hpre by lia.
  replace (Z.to_nat (0 + Z.of_nat k)) with k by lia. exact Hpre.
Qed.

(** A sentence break found by the loop is the end of the last occurrence
    of one of the markers. *)
Lemma best_break_marker search_text search_start stop b :
  TextChunker.best_break search_text search_start stop = Some b ->
  exists marker,
    marker ∈ TextChunker.sentence_ends
    /\ PyStr.rfind search_text marker 0 stop <> -1
    /\ b = search_start + PyStr.rfind search_text marker 0 stop + 2.
Proof.
  unfold TextChunker.best_break.
  set (found := fun b =>
         exists marker,
           marker ∈ TextChunker.sentence_ends
           /\ PyStr.rfind search_text marker 0 stop <> -1
           /\ b = search_start + PyStr.rfind search_text marker 0 stop + 2).
  assert (forall markers best,
             (forall marker, marker ∈ markers -> marker ∈ TextChunker.sentence_ends) ->
             (forall b0, best = Some b0 -> found b0) ->
             fold_left
               (fun best end_marker =>
                  let idx := PyStr.rfind search_text end_marker 0 stop in
                  if idx =? -1 then best
                  else
                    let actual_pos := search_start + idx + PyStr.len end_marker in
                    match best with
                    | None => Some actual_pos
                    | Some b => if actual_pos >? b then Some actual_pos else best
                    end)
               markers best = Some b ->
             found b) as Hfold.
  { induction markers as [|marker markers IH]; intros best Hsub Hbest; simpl.
    - apply Hbest.
    - apply IH; [intros m Hm; apply Hsub; right; exact Hm|].
      assert (marker ∈ TextChunker.sentence_ends) as Hin by (apply Hsub; left).
      assert (PyStr.len marker = 2) as Hlen.
      { pose proof sentence_ends_length as Hall. rewrite Forall_forall in Hall.
        apply Hall, Hin. }
      intros b0. destruct (Z.eqb_spec (PyStr.rfind search_text marker 0 stop) (-1))
        as [Heq | Hne]; [apply Hbest|].
      destruct best as [b1|].
      + destruct (_ >? b1); [|apply Hbest]. intros [= <-].
        exists marker. rewrite Hlen. auto.
      + intros [= <-]. exists marker. rewrite Hlen. auto. }
  apply Hfold; [auto | discriminate].
Qed.

Lemma get_drop_chars n k s : String.get k (drop_chars n s) = String.get (n + k) s.
Proof.
  revert n. induction s as [|c s IH]; intros [|n]; try reflexivity.
  cbn [drop_chars Nat.add String.get]. apply IH.
Qed.

Lemma run_length_chars s k :
  (k < run_length s)%nat ->
  exists c, String.get k s = Some c
            /\ PyStr.char_in c TextChunker.word_separators = false.
Proof.
  revert k. induction s as [|c s IH]; intros k; cbn [run_length]; [lia|].
  destruct (PyStr.char_in c TextChunker.word_separators) eqn:Hc; [lia|].
  destruct k as [|k]; [exists c; split; [reflexivity | exact Hc]|].
  intros Hk. apply IH. lia.
Qed.

Lemma run_length_stop s :
  String.get (run_length s) s = None
  \/ exists c, String.get (run_length s) s = Some c
               /\ PyStr.char_in c TextChunker.word_separators = true.
Proof.
  induction s as [|c s IH]; cbn [run_length]; [left; reflexivity|].
  destruct (PyStr.char_in c TextChunker.word_separators) eqn:Hc; [|exact IH].
  right. exists c. split; [reflexivity | exact Hc].
Qed.

(** X19: the boundary [_find_boundary] returns for a position is natural.
    Either it lies directly after a sentence end (one of the six markers)
    in the text, at most 48 characters before and at most 50 characters
    after the position; or no character from the position up to it is a
    space, a newline or a tab, and it is the position of such a character
    or the end of the text. *)
Theorem boundary_is_sentence_or_word_end (text : string) (position : Z) :
  0 <= position ->
  exists b,
    TextChunker._find_boundary text position = Ok b
    /\ ((exists marker,
            marker ∈ TextChunker.sentence_ends
            /\ PyStr.slice text (b - 2) b = marker
            /\ position - 48 <= b <= position + 50
            /\ b <= PyStr.len text)
        \/ (position <= b
            /\ (forall q,
                   position <= q < b ->
                   exists c,
                     String.get (Z.to_nat q) text = Some c
                     /\ PyStr.char_in c TextChunker.word_separators = false)
            /\ (String.get (Z.to_nat b) text = None
                \/ exists c,
                     String.get (Z.to_nat b) text = Some c
                     /\ PyStr.char_in c TextChunker.word_separators = true))).
Proof.
  intros Hpos. unfold TextChunker._find_boundary. cbv zeta.
  pose proof (word_end_loop_exit (Z.to_nat (PyStr.len text - position)) text position
                Hpos (Nat.le_refl _)) as Hword.
  assert (exists b,
             TextChunker.word_end_loop (Z.to_nat (PyStr.len text - position)) text
               position = Ok b
             /\ position <= b
             /\ (forall q,
                    position <= q < b ->
                    exists c,
                      String.get (Z.to_nat q) text = Some c
                      /\ PyStr.char_in c TextChunker.word_separators = false)
             /\ (String.get (Z.to_nat b) text = None
                 \/ exists c,
                      String.get (Z.to_nat b) text = Some c
                      /\ PyStr.char_in c TextChunker.word_separators = true))
    as (w & Hw & Hword_end).
  { eexists. split; [exact Hword|]. split; [lia|]. split.
    - intros q Hq.
      destruct (run_length_chars (drop_chars (Z.to_nat position) text)
                  (Z.to_nat (q - position)) ltac:(lia)) as (c & Hget & Hc).
      rewrite get_drop_chars in Hget.
      replace (Z.to_nat position + Z.to_nat (q - position))%nat
        with (Z.to_nat q) in Hget by lia.
      eauto.
    - pose proof (run_length_stop (drop_chars (Z.to_nat position) text)) as Hstop.
      rewrite get_drop_chars in Hstop.
      replace (Z.to_nat (position
                 + Z.of_nat (run_length (drop_chars (Z.to_nat position) text))))
        with (Z.to_nat position
              + run_length (drop_chars (Z.to_nat position) text))%nat by lia.
      exact Hstop. }
  set (search_start := Z.max 0 (position - 50)).
  set (search_end := Z.min (PyStr.len text) (position + 50)).
  destruct (TextChunker.best_break _ _ _) as [b|] eqn:Hb;
    [|exists w; split; [exact Hw | right; exact Hword_end]].
  pose proof (best_break_bounds _ _ _ _ Hb) as Hbounds.
  destruct (Z.eqb_spec b 0) as [Hzero | _]; [subst search_start; lia|].
  exists b. split; [reflexivity|]. left.
  apply best_break_marker in Hb as (marker & Hin & Hfound & Hb).
  pose proof (rfind_bounds _ _ _ Hfound) as [Hlo Hhi].
  pose proof (rfind_occurs _ _ _ Hfound) as Hocc.
  assert (PyStr.len marker = 2) as Hlen.
  { pose proof sentence_ends_length as Hall. rewrite Forall_forall in Hall.
    apply Hall, Hin. }
  set (idx := PyStr.rfind _ marker 0 _) in *. clearbody idx.
  pose proof (len_nonneg text) as Htext.
  unfold PyStr.slice in Hhi, Hocc, Hbounds.
  set (lo := PyStr.clamp (PyStr.len text) search_start) in *.
  set (hi := PyStr.clamp (PyStr.len text) search_end) in *.
  assert (lo = Z.min search_start (PyStr.len text)) as Hlo_eq.
  { subst lo. unfold PyStr.clamp. destruct (Z.ltb_spec search_start 0);
      [subst search_start; lia | reflexivity]. }
  assert (hi = search_end) as Hhi_eq.
  { subst hi. unfold PyStr.clamp. destruct (Z.ltb_spec search_end 0);
      subst search_end; lia. }
  pose proof (length_substring_le (Z.to_nat lo) (Z.to_nat (hi - lo)) text) as Hsub.
  pose proof (length_substring_le_length (Z.to_nat lo) (Z.to_nat (hi - lo)) text)
    as Hsub'.
  unfold PyStr.len in Hhi, Hlen, Hbounds.
  assert (lo = search_start) as Hlo_start by (unfold PyStr.len in *; lia).
  rewrite substring_substring in Hocc by lia.
  exists marker. split; [exact Hin|].
  split; [|subst search_end search_start; unfold PyStr.len in *; lia].
  unfold PyStr.slice, PyStr.clamp.
  destruct (Z.ltb_spec (b - 2) 0); [lia|]. destruct (Z.ltb_spec b 0); [lia|].
  rewrite <- Hocc. f_equal; unfold PyStr.len in *; lia.
Qed.

Lemma boundary_is_sentence_or_word_end_witness :
  exists b,
    TextChunker._find_boundary (PyStr.strip ten_sentences) 100 = Ok b
    /\ ((exists marker,
            marker ∈ TextChunker.sentence_ends
            /\ PyStr.slice (PyStr.strip ten_sentences) (b - 2) b = marker
            /\ 100 - 48 <= b <= 100 + 50
            /\ b <= PyStr.len (PyStr.strip ten_sentences))
        \/ (100 <= b
            /\ (forall q,
                   100 <= q < b ->
                   exists c,
                     String.get (Z.to_nat q) (PyStr.strip ten_sentences) = Some c
                     /\ PyStr.char_in c TextChunker.word_separators = false)
            /\ (String.get (Z.to_nat b) (PyStr.strip ten_sentences) = None
                \/ exists c,
                     String.get (Z.to_nat b) (PyStr.strip ten_sentences) = Some c
                     /\ PyStr.char_in c TextChunker.word_separators = true))).
Proof.
  apply (boundary_is_sentence_or_word_end (PyStr.strip ten_sentences) 100). lia.
Defined.

Example boundary_after_a_sentence :
  TextChunker._find_boundary (PyStr.strip ten_sentences) 100 = Ok 140
  /\ TextChunker._find_boundary "one two-three-four five" 9 = Ok 18.
Proof. vm_compute. split; reflexivity. Qed.

(** * When the validator raises *)

(** A source object the loop of [_parse_response] can handle: a [dict]
    whose ["chunk_id"], if it has one, can be looked up in a set. *)
Definition well_formed_source (source : pyval) : bool :=
  match source with
  | PDict fields =>
      match fields !! "chunk_id" with
      | Some (PList _) | Some (PDict _) => false
      | _ => true
      end
  | _ => false
  end.

(** A decoded payload [_parse_response] can handle: a [dict] whose
    ["sources"], [[]] when missing, can be iterated and yield only
    well-formed source objects. *)
Definition well_formed_payload (parsed : pyval) : bool :=
  match parsed with
  | PDict fields =>
      match Py.iter (default (PList []) (fields !! "sources")) with
      | Ok items => forallb well_formed_source items
      | Raise _ => false
      end
  | _ => false
  end.

(** The exceptions of a malformed payload. *)
Definition shape_error (e : exn) : Prop := e = AttributeError \/ e = TypeError.

Lemma validate_source_outcome section_map valid_chunk_ids source :
  match AnswerGenerator.validate_source section_map valid_chunk_ids source with
  | Ok _ => well_formed_source source = true
  | Raise e => well_formed_source source = false /\ shape_error e
  end.
Proof.
  unfold AnswerGenerator.validate_source, shape_error.
  destruct source as [| | | | |xs|fields]; cbn; auto.
  destruct (fields !! "chunk_id") as [[| | | |id|ys|items]|]; cbn; auto.
  - destruct (decide (id ∈ valid_chunk_ids)); cbn; reflexivity.
  - destruct (decide ("" ∈ valid_chunk_ids)); cbn; reflexivity.
Qed.

Lemma mapM_filter_outcome {A B : Type} (f : A -> result (option B))
    (ok : A -> bool) (xs : list A) :
  (forall x,
      match f x with
      | Ok _ => ok x = true
      | Raise e => ok x = false /\ shape_error e
      end) ->
  match mapM_filter f xs with
  | Ok _ => forallb ok xs = true
  | Raise e => forallb ok xs = false /\ shape_error e
  end.
Proof.
  intros Hf. induction xs as [|x xs IH]; [reflexivity|].
  cbn [mapM_filter forallb]. specialize (Hf x).
  destruct (f x) as [o|e]; [|destruct Hf as [-> He]; auto].
  rewrite Hf. destruct (mapM_filter f xs) as [ys|e]; [exact IH|].
  destruct IH as [-> He]. auto.
Qed.

(** X20: the validator raises exactly on malformed payloads. For a
    completion that decodes, [_parse_response] returns a response when the
    payload is an object whose sources ([[]] when missing) can be iterated
    and are all objects with a [chunk_id] that is not a list or an object;
    in every other case it raises [AttributeError] or [TypeError]. *)
Theorem validator_raises_exactly_on_malformed_payloads
    (json_loads : string -> option pyval) (text : string)
    (chunks : list RetrievedChunk.t) (parsed : pyval) :
  json_loads (PyStr.strip (AnswerGenerator.extract_json_text text)) = Some parsed ->
  match AnswerGenerator._parse_response json_loads text chunks with
  | Ok _ => well_formed_payload parsed = true
  | Raise e =>
      well_formed_payload parsed = false
      /\ (e = AttributeError \/ e = TypeError)
  end.
Proof.
  intros Hloads. unfold AnswerGenerator._parse_response. cbv zeta.
  rewrite Hloads. unfold well_formed_payload.
  destruct parsed as [| | | | |xs|fields]; cbn; auto.
  destruct (Py.iter (default (PList []) (fields !! "sources"))) as [items|e] eqn:Hiter.
  - assert (Py.iter match fields !! "sources" with
                    | Some v => v
                    | None => PList []
                    end = Ok items) as ->.
    { destruct (fields !! "sources"); exact Hiter. }
    cbn.
    pose proof (mapM_filter_outcome
                  (AnswerGenerator.validate_source
                     (AnswerGenerator.chunk_section_map chunks)
                     (dom (AnswerGenerator.chunk_section_map chunks)))
                  well_formed_source items
                  (validate_source_outcome _ _)) as Hitems.
    destruct (mapM_filter _ items) as [sources|e]; cbn; exact Hitems.
  - assert (Py.iter match fields !! "sources" with
                    | Some v => v
                    | None => PList []
                    end = Raise e) as ->.
    { destruct (fields !! "sources"); exact Hiter. }
    cbn. split; [reflexivity|].
    destruct (default (PList []) (fields !! "sources")); cbn in Hiter;
      try discriminate; injection Hiter as <-; auto.
Qed.

(** A payload whose sources are a number. *)
Definition numeric_sources : string := Json.q "{'answer':'Paris.','sources':7}".

Lemma validator_raises_exactly_on_malformed_payloads_witness :
  match AnswerGenerator._parse_response Json.loads numeric_sources [paris_chunk] with
  | Ok _ =>
      well_formed_payload
        (PDict {[ "answer" := PStr "Paris."; "sources" := PInt 7 ]}) = true
  | Raise e =>
      well_formed_payload
        (PDict {[ "answer" := PStr "Paris."; "sources" := PInt 7 ]}) = false
      /\ (e = AttributeError \/ e = TypeError)
  end.
Proof.
  apply (validator_raises_exactly_on_malformed_payloads Json.loads numeric_sources
           [paris_chunk]
           (PDict {[ "answer" := PStr "Paris."; "sources" := PInt 7 ]})).
  vm_compute. reflexivity.
Defined.

Example numeric_sources_raise :
  AnswerGenerator._parse_response Json.loads numeric_sources [paris_chunk]
  = Raise TypeError.
Proof. vm_compute. reflexivity. Qed.

(** * The text parts of a DOCX file *)

(** The header lines of a section, in the order of its paragraphs. *)
Definition header_lines (s : Docx.section) : list string :=
  map (fun text => "[Header] " +:+ text) (DocumentLoader.stripped (Docx.header s)).

Definition footer_lines (s : Docx.section) : list string :=
  map (fun text => "[Footer] " +:+ text) (DocumentLoader.stripped (Docx.footer s)).

(** The lines of the tables, one for each row with a cell that is not
    blank. *)
Definition table_lines (doc : Docx.t) : list string :=
  concat (map (fun table => concat (map DocumentLoader.row_parts table))
            (Docx.tables doc)).

Lemma header_fold (texts parts : list string) :
  fold_left (fun parts text => ("[Header] " +:+ text) :: parts) texts parts
  = (rev (map (fun text => "[Header] " +:+ text) texts) ++ parts)%list.
Proof.
  revert parts. induction texts as [|text texts IH]; intros parts; [reflexivity|].
  cbn [fold_left map rev]. rewrite IH, <- app_assoc. reflexivity.
Qed.

Lemma footer_fold (texts parts : list string) :
  fold_left (fun parts text => (parts ++ ["[Footer] " +:+ text])%list) texts parts
  = (parts ++ map (fun text => "[Footer] " +:+ text) texts)%list.
Proof.
  revert parts. induction texts as [|text texts IH]; intros parts;
    [rewrite app_nil_r; reflexivity|].
  cbn [fold_left map]. rewrite IH, <- app_assoc. reflexivity.
Qed.

Lemma sections_fold (sections : list Docx.section) (parts : list string) :
  fold_left DocumentLoader.section_parts sections parts
  = (rev (concat (map header_lines sections)) ++ parts
       ++ concat (map footer_lines sections))%list.
Proof.
  revert parts. induction sections as [|s sections IH]; intros parts.
  - cbn. rewrite app_nil_r. reflexivity.
  - cbn [fold_left map concat]. rewrite IH.
    unfold DocumentLoader.section_parts. cbv zeta.
    rewrite footer_fold, header_fold. fold (header_lines s) (footer_lines s).
    rewrite rev_app_distr, <- !app_assoc. reflexivity.
Qed.

Lemma stripped_not_empty texts :
  Forall (fun text => text <> EmptyString) (DocumentLoader.stripped texts).
Proof.
  unfold DocumentLoader.stripped. apply Forall_forall. intros text Hin.
  apply list_elem_of_In, filter_In in Hin as [_ Hin].
  apply negb_true_iff, String.eqb_neq in Hin. exact Hin.
Qed.

Lemma join_not_empty sep xs :
  xs <> [] -> Forall (fun x => x <> EmptyString) xs ->
  String.concat sep xs <> EmptyString.
Proof.
  intros Hne Hall. destruct xs as [|x xs]; [congruence|].
  inversion Hall as [|? ? Hx _]; subst.
  destruct x as [|c x]; [congruence|].
  destruct xs; cbn; discriminate.
Qed.

Lemma row_parts_not_empty row :
  Forall (fun text => text <> EmptyString) (DocumentLoader.row_parts row).
Proof.
  unfold DocumentLoader.row_parts.
  pose proof (stripped_not_empty row) as Hcells.
  destruct (DocumentLoader.stripped row) as [|cell cells]; [constructor|].
  constructor; [|constructor]. apply join_not_empty; [discriminate | exact Hcells].
Qed.

Lemma concat_Forall {A : Type} (P : A -> Prop) (xss : list (list A)) :
  Forall (Forall P) xss -> Forall P (concat xss).
Proof.
  induction 1 as [|xs xss Hxs _ IH]; [constructor|].
  cbn. apply Forall_app. split; assumption.
Qed.

Lemma prefixed_not_empty label texts :
  label <> EmptyString ->
  Forall (fun text => text <> EmptyString) (map (fun text => label +:+ text) texts).
Proof.
  intros Hlabel. apply Forall_forall. intros line Hin.
  apply list_elem_of_fmap in Hin as (text & -> & _).
  destruct label; [congruence | discriminate].
Qed.

Lemma all_text_parts_closed doc :
  DocumentLoader.all_text_parts doc
  = (rev (concat (map header_lines (Docx.sections doc)))
       ++ DocumentLoader.stripped (Docx.paragraphs doc)
       ++ table_lines doc
       ++ concat (map footer_lines (Docx.sections doc)))%list.
Proof.
  unfold DocumentLoader.all_text_parts. cbv zeta.
  rewrite sections_fold, <- app_assoc. reflexivity.
Qed.

Lemma all_text_parts_not_empty doc :
  Forall (fun text => text <> EmptyString) (DocumentLoader.all_text_parts doc).
Proof.
  rewrite all_text_parts_closed. repeat apply Forall_app_2.
  - apply Forall_rev, concat_Forall, Forall_fmap, Forall_forall.
    intros s _. apply prefixed_not_empty. discriminate.
  - apply stripped_not_empty.
  - apply concat_Forall, Forall_fmap, Forall_forall. intros table _.
    apply concat_Forall, Forall_fmap, Forall_forall. intros row _.
    apply row_parts_not_empty.
  - apply concat_Forall, Forall_fmap, Forall_forall.
    intros s _. apply prefixed_not_empty. discriminate.
Qed.

(** X21: the text [_load_docx] reads from a document. Its parts are, in
    this order: the header lines of all sections in reverse order, the
    paragraphs, one line for each table row with its cells joined by
    [" | "], and the footer lines of all sections in their order; blank
    paragraphs, cells and rows are left out, so no part is empty. No page
    is returned exactly when there is no part at all. *)
Theorem docx_text_parts_in_order (document_name : string) (doc : Docx.t) :
  DocumentLoader.all_text_parts doc
  = (rev (concat (map header_lines (Docx.sections doc)))
       ++ DocumentLoader.stripped (Docx.paragraphs doc)
       ++ table_lines doc
       ++ concat (map footer_lines (Docx.sections doc)))%list
  /\ Forall (fun text => text <> EmptyString) (DocumentLoader.all_text_parts doc)
  /\ (DocumentLoader._load_docx document_name doc = []
      <-> DocumentLoader.all_text_parts doc = []).
Proof.
  split; [apply all_text_parts_closed|].
  split; [apply all_text_parts_not_empty|].
  unfold DocumentLoader._load_docx, DocumentLoader.full_text.
  destruct (DocumentLoader.all_text_parts doc) as [|part parts] eqn:Hparts.
  - cbn. tauto.
  - pose proof (all_text_parts_not_empty doc) as Hall. rewrite Hparts in Hall.
    pose proof (join_not_empty DocumentLoader.paragraph_break (part :: parts)
                  ltac:(discriminate) Hall) as Hjoin.
    apply String.eqb_neq in Hjoin. rewrite Hjoin. split; [|discriminate].
    destruct (_ <? _); [|discriminate].
    intros Hnil. apply (f_equal (map DocumentPage.text)) in Hnil.
    rewrite section_pages_texts in Hnil.
    pose proof (split_pages_join
                  (String.concat DocumentLoader.paragraph_break (part :: parts))
                  DocumentLoader.max_page_chars) as Hback.
    change (map DocumentPage.text []) with (@nil string) in Hnil.
    rewrite Hnil in Hback. apply String.eqb_neq in Hjoin.
    exfalso. apply Hjoin. rewrite <- Hback. reflexivity.
Qed.

Example docx_with_header_and_table :
  DocumentLoader.all_text_parts
    {| Docx.paragraphs := [" Title "; "   "; "Body text."];
       Docx.tables := [[["a"; " "; "b "]; [" "; ""]]];
       Docx.sections :=
         [ {| Docx.header := ["H1"; "H2"]; Docx.footer := ["F1"] |};
           {| Docx.header := ["H3"]; Docx.footer := [" "; "F2"] |} ] |}
  = [ "[Header] H3"; "[Header] H2"; "[Header] H1"; "Title"; "Body text.";
      "a | b"; "[Footer] F1"; "[Footer] F2" ].
Proof. vm_compute. reflexivity. Qed.

(** * From the collection to the cited sources *)

Lemma parsed_sources_are_retrieved json_loads text chunks response :
  AnswerGenerator._parse_response json_loads text chunks = Ok response ->
  Forall (fun s => SourceReference.chunk_id s ∈ retrieved_ids chunks)
    (AnswerResponse.sources response).
Proof.
  intros Hr. destruct (json_loads (payload_text text)) as [parsed|] eqn:Hd.
  - destruct (parse_decoded json_loads text chunks parsed response Hd Hr) as [_ ->].
    apply Forall_forall. intros s Hin. apply list_elem_of_omap in Hin.
    destruct Hin as (source & _ & Hs).
    destruct (reference_of_Some _ _ _ Hs) as (? & c & _ & _ & Ho & _).
    apply owner_is_Some. eauto.
  - rewrite (parse_decode_error json_loads text chunks Hd) in Hr.
    injection Hr as <-. constructor.
Qed.

(** X22: through the whole query path, an answer cites only what the
    collection returned for the question. When [retrieve] over [search]
    returns chunks and [generate] returns a response for them, every
    source of the response has the id of a row the collection returned
    for this question; without rows there are no sources. *)
Theorem sources_come_from_the_collection
    (json_loads : string -> option pyval) (RAG_SYSTEM_PROMPT : string)
    (generator : AnswerGenerator.t)
    (Embedding : Type) (generate_single : string -> Embedding)
    (collection_query :
       Embedding -> Z -> option string -> option VectorStore.query_result)
    (settings : Settings.t) (retriever : Retriever.t) (question : string)
    (top_k : option Z) (filter_document : option string)
    (chunks : list RetrievedChunk.t) (calls : list AnswerGenerator.request)
    (response : AnswerResponse.t) :
  let k := int_or top_k (Retriever.top_k retriever) in
  let n_results := if k =? 0 then Settings.top_k_results settings else k in
  let doc_filter :=
    match filter_document with
    | Some name => if String.eqb name EmptyString then None else Some name
    | None => None
    end in
  Retriever.retrieve
    (fun query k filter_doc =>
       VectorStoreQueries.search Embedding generate_single collection_query
         settings query (Some k) filter_doc)
    retriever question top_k filter_document
  = Ok chunks ->
  AnswerGenerator.generate json_loads RAG_SYSTEM_PROMPT generator question chunks
  = (calls, Ok response) ->
  Forall
    (fun s =>
       exists r,
         collection_query (generate_single question) n_results doc_filter = Some r
         /\ SourceReference.chunk_id s ∈ VectorStore.ids r)
    (AnswerResponse.sources response).
Proof.
  cbv zeta. intros Hretrieve Hgenerate.
  assert (Forall (fun s => SourceReference.chunk_id s ∈ retrieved_ids chunks)
            (AnswerResponse.sources response)) as Hsources.
  { unfold AnswerGenerator.generate in Hgenerate.
    destruct (AnswerGenerator.client generator) as [complete|]; [|discriminate].
    destruct chunks as [|c chunks].
    - injection Hgenerate as _ <-. constructor.
    - injection Hgenerate as _ Hparse.
      destruct (complete _) as [content|e]; [|discriminate].
      exact (parsed_sources_are_retrieved _ _ _ _ Hparse). }
  unfold Retriever.retrieve, VectorStoreQueries.search in Hretrieve.
  cbv zeta in Hretrieve.
  change (int_or (Some (int_or top_k (Retriever.top_k retriever)))
            (Settings.top_k_results settings))
    with (if int_or top_k (Retriever.top_k retriever) =? 0
          then Settings.top_k_results settings
          else int_or top_k (Retriever.top_k retriever)) in Hretrieve.
  change (VectorStoreQueries.where_filter filter_document)
    with (match filter_document with
          | Some name => if String.eqb name EmptyString then None else Some name
          | None => None
          end) in Hretrieve.
  destruct (collection_query _ _ _) as [r|].
  - unfold VectorStore.format_results in Hretrieve.
    rewrite format_rows_outcome in Hretrieve.
    destruct (forallb (row_complete r) _); [|discriminate].
    cbn [mbind result_bind] in Hretrieve.
    pose proof (convert_outcome
                  (map (hit_at r) (seq 0 (length (VectorStore.ids r)))) [])
      as Hconvert.
    destruct (forallb has_metadata _); [|congruence].
    destruct Hconvert as (chunks' & Hchunks & Hall).
    rewrite Hretrieve in Hchunks. injection Hchunks as ->.
    unfold retrieved_ids in Hsources.
    rewrite (normalised_rows_ids r chunks' Hall) in Hsources.
    eapply Forall_impl; [exact Hsources|]. intros s Hs. exists r. auto.
  - cbn in Hretrieve. injection Hretrieve as <-.
    inversion Hsources as [Hnil|s ss Hs _ Heq]; [constructor|].
    cbn in Hs. inversion Hs.
Qed.

Lemma sources_come_from_the_collection_witness :
  Forall
    (fun s =>
       exists r,
         (fun _ _ _ => Some two_rows) "capital of France" 5 (@None string) = Some r
         /\ SourceReference.chunk_id s ∈ VectorStore.ids r)
    (AnswerResponse.sources
       {| AnswerResponse.answer := PStr "Paris.";
          AnswerResponse.sources := [paris_reference] |}).
Proof.
  apply (sources_come_from_the_collection Json.loads system_prompt
           (canned mixed_completion) string (fun text => text)
           (fun _ _ _ => Some two_rows) Settings.default
           (Retriever.__init__ Settings.default None) "capital of France"
           None None two_rows_retrieved
           [ {| AnswerGenerator.req_model := "llama-3.1-70b-versatile";
                AnswerGenerator.req_system := system_prompt;
                AnswerGenerator.req_user :=
                  AnswerGenerator._build_user_message "capital of France"
                    (AnswerGenerator._format_context two_rows_retrieved) |} ]
           {| AnswerResponse.answer := PStr "Paris.";
              AnswerResponse.sources := [paris_reference] |});
    vm_compute; reflexivity.
Defined.

(** * Where the loop of the chunker stalls *)

(** [c * n] for a character [c]. *)
Definition run (c : ascii) (n : nat) : string := str_mul (String c EmptyString) n.

Lemma run_S c n : run c (S n) = String c (run c n).
Proof. reflexivity. Qed.

Lemma run_length_eq c n : String.length (run c n) = n.
Proof.
  induction n as [|n IH]; [reflexivity|]. rewrite run_S. cbn [String.length].
  rewrite IH. reflexivity.
Qed.

Lemma run_add c j k : run c (j + k) = run c j +:+ run c k.
Proof.
  induction j as [|j IH]; [reflexivity|].
  change (S j + k)%nat with (S (j + k)). rewrite !run_S, IH. reflexivity.
Qed.

Lemma rfind_go_skip sub c t i :
  String.prefix sub (String c t) = false ->
  PyStr.rfind_go sub (String c t) i = PyStr.rfind_go sub t (S i).
Proof.
  intros Hpre. cbn [PyStr.rfind_go]. rewrite Hpre.
  destruct (PyStr.rfind_go sub t (S i)); reflexivity.
Qed.

Lemma prefix_other_head d sub c t :
  d <> c -> String.prefix (String d sub) (String c t) = false.
Proof. intros Hne. cbn [String.prefix]. destruct (ascii_dec d c); [contradiction | reflexivity]. Qed.

Lemma rfind_go_run d sub c k t i :
  d <> c ->
  PyStr.rfind_go (String d sub) (run c k +:+ t) i
  = PyStr.rfind_go (String d sub) t (i + k).
Proof.
  intros Hne. revert i. induction k as [|k IH]; intros i.
  - change (run c 0 +:+ t) with t. f_equal. lia.
  - rewrite run_S. change (String c (run c k) +:+ t) with (String c (run c k +:+ t)).
    rewrite rfind_go_skip by (apply prefix_other_head, Hne).
    rewrite IH. f_equal. lia.
Qed.

Lemma rfind_go_run_end d sub c k i :
  d <> c -> PyStr.rfind_go (String d sub) (run c k) i = None.
Proof.
  intros Hne. revert i. induction k as [|k IH]; intros i; [reflexivity|].
  rewrite run_S, rfind_go_skip by (apply prefix_other_head, Hne). apply IH.
Qed.

(** A window of the page: some [a], one sentence end, some [b]. *)
Definition window (k j : nat) : string := run "a" k +:+ ". " +:+ run "b" j.

Lemma rfind_go_window d sub k j :
  d <> "a"%char -> d <> " "%char -> d <> "b"%char ->
  PyStr.rfind_go (String d sub) (window k j) 0
  = if String.prefix (String d sub) (String "."%char (String " "%char (run "b" j)))
    then Some k else None.
Proof.
  intros Ha Hs Hb. unfold window. rewrite rfind_go_run by exact Ha.
  change (". " +:+ run "b" j) with (String "."%char (String " "%char (run "b" j))).
  cbn [PyStr.rfind_go].
  rewrite (prefix_other_head d sub " " (run "b" j) Hs).
  rewrite rfind_go_run_end by exact Hb. reflexivity.
Qed.

Lemma window_length k j : String.length (window k j) = (k + 2 + j)%nat.
Proof.
  unfold window. rewrite !string_app_length, !run_length_eq. cbn [String.length]. lia.
Qed.

Lemma rfind_whole s sub stop :
  PyStr.len s <= stop ->
  PyStr.rfind s sub 0 stop
  = match PyStr.rfind_go sub s 0 with
    | Some k => Z.of_nat k
    | None => -1
    end.
Proof.
  intros Hstop. unfold PyStr.rfind, PyStr.clamp, PyStr.len in *.
  destruct (Z.ltb_spec (Z.of_nat (String.length s)) 0); [lia|].
  destruct (Z.ltb_spec 0 0); [lia|]. destruct (Z.ltb_spec stop 0); [lia|].
  replace (Z.to_nat (Z.min 0 (Z.of_nat (String.length s)))) with 0%nat by lia.
  replace (Z.to_nat _) with (String.length s) by lia.
  rewrite substring_whole. destruct (PyStr.rfind_go sub s 0); [f_equal; lia | reflexivity].
Qed.

Lemma prefix_sentence t :
  String.prefix ". " (String "."%char (String " "%char t)) = true.
Proof. destruct t; reflexivity. Qed.

(** In a window the last sentence end is the only one. *)
Lemma rfind_window k j stop marker :
  PyStr.len (window k j) <= stop ->
  marker ∈ TextChunker.sentence_ends ->
  PyStr.rfind (window k j) marker 0 stop
  = if String.eqb marker ". " then Z.of_nat k else -1.
Proof.
  intros Hstop Hin. rewrite rfind_whole by exact Hstop.
  unfold TextChunker.sentence_ends in Hin.
  repeat (apply elem_of_cons in Hin as [-> | Hin]);
    [| | | | | | inversion Hin];
    (etransitivity;
     [apply (f_equal (fun o : option nat =>
                        match o with Some k => Z.of_nat k | None => -1 end));
      apply rfind_go_window; discriminate
     | first [reflexivity | rewrite prefix_sentence; reflexivity]]).
Qed.

Lemma best_break_window k j search_start stop :
  PyStr.len (window k j) <= stop ->
  TextChunker.best_break (window k j) search_start stop
  = Some (search_start + Z.of_nat k + 2).
Proof.
  intros Hstop. unfold TextChunker.best_break, TextChunker.sentence_ends.
  cbn [fold_left].
  rewrite !(rfind_window k j stop) by
    (first [exact Hstop | unfold TextChunker.sentence_ends; set_solver]).
  cbn. destruct (Z.eqb_spec (Z.of_nat k) (-1)); [lia|]. reflexivity.
Qed.

(** The part of a window between two positions around its sentence end is
    a window. *)
Lemma slice_window m n lo hi :
  (lo <= m)%nat -> (m + 2 <= hi)%nat -> (hi <= m + 2 + n)%nat ->
  PyStr.slice (window m n) (Z.of_nat lo) (Z.of_nat hi)
  = window (m - lo) (hi - (m + 2)).
Proof.
  intros Hlo Hhi Hlen. unfold PyStr.slice, PyStr.clamp, PyStr.len.
  rewrite window_length.
  destruct (Z.ltb_spec (Z.of_nat lo) 0); [lia|].
  destruct (Z.ltb_spec (Z.of_nat hi) 0); [lia|].
  replace (Z.to_nat (Z.min (Z.of_nat lo) (Z.of_nat (m + 2 + n)))) with lo by lia.
  replace (Z.to_nat _) with (hi - lo)%nat by lia.
  unfold window.
  replace m with (lo + (m - lo))%nat at 1 by lia.
  replace n with ((hi - (m + 2)) + (n - (hi - (m + 2))))%nat at 1 by lia.
  rewrite !run_add, !string_app_assoc.
  rewrite <- (run_length_eq "a" lo) at 1. rewrite substring_app_r.
  set (rest := run "b" (n - (hi - (m + 2)))).
  replace (run "a" (m - lo) +:+ ". " +:+ run "b" (hi - (m + 2)) +:+ rest)
    with ((run "a" (m - lo) +:+ ". " +:+ run "b" (hi - (m + 2))) +:+ rest)
    by (rewrite !string_app_assoc; reflexivity).
  replace (hi - lo)%nat
    with (String.length (run "a" (m - lo) +:+ ". " +:+ run "b" (hi - (m + 2)))).
  - apply substring_app_l.
  - rewrite !string_app_length, !run_length_eq. cbn [String.length]. lia.
Qed.

(** Near enough to the sentence end of a window, the boundary is that
    sentence end. *)
Lemma find_boundary_window m n position :
  0 <= position ->
  position - 50 <= Z.of_nat m ->
  Z.of_nat m + 2 <= position + 50 <= Z.of_nat (m + 2 + n) ->
  TextChunker._find_boundary (window m n) position = Ok (Z.of_nat m + 2).
Proof.
  intros Hpos Hnear Hfar. unfold TextChunker._find_boundary. cbv zeta.
  unfold PyStr.len at 1 2. rewrite window_length.
  replace (Z.min (Z.of_nat (m + 2 + n)) (position + 50)) with (position + 50) by lia.
  set (lo := Z.to_nat (Z.max 0 (position - 50))).
  replace (Z.max 0 (position - 50)) with (Z.of_nat lo) by lia.
  replace (position + 50) with (Z.of_nat (Z.to_nat (position + 50))) at 1 by lia.
  rewrite slice_window by lia.
  rewrite best_break_window
    by (unfold PyStr.len; rewrite window_length; lia).
  destruct (Z.eqb_spec (Z.of_nat lo + Z.of_nat (m - lo) + 2) 0); [lia|].
  f_equal. lia.
Qed.

Lemma rstrip_app_char x c :
  PyStr.isspace c = false ->
  PyStr.rstrip (x +:+ String c EmptyString) = x +:+ String c EmptyString.
Proof.
  intros Hc. induction x as [|d x IH].
  - change (EmptyString +:+ String c EmptyString) with (String c EmptyString).
    rewrite rstrip_cons. cbn [PyStr.rstrip]. rewrite Hc. reflexivity.
  - change (String d x +:+ String c EmptyString)
      with (String d (x +:+ String c EmptyString)).
    rewrite rstrip_cons, IH.
    destruct x; reflexivity.
Qed.

(** A window is stripped already. *)
Lemma strip_window m n : PyStr.strip (window m (S n)) = window m (S n).
Proof.
  unfold PyStr.strip.
  assert (PyStr.lstrip (window m (S n)) = window m (S n)) as ->.
  { unfold window. destruct m as [|m]; reflexivity. }
  unfold window. replace (S n) with (n + 1)%nat by lia.
  rewrite run_add. change (run "b" 1) with "b".
  rewrite <- !string_app_assoc. apply rstrip_app_char. reflexivity.
Qed.

(** The page on which a chunker with [1 <= overlap < chunk_size] and
    [chunk_size <= overlap + 48] stalls: a sentence that ends where the
    overlap ends, and [chunk_size + 60] characters after it. *)
Definition stalling_page (chunk_size chunk_overlap : Z) : string :=
  str_mul "a" (Z.to_nat (Z.max chunk_overlap 2 - 2)) +:+ ". "
    +:+ str_mul "b" (Z.to_nat (chunk_size + 60)).

Section Stall.
Variables (chunk_size chunk_overlap : Z).
Hypothesis overlap_positive : 1 <= chunk_overlap.
Hypothesis overlap_below_size : chunk_overlap < chunk_size.
Hypothesis size_near_overlap : chunk_size <= chunk_overlap + 48.

Let self : TextChunker.t :=
  {| TextChunker.chunk_size := chunk_size;
     TextChunker.chunk_overlap := chunk_overlap |}.
Let page := stalling_page chunk_size chunk_overlap.
Let break_at := Z.max chunk_overlap 2.

Lemma stalling_page_window :
  page = window (Z.to_nat (break_at - 2)) (Z.to_nat (chunk_size + 60)).
Proof using Type. reflexivity. Qed.

Lemma stalling_page_length : PyStr.len page = break_at + chunk_size + 60.
Proof using overlap_positive overlap_below_size.
  rewrite stalling_page_window. unfold PyStr.len. rewrite window_length.
  subst break_at. lia.
Qed.

Lemma stalling_page_stripped : PyStr.strip page = page.
Proof using overlap_positive overlap_below_size.
  rewrite stalling_page_window.
  replace (Z.to_nat (chunk_size + 60)) with (S (Z.to_nat (chunk_size + 59))) by lia.
  apply strip_window.
Qed.

(** From the start of the page, and from where the first round leaves
    [start], the window ends at the sentence end. *)
Lemma stalling_window_end start :
  0 <= start <= break_at - chunk_overlap ->
  TextChunker.window_end self page start = Ok break_at.
Proof using overlap_positive overlap_below_size size_near_overlap.
  intros Hstart. unfold TextChunker.window_end. cbv zeta.
  rewrite stalling_page_length. cbn [TextChunker.chunk_size self].
  destruct (Z.ltb_spec (start + chunk_size) (break_at + chunk_size + 60));
    [|subst break_at; lia].
  rewrite stalling_page_window.
  rewrite find_boundary_window by (subst break_at; lia).
  replace (Z.of_nat (Z.to_nat (break_at - 2)) + 2) with break_at
    by (subst break_at; lia).
  destruct (Z.gtb_spec break_at start); [reflexivity | subst break_at; lia].
Qed.

Lemma stalling_loop fuel st :
  0 <= TextChunker.start st <= break_at - chunk_overlap ->
  TextChunker.chunk_loop self page "a.txt" 1 false fuel st = None.
Proof using overlap_positive overlap_below_size size_near_overlap.
  revert st. induction fuel as [|fuel IH]; intros st Hstart; [reflexivity|].
  rewrite loop_unfold.
  destruct (Z.ltb_spec (TextChunker.start st) (PyStr.len page)) as [_ | Hge];
    [|rewrite stalling_page_length in Hge; subst break_at; lia].
  rewrite loop_body_unfold, (stalling_window_end _ Hstart). cbv zeta.
  cbn [TextChunker.chunk_overlap self].
  destruct (Z.leb_spec (PyStr.len page - 1) (break_at - chunk_overlap)) as [Hle | _];
    [rewrite stalling_page_length in Hle; subst break_at; lia|].
  apply IH. cbn [TextChunker.start]. subst break_at. lia.
Qed.

Lemma stalling_page_never_ends fuel :
  chunk_size < PyStr.len (PyStr.strip page)
  /\ TextChunker._chunk_text fuel self page "a.txt" 1 false = None.
Proof using overlap_positive overlap_below_size size_near_overlap.
  rewrite stalling_page_stripped, stalling_page_length.
  split; [subst break_at; lia|].
  rewrite chunk_text_long;
    [| rewrite stalling_page_stripped, stalling_page_length; subst break_at; lia
     | rewrite stalling_page_stripped, stalling_page_length;
       cbn [TextChunker.chunk_size self]; subst break_at; lia].
  rewrite stalling_page_stripped. apply stalling_loop.
  cbn [TextChunker.start initial_state]. subst break_at. lia.
Qed.
End Stall.

(** With an overlap, termination needs [chunk_size >= chunk_overlap + 49]:
    for every chunker with [1 <= chunk_overlap < chunk_size] and
    [chunk_size <= chunk_overlap + 48] there is a page longer than
    [chunk_size] on which the loop never ends. *)
Lemma overlap_without_room_stalls (self : TextChunker.t) :
  1 <= TextChunker.chunk_overlap self ->
  TextChunker.chunk_overlap self < TextChunker.chunk_size self ->
  TextChunker.chunk_size self <= TextChunker.chunk_overlap self + 48 ->
  exists text,
    TextChunker.chunk_size self < PyStr.len (PyStr.strip text)
    /\ forall fuel,
         TextChunker._chunk_text fuel self text "a.txt" 1 false = None.
Proof.
  destruct self as [chunk_size chunk_overlap]. cbn. intros Hov Hlt Hnear.
  exists (stalling_page chunk_size chunk_overlap). split.
  - apply (stalling_page_never_ends chunk_size chunk_overlap Hov Hlt Hnear 0).
  - intros fuel.
    apply (stalling_page_never_ends chunk_size chunk_overlap Hov Hlt Hnear fuel).
Qed.

Example stalling_page_for_ten_and_nine :
  stalling_page 10 9 = "aaaaaaa. " +:+ str_mul "b" 70.
Proof. vm_compute. reflexivity. Qed.
